(** * Access control and ticket workflow of the issue tracker

    A shallow embedding of the row-level-security policies declared by the
    SQL migrations under [supabase/migrations], of the resolver function
    [get_user_project_ids], and of the store statements the React client
    issues ([KanbanBoard.tsx], [TicketDialog.tsx], [ProjectSettings]).

    Layout: schema and rows; policy language and the policy catalog built by
    replaying the migrations; policy rewriting (how the store inlines the
    row filters of the tables a policy reads) and evaluation; the store
    statements; the client's handlers, page by page; then the theorems, first
    those on the access rules and the ticket workflow, then further ones on
    the policies, the client, membership, the pages and sign-up. *)

From Stdlib Require Import List Bool Arith ZArith String Lia Permutation Sorted.
Import ListNotations.

Set Implicit Arguments.

(** ** Schema *)

(** UUID columns.  Only equality on them is ever used. *)
Definition uuid := nat.

(** TIMESTAMP WITH TIME ZONE, as a count of microseconds. *)
Definition timestamptz := Z.

(** [CREATE TYPE ... AS ENUM] of the initial migration. *)
Inductive ticket_type := bug | feature | task.
Inductive ticket_priority := low | medium | high | critical.
Inductive ticket_status := todo | in_progress | done.
Inductive user_role := admin | developer | viewer.

(** [CREATE TABLE public.profiles] *)
Module profiles.
Record row := mk {
  id : uuid;
  username : option string;
  full_name : option string
}.
End profiles.

(** [CREATE TABLE public.projects] *)
Module projects.
Record row := mk {
  id : uuid;
  name : string;
  description : option string;
  owner_id : uuid;
  created_at : timestamptz
}.
End projects.

(** [CREATE TABLE public.project_members], [UNIQUE(project_id, user_id)] *)
Module project_members.
Record row := mk {
  id : uuid;
  project_id : uuid;
  user_id : uuid;
  role : user_role;
  invited_by : option uuid;
  joined_at : timestamptz
}.
End project_members.

(** [CREATE TABLE public.tickets] *)
Module tickets.
Record row := mk {
  id : uuid;
  title : string;
  description : option string;
  type : ticket_type;
  priority : ticket_priority;
  status : ticket_status;
  project_id : uuid;
  reporter_id : uuid;
  assignee_id : option uuid;
  attachment_url : option string;
  created_at : timestamptz
}.
End tickets.

(** [CREATE TABLE public.comments] *)
Module comments.
Record row := mk {
  id : uuid;
  content : string;
  ticket_id : uuid;
  author_id : uuid;
  parent_id : option uuid;
  created_at : timestamptz
}.
End comments.

(** The store: each table is the list of its rows in physical order. *)
Record database := mkdb {
  tbl_profiles : list profiles.row;
  tbl_projects : list projects.row;
  tbl_project_members : list project_members.row;
  tbl_tickets : list tickets.row;
  tbl_comments : list comments.row
}.

(** ** Rows as the policy language sees them

    Policies only compare UUID columns, so a row is presented to a policy
    as a map from column names to nullable UUIDs. *)

Inductive table :=
  | Tprofiles | Tprojects | Tproject_members | Ttickets | Tcomments.

Inductive column :=
  | c_id | c_owner_id | c_project_id | c_user_id | c_invited_by
  | c_reporter_id | c_assignee_id | c_ticket_id | c_author_id | c_parent_id.

Definition tuple := column -> option uuid.

Definition profile_tuple (r : profiles.row) : tuple := fun c =>
  match c with
  | c_id => Some (profiles.id r)
  | _ => None
  end.

Definition project_tuple (r : projects.row) : tuple := fun c =>
  match c with
  | c_id => Some (projects.id r)
  | c_owner_id => Some (projects.owner_id r)
  | _ => None
  end.

Definition member_tuple (r : project_members.row) : tuple := fun c =>
  match c with
  | c_id => Some (project_members.id r)
  | c_project_id => Some (project_members.project_id r)
  | c_user_id => Some (project_members.user_id r)
  | c_invited_by => project_members.invited_by r
  | _ => None
  end.

Definition ticket_tuple (r : tickets.row) : tuple := fun c =>
  match c with
  | c_id => Some (tickets.id r)
  | c_project_id => Some (tickets.project_id r)
  | c_reporter_id => Some (tickets.reporter_id r)
  | c_assignee_id => tickets.assignee_id r
  | _ => None
  end.

Definition comment_tuple (r : comments.row) : tuple := fun c =>
  match c with
  | c_id => Some (comments.id r)
  | c_ticket_id => Some (comments.ticket_id r)
  | c_author_id => Some (comments.author_id r)
  | c_parent_id => comments.parent_id r
  | _ => None
  end.

Definition scan (db : database) (t : table) : list tuple :=
  match t with
  | Tprofiles => map profile_tuple (tbl_profiles db)
  | Tprojects => map project_tuple (tbl_projects db)
  | Tproject_members => map member_tuple (tbl_project_members db)
  | Ttickets => map ticket_tuple (tbl_tickets db)
  | Tcomments => map comment_tuple (tbl_comments db)
  end.

(** ** The resolver

    [CREATE FUNCTION public.get_user_project_ids(user_uuid) ... SECURITY
    DEFINER]: a flat [UNION] of the caller's membership rows and owned
    projects.  It reads the two tables directly, with no row filter.
    [UNION] removes duplicates. *)

Definition get_user_project_ids (db : database) (user_uuid : uuid) : list uuid :=
  nodup Nat.eq_dec
    (map project_members.project_id
       (filter (fun pm => project_members.user_id pm =? user_uuid)
               (tbl_project_members db))
     ++
     map projects.id
       (filter (fun p => projects.owner_id p =? user_uuid)
               (tbl_projects db))).

(** ** Policy language *)

(** The expressions that occur in [USING] and [WITH CHECK] clauses. *)
Inductive sexpr :=
  | ETrue                                   (* true *)
  | EUidEq (c : column)                     (* auth.uid() = c *)
  | EInSelect (c out : column) (t : table) (w : sexpr)
                                            (* c IN (SELECT out FROM t WHERE w) *)
  | EInUserProjectIds (c : column)          (* c IN (SELECT get_user_project_ids()) *)
  | EOr (a b : sexpr)
  | EAnd (a b : sexpr).

Inductive command := FOR_SELECT | FOR_INSERT | FOR_UPDATE | FOR_DELETE | FOR_ALL.

Record policy := mkpolicy {
  pol_name : string;
  pol_table : table;
  pol_for : command;
  pol_using : option sexpr;
  pol_check : option sexpr
}.

Definition catalog := list policy.

Definition table_eqb (a b : table) : bool :=
  match a, b with
  | Tprofiles, Tprofiles | Tprojects, Tprojects
  | Tproject_members, Tproject_members
  | Ttickets, Ttickets | Tcomments, Tcomments => true
  | _, _ => false
  end.

Definition command_eqb (a b : command) : bool :=
  match a, b with
  | FOR_SELECT, FOR_SELECT | FOR_INSERT, FOR_INSERT | FOR_UPDATE, FOR_UPDATE
  | FOR_DELETE, FOR_DELETE | FOR_ALL, FOR_ALL => true
  | _, _ => false
  end.

(** Migration statements that touch the policy catalog. *)
Inductive stmt :=
  | CREATE_POLICY (p : policy)
  | DROP_POLICY_IF_EXISTS (name : string) (t : table).

Definition names (name : string) (t : table) (p : policy) : bool :=
  String.eqb (pol_name p) name && table_eqb (pol_table p) t.

(** [CREATE POLICY] fails when the table already has a policy of that name. *)
Definition exec (cat : catalog) (s : stmt) : option catalog :=
  match s with
  | CREATE_POLICY p =>
      if existsb (names (pol_name p) (pol_table p)) cat then None
      else Some (cat ++ [p])
  | DROP_POLICY_IF_EXISTS n t =>
      Some (filter (fun p => negb (names n t p)) cat)
  end.

Fixpoint migrate (cat : catalog) (ss : list stmt) : option catalog :=
  match ss with
  | [] => Some cat
  | s :: ss' =>
      match exec cat s with
      | Some cat' => migrate cat' ss'
      | None => None
      end
  end.

(** ** The migrations, in the order they are applied *)

Definition members_of_caller : sexpr :=
  (* SELECT project_id FROM public.project_members WHERE user_id = auth.uid() *)
  EUidEq c_user_id.

Definition owned_by_caller : sexpr :=
  (* SELECT id FROM public.projects WHERE owner_id = auth.uid() *)
  EUidEq c_owner_id.

(** The initial schema migration: the [CREATE POLICY] statements. *)
Definition migration_initial : list stmt :=
  [ CREATE_POLICY (mkpolicy "Users can view all profiles" Tprofiles FOR_SELECT
      (Some ETrue) None);
    CREATE_POLICY (mkpolicy "Users can update own profile" Tprofiles FOR_UPDATE
      (Some (EUidEq c_id)) None);
    CREATE_POLICY (mkpolicy "Users can insert own profile" Tprofiles FOR_INSERT
      None (Some (EUidEq c_id)));

    CREATE_POLICY (mkpolicy "Users can view projects they're members of"
      Tprojects FOR_SELECT
      (Some (EOr (EInSelect c_id c_project_id Tproject_members members_of_caller)
                 (EUidEq c_owner_id))) None);
    CREATE_POLICY (mkpolicy "Users can create projects" Tprojects FOR_INSERT
      None (Some (EUidEq c_owner_id)));
    CREATE_POLICY (mkpolicy "Project owners can update projects" Tprojects FOR_UPDATE
      (Some (EUidEq c_owner_id)) None);
    CREATE_POLICY (mkpolicy "Project owners can delete projects" Tprojects FOR_DELETE
      (Some (EUidEq c_owner_id)) None);

    CREATE_POLICY (mkpolicy "Users can view project members of projects they're in"
      Tproject_members FOR_SELECT
      (Some (EInSelect c_project_id c_project_id Tproject_members members_of_caller))
      None);
    CREATE_POLICY (mkpolicy "Project owners can manage members"
      Tproject_members FOR_ALL
      (Some (EInSelect c_project_id c_id Tprojects owned_by_caller)) None);
    CREATE_POLICY (mkpolicy "Users can join projects they're invited to"
      Tproject_members FOR_INSERT
      None (Some (EUidEq c_user_id)));

    CREATE_POLICY (mkpolicy "Users can view tickets in their projects"
      Ttickets FOR_SELECT
      (Some (EInSelect c_project_id c_project_id Tproject_members members_of_caller))
      None);
    CREATE_POLICY (mkpolicy "Project members can create tickets"
      Ttickets FOR_INSERT
      None
      (Some (EAnd (EInSelect c_project_id c_project_id Tproject_members
                     members_of_caller)
                  (EUidEq c_reporter_id))));
    CREATE_POLICY (mkpolicy "Assignees and project owners can update tickets"
      Ttickets FOR_UPDATE
      (Some (EOr (EUidEq c_assignee_id)
                 (EInSelect c_project_id c_id Tprojects owned_by_caller)))
      None);
    CREATE_POLICY (mkpolicy "Project owners can delete tickets"
      Ttickets FOR_DELETE
      (Some (EInSelect c_project_id c_id Tprojects owned_by_caller)) None);

    CREATE_POLICY (mkpolicy "Users can view comments on tickets they can see"
      Tcomments FOR_SELECT
      (Some (EInSelect c_ticket_id c_id Ttickets
               (EInSelect c_project_id c_project_id Tproject_members
                  members_of_caller)))
      None);
    CREATE_POLICY (mkpolicy "Project members can create comments"
      Tcomments FOR_INSERT
      None
      (Some (EAnd (EInSelect c_ticket_id c_id Ttickets
                     (EInSelect c_project_id c_project_id Tproject_members
                        members_of_caller))
                  (EUidEq c_author_id))));
    CREATE_POLICY (mkpolicy "Comment authors can update their comments"
      Tcomments FOR_UPDATE (Some (EUidEq c_author_id)) None);
    CREATE_POLICY (mkpolicy "Comment authors can delete their comments"
      Tcomments FOR_DELETE (Some (EUidEq c_author_id)) None) ].

(** The migration that introduces [get_user_project_ids] and re-creates the
    two policies of [project_members]. *)
Definition migration_resolver : list stmt :=
  [ DROP_POLICY_IF_EXISTS "Users can view project members of projects they're in"
      Tproject_members;
    CREATE_POLICY (mkpolicy "Users can view project members of projects they're in"
      Tproject_members FOR_SELECT
      (Some (EInUserProjectIds c_project_id)) None);
    DROP_POLICY_IF_EXISTS "Project owners can manage members" Tproject_members;
    CREATE_POLICY (mkpolicy "Project owners can manage members"
      Tproject_members FOR_ALL
      (Some (EInSelect c_project_id c_id Tprojects owned_by_caller)) None) ].

(** Migration 20250626162240: project policies and the ticket read policy. *)
Definition migration_20250626162240 : list stmt :=
  [ DROP_POLICY_IF_EXISTS "Users can view projects they're members of" Tprojects;
    DROP_POLICY_IF_EXISTS "Users can view their projects" Tprojects;
    DROP_POLICY_IF_EXISTS "Users can create projects" Tprojects;
    DROP_POLICY_IF_EXISTS "Project owners can update projects" Tprojects;
    DROP_POLICY_IF_EXISTS "Project owners can delete projects" Tprojects;
    CREATE_POLICY (mkpolicy "Users can view their projects" Tprojects FOR_SELECT
      (Some (EOr (EInUserProjectIds c_id) (EUidEq c_owner_id))) None);
    CREATE_POLICY (mkpolicy "Users can create projects" Tprojects FOR_INSERT
      None (Some (EUidEq c_owner_id)));
    CREATE_POLICY (mkpolicy "Project owners can update projects" Tprojects FOR_UPDATE
      (Some (EUidEq c_owner_id)) None);
    CREATE_POLICY (mkpolicy "Project owners can delete projects" Tprojects FOR_DELETE
      (Some (EUidEq c_owner_id)) None);
    DROP_POLICY_IF_EXISTS "Users can view tickets in their projects" Ttickets;
    CREATE_POLICY (mkpolicy "Users can view tickets in their projects"
      Ttickets FOR_SELECT
      (Some (EInUserProjectIds c_project_id)) None) ].

Definition from_some (o : option catalog) : catalog :=
  match o with Some c => c | None => [] end.

(** The catalog as first deployed, and the catalog after all migrations. *)
Definition initial_catalog : catalog :=
  Eval vm_compute in from_some (migrate [] migration_initial).

Definition current_catalog : catalog :=
  Eval vm_compute in
    from_some (migrate [] (migration_initial ++ migration_resolver
                                             ++ migration_20250626162240)).

(** ** Policy rewriting

    Before a statement runs, the store adds to every table it reads the
    disjunction of that table's [SELECT] policies; a policy that reads a
    table itself gets that table's policies added, and so on.  [rewrite n]
    inlines policies to nesting depth [n]; it finds no answer when the
    nesting does not bottom out within [n] levels.  The resolver call is
    opaque to the rewriter: it is a SECURITY DEFINER function. *)

Inductive xexpr :=
  | XTrue
  | XFalse
  | XUidEq (c : column)
  | XInSelect (c out : column) (t : table) (qual w : xexpr)
  | XInUserProjectIds (c : column)
  | XOr (a b : xexpr)
  | XAnd (a b : xexpr).

Definition applies (cmd : command) (t : table) (p : policy) : bool :=
  table_eqb (pol_table p) t
  && (command_eqb (pol_for p) cmd || command_eqb (pol_for p) FOR_ALL).

(** The [USING] expressions that apply to [cmd] on [t]. *)
Definition usings (cat : catalog) (cmd : command) (t : table) : list sexpr :=
  flat_map (fun p => match pol_using p with Some e => [e] | None => [] end)
           (filter (applies cmd t) cat).

(** The [WITH CHECK] expressions; a policy without one checks new rows with
    its [USING] expression. *)
Definition checks (cat : catalog) (cmd : command) (t : table) : list sexpr :=
  flat_map (fun p => match pol_check p with
                     | Some e => [e]
                     | None => match pol_using p with Some e => [e] | None => [] end
                     end)
           (filter (applies cmd t) cat).

(** Permissive policies are OR-ed; no policy at all denies. *)
Fixpoint disjunction (l : list (option xexpr)) : option xexpr :=
  match l with
  | [] => Some XFalse
  | None :: _ => None
  | Some x :: l' =>
      match disjunction l' with
      | Some y => Some (XOr x y)
      | None => None
      end
  end.

Fixpoint rewrite (n : nat) (cat : catalog) (e : sexpr) {struct n} : option xexpr :=
  (fix rw (e : sexpr) : option xexpr :=
     match e with
     | ETrue => Some XTrue
     | EUidEq c => Some (XUidEq c)
     | EInSelect c out t w =>
         match n with
         | 0 => None
         | S n' =>
             match disjunction (map (rewrite n' cat) (usings cat FOR_SELECT t)), rw w with
             | Some q, Some w' => Some (XInSelect c out t q w')
             | _, _ => None
             end
         end
     | EInUserProjectIds c => Some (XInUserProjectIds c)
     | EOr a b =>
         match rw a, rw b with
         | Some a', Some b' => Some (XOr a' b')
         | _, _ => None
         end
     | EAnd a b =>
         match rw a, rw b with
         | Some a', Some b' => Some (XAnd a' b')
         | _, _ => None
         end
     end) e.

(** The row filter for existing rows, and the check for new rows. *)
Definition using_qual (n : nat) (cat : catalog) (cmd : command) (t : table)
  : option xexpr :=
  disjunction (map (rewrite n cat) (usings cat cmd t)).

Definition check_qual (n : nat) (cat : catalog) (cmd : command) (t : table)
  : option xexpr :=
  disjunction (map (rewrite n cat) (checks cat cmd t)).

(** ** Policy evaluation

    [auth.uid()] is [uid].  A comparison with NULL is not true; the policy
    language has no negation, so "not true" can be read as false. *)

Definition opt_is (o : option uuid) (v : uuid) : bool :=
  match o with Some x => x =? v | None => false end.

Fixpoint eval (db : database) (uid : uuid) (x : xexpr) (r : tuple) : bool :=
  match x with
  | XTrue => true
  | XFalse => false
  | XUidEq c => opt_is (r c) uid
  | XInSelect c out t qual w =>
      match r c with
      | None => false
      | Some v =>
          existsb (fun r' => eval db uid qual r' && eval db uid w r' && opt_is (r' out) v)
                  (scan db t)
      end
  | XInUserProjectIds c =>
      match r c with
      | None => false
      | Some v => existsb (Nat.eqb v) (get_user_project_ids db uid)
      end
  | XOr a b => eval db uid a r || eval db uid b r
  | XAnd a b => eval db uid a r && eval db uid b r
  end.

(** ** Store statements

    What the store answers to the statements the client sends through the
    REST interface, under the policies of a catalog. *)

Inductive error :=
  | insufficient_privilege                    (* 42501, row-level security *)
  | unique_violation (constraint : string)    (* 23505 *)
  | foreign_key_violation (constraint : string) (* 23503 *)
  | infinite_recursion.                       (* 42P17, recursion in a policy *)

Inductive result (A : Type) :=
  | Ok (a : A)
  | Err (e : error).

Arguments Ok {A} a.
Arguments Err {A} e.

(** There are five tables: a nesting of policies deeper than that reads some
    table under its own filter again. *)
Definition max_nesting : nat := 5.

(** The decision of the policies of [cat] for command [cmd] on an existing
    row of [t] ([permits]) and on a new row ([admits]).  No answer when the
    policies recurse. *)
Definition permits (cat : catalog) (cmd : command) (t : table)
  (db : database) (uid : uuid) (r : tuple) : option bool :=
  option_map (fun x => eval db uid x r) (using_qual max_nesting cat cmd t).

Definition admits (cat : catalog) (cmd : command) (t : table)
  (db : database) (uid : uuid) (r : tuple) : option bool :=
  option_map (fun x => eval db uid x r) (check_qual max_nesting cat cmd t).

(** [SELECT * FROM t]: the rows that pass the read policies. *)
Definition select_rows {R : Type} (cat : catalog) (t : table) (as_tuple : R -> tuple)
  (db : database) (uid : uuid) (rows : list R) : result (list R) :=
  match using_qual max_nesting cat FOR_SELECT t with
  | None => Err infinite_recursion
  | Some q => Ok (filter (fun r => eval db uid q (as_tuple r)) rows)
  end.

Definition with_tickets (db : database) (l : list tickets.row) : database :=
  mkdb (tbl_profiles db) (tbl_projects db) (tbl_project_members db) l (tbl_comments db).

Definition with_comments (db : database) (l : list comments.row) : database :=
  mkdb (tbl_profiles db) (tbl_projects db) (tbl_project_members db) (tbl_tickets db) l.

Definition with_project_members (db : database) (l : list project_members.row)
  : database :=
  mkdb (tbl_profiles db) (tbl_projects db) l (tbl_tickets db) (tbl_comments db).

Definition with_projects (db : database) (l : list projects.row) : database :=
  mkdb (tbl_profiles db) l (tbl_project_members db) (tbl_tickets db) (tbl_comments db).

Definition has_profile (db : database) (u : uuid) : bool :=
  existsb (fun p => profiles.id p =? u) (tbl_profiles db).

Definition has_project (db : database) (p : uuid) : bool :=
  existsb (fun r => projects.id r =? p) (tbl_projects db).

Definition has_ticket (db : database) (t : uuid) : bool :=
  existsb (fun r => tickets.id r =? t) (tbl_tickets db).

(** *** UPDATE public.tickets SET ... WHERE id = target *)

(** The columns an update may set: the ones the client sets, and
    [project_id].  [None] leaves the column as it is. *)
Record ticket_patch := mkpatch {
  set_title : option string;
  set_description : option (option string);
  set_type : option ticket_type;
  set_priority : option ticket_priority;
  set_status : option ticket_status;
  set_assignee_id : option (option uuid);
  set_project_id : option uuid
}.

Definition or_keep {A : Type} (o : option A) (old : A) : A :=
  match o with Some v => v | None => old end.

Definition patch_ticket (p : ticket_patch) (r : tickets.row) : tickets.row :=
  tickets.mk (tickets.id r)
    (or_keep (set_title p) (tickets.title r))
    (or_keep (set_description p) (tickets.description r))
    (or_keep (set_type p) (tickets.type r))
    (or_keep (set_priority p) (tickets.priority r))
    (or_keep (set_status p) (tickets.status r))
    (or_keep (set_project_id p) (tickets.project_id r))
    (tickets.reporter_id r)
    (or_keep (set_assignee_id p) (tickets.assignee_id r))
    (tickets.attachment_url r)
    (tickets.created_at r).

Definition opt_uuid_eqb (a b : option uuid) : bool :=
  match a, b with
  | Some x, Some y => x =? y
  | None, None => true
  | _, _ => false
  end.

(** Foreign keys are re-checked for the columns whose value changed:
    [project_id] references [projects], [assignee_id] references [profiles]
    (constraint [fk_tickets_assignee_id]); a NULL reference is fine. *)
Definition ticket_fk_error (db : database) (old new : tickets.row) : option error :=
  if negb (tickets.project_id old =? tickets.project_id new)
     && negb (has_project db (tickets.project_id new))
  then Some (foreign_key_violation "tickets_project_id_fkey")
  else if negb (opt_uuid_eqb (tickets.assignee_id old) (tickets.assignee_id new))
          && match tickets.assignee_id new with
             | Some a => negb (has_profile db a)
             | None => false
             end
  then Some (foreign_key_violation "fk_tickets_assignee_id")
  else None.

Fixpoint first_error {A : Type} (f : A -> option error) (l : list A) : option error :=
  match l with
  | [] => None
  | x :: l' => match f x with Some e => Some e | None => first_error f l' end
  end.

(** The statement filters on a column, so the rows it touches must pass the
    read policies as well as the update policies; rows that do not are
    skipped silently.  Each new row must pass the update check (the [USING]
    expression, no [WITH CHECK] being declared) and the read policies, or the
    whole statement fails. *)
Definition update_tickets (cat : catalog) (db : database) (uid : uuid)
  (target : uuid) (p : ticket_patch) : result database :=
  match using_qual max_nesting cat FOR_SELECT Ttickets,
        using_qual max_nesting cat FOR_UPDATE Ttickets,
        check_qual max_nesting cat FOR_UPDATE Ttickets with
  | Some qs, Some qu, Some qc =>
      let hit r := (tickets.id r =? target)
                   && eval db uid qs (ticket_tuple r)
                   && eval db uid qu (ticket_tuple r) in
      let new r := if hit r then patch_ticket p r else r in
      if forallb (fun r => negb (hit r)
                           || (eval db uid qc (ticket_tuple (new r))
                               && eval db uid qs (ticket_tuple (new r))))
                 (tbl_tickets db)
      then match first_error (fun r => if hit r then ticket_fk_error db r (new r)
                                       else None) (tbl_tickets db) with
           | Some e => Err e
           | None => Ok (with_tickets db (map new (tbl_tickets db)))
           end
      else Err insufficient_privilege
  | _, _, _ => Err infinite_recursion
  end.

(** *** INSERT INTO public.comments

    [new_id] and [now] stand for the column defaults [gen_random_uuid()] and
    [NOW()].  The row check comes first, then the primary key, then the
    foreign keys. *)
Definition insert_comment (cat : catalog) (db : database) (uid : uuid)
  (new_id : uuid) (now : timestamptz)
  (content : string) (ticket_id author_id : uuid) (parent_id : option uuid)
  : result database :=
  let row := comments.mk new_id content ticket_id author_id parent_id now in
  match check_qual max_nesting cat FOR_INSERT Tcomments with
  | None => Err infinite_recursion
  | Some qc =>
      if negb (eval db uid qc (comment_tuple row)) then Err insufficient_privilege
      else if existsb (fun c => comments.id c =? new_id) (tbl_comments db)
      then Err (unique_violation "comments_pkey")
      else if negb (has_ticket db ticket_id)
      then Err (foreign_key_violation "comments_ticket_id_fkey")
      else if negb (has_profile db author_id)
      then Err (foreign_key_violation "fk_comments_author_id")
      else if match parent_id with
              | Some p => negb (existsb (fun c => comments.id c =? p) (tbl_comments db))
              | None => false
              end
      then Err (foreign_key_violation "comments_parent_id_fkey")
      else Ok (with_comments db (tbl_comments db ++ [row]))
  end.

(** The users of the identity service are no table of this store.  What
    the store shows of them: the caller is one, and so is every id with a
    profile, [profiles.id] being a reference to them. *)
Definition known_user (db : database) (uid u : uuid) : bool :=
  (u =? uid) || has_profile db u.

(** *** INSERT INTO public.project_members

    The row must pass the insert rule, the two keys, and the references of
    [project_id], of [invited_by] (to a user of the identity service, where
    one is named) and of [user_id] (to a profile). *)
Definition insert_project_member (cat : catalog) (db : database) (uid : uuid)
  (new_id : uuid) (now : timestamptz)
  (project_id user_id : uuid) (role : user_role) (invited_by : option uuid)
  : result database :=
  let row := project_members.mk new_id project_id user_id role invited_by now in
  match check_qual max_nesting cat FOR_INSERT Tproject_members with
  | None => Err infinite_recursion
  | Some qc =>
      if negb (eval db uid qc (member_tuple row)) then Err insufficient_privilege
      else if existsb (fun m => project_members.id m =? new_id) (tbl_project_members db)
      then Err (unique_violation "project_members_pkey")
      else if existsb (fun m => (project_members.project_id m =? project_id)
                                && (project_members.user_id m =? user_id))
                      (tbl_project_members db)
      then Err (unique_violation "project_members_project_id_user_id_key")
      else if negb (has_project db project_id)
      then Err (foreign_key_violation "project_members_project_id_fkey")
      else if match invited_by with
              | Some i => negb (known_user db uid i)
              | None => false
              end
      then Err (foreign_key_violation "project_members_invited_by_fkey")
      else if negb (has_profile db user_id)
      then Err (foreign_key_violation "fk_project_members_user_id")
      else Ok (with_project_members db (tbl_project_members db ++ [row]))
  end.

(** *** DELETE FROM public.profiles WHERE id = u

    Run with the rights of the table owner (no client policy allows it).
    The referential actions are those of the schema: membership rows of the
    user go (fk_project_members_user_id, CASCADE); tickets the user reported
    go (fk_tickets_reporter_id, CASCADE) and with them their comments
    (comments.ticket_id, CASCADE); comments the user wrote go
    (fk_comments_author_id, CASCADE); tickets assigned to the user stay with
    a NULL assignee (fk_tickets_assignee_id, SET NULL).  [comments.parent_id]
    declares no action: a surviving reply to a removed comment makes the
    statement fail. *)
Definition unassign (u : uuid) (t : tickets.row) : tickets.row :=
  if opt_is (tickets.assignee_id t) u
  then tickets.mk (tickets.id t) (tickets.title t) (tickets.description t)
         (tickets.type t) (tickets.priority t) (tickets.status t)
         (tickets.project_id t) (tickets.reporter_id t) None
         (tickets.attachment_url t) (tickets.created_at t)
  else t.

(** The tickets and comments the cascade removes. *)
Definition ticket_goes (u : uuid) (t : tickets.row) : bool :=
  tickets.reporter_id t =? u.

Definition comment_goes (db : database) (u : uuid) (c : comments.row) : bool :=
  (comments.author_id c =? u)
  || existsb (fun t => (tickets.id t =? comments.ticket_id c) && ticket_goes u t)
             (tbl_tickets db).

(** A comment that stays while the comment it replies to goes. *)
Definition orphaned_reply (db : database) (u : uuid) (c : comments.row) : bool :=
  negb (comment_goes db u c)
  && match comments.parent_id c with
     | Some p => existsb (fun c' => (comments.id c' =? p) && comment_goes db u c')
                         (tbl_comments db)
     | None => false
     end.

Definition delete_profile (db : database) (u : uuid) : result database :=
  if existsb (orphaned_reply db u) (tbl_comments db)
  then Err (foreign_key_violation "comments_parent_id_fkey")
  else Ok (mkdb (filter (fun p => negb (profiles.id p =? u)) (tbl_profiles db))
                (tbl_projects db)
                (filter (fun m => negb (project_members.user_id m =? u))
                        (tbl_project_members db))
                (map (unassign u)
                     (filter (fun t => negb (ticket_goes u t)) (tbl_tickets db)))
                (filter (fun c => negb (comment_goes db u c)) (tbl_comments db))).

(** ** The client *)

Inductive toast :=
  | toast_success (description : string)
  | toast_error (description : string).

Definition status_eqb (a b : ticket_status) : bool :=
  match a, b with
  | todo, todo | in_progress, in_progress | done, done => true
  | _, _ => false
  end.

(** *** KanbanBoard.tsx *)

(** Each column of the board is a drop area whose identifier is a status. *)
Record DropResult := mkdrop {
  destination : option (ticket_status * nat);
  source : ticket_status * nat;
  draggableId : uuid
}.

Definition status_payload (newStatus : ticket_status) : ticket_patch :=
  mkpatch None None None None (Some newStatus) None None.

Definition with_status (t : tickets.row) (s : ticket_status) : tickets.row :=
  patch_ticket (status_payload s) t.

(** [handleDragEnd]: the store after the drop, the tickets held by the
    component, and the toast shown.  A drop outside any column, or back to
    the place the card came from, does nothing. *)
Definition handleDragEnd (cat : catalog) (db : database) (uid : uuid)
  (board : list tickets.row) (result : DropResult)
  : database * list tickets.row * option toast :=
  match destination result with
  | None => (db, board, None)
  | Some (droppableId, index) =>
      if status_eqb droppableId (fst (source result)) && (index =? snd (source result))
      then (db, board, None)
      else
        let newStatus := droppableId in
        match update_tickets cat db uid (draggableId result) (status_payload newStatus) with
        | Ok db' =>
            (db',
             map (fun ticket => if tickets.id ticket =? draggableId result
                                then with_status ticket newStatus else ticket) board,
             Some (toast_success "Ticket status updated successfully"))
        | Err _ => (db, board, Some (toast_error "Failed to update ticket status"))
        end
  end.

(** *** TicketDialog.tsx *)

(** The form state [editedTicket]; an empty assignee field is [None]. *)
Record EditedTicket := mkedited {
  ed_title : string;
  ed_description : option string;
  ed_type : ticket_type;
  ed_priority : ticket_priority;
  ed_status : ticket_status;
  ed_assignee_id : option uuid
}.

Definition edit_payload (e : EditedTicket) : ticket_patch :=
  mkpatch (Some (ed_title e)) (Some (ed_description e)) (Some (ed_type e))
          (Some (ed_priority e)) (Some (ed_status e)) (Some (ed_assignee_id e)) None.

(** [handleUpdateTicket]: nothing happens without a signed-in user. *)
Definition handleUpdateTicket (cat : catalog) (db : database) (user : option uuid)
  (ticket_id : uuid) (editedTicket : EditedTicket) : database * option toast :=
  match user with
  | None => (db, None)
  | Some uid =>
      match update_tickets cat db uid ticket_id (edit_payload editedTicket) with
      | Ok db' => (db', Some (toast_success "Ticket updated successfully!"))
      | Err _ => (db, Some (toast_error "Failed to update ticket"))
      end
  end.

(** The handlers call two methods of the JavaScript engine's strings,
    [String.prototype.trim] and [String.prototype.toLowerCase].  Which
    characters count as white space and which letters have a lower case is
    the engine's to say, over all of Unicode; the handlers take the engine
    as an argument, and what is proved of them holds for every engine. *)
Class engine := mkengine {
  trim : string -> string;
  toLowerCase : string -> string
}.

(** [!s.trim()]: nothing is left of [s] once it is trimmed. *)
Definition blank {js : engine} (s : string) : bool :=
  String.eqb (trim s) "".

(** [handleAddComment]: [!user || !newComment.trim()] returns at once; the
    content sent is the text as typed. *)
Definition handleAddComment {js : engine} (cat : catalog) (db : database) (user : option uuid)
  (ticket_id : uuid) (newComment : string) (new_id : uuid) (now : timestamptz)
  : database * option toast :=
  match user with
  | None => (db, None)
  | Some uid =>
      if blank newComment then (db, None)
      else
        match insert_comment cat db uid new_id now newComment ticket_id uid None with
        | Ok db' => (db', Some (toast_success "Comment added successfully!"))
        | Err _ => (db, Some (toast_error "Failed to add comment"))
        end
  end.

(** [.order('created_at', { ascending: true })]: the sort key is the
    creation time alone; rows with equal keys keep the order the scan
    delivers them in. *)
Fixpoint insert_by_created_at (c : comments.row) (l : list comments.row)
  : list comments.row :=
  match l with
  | [] => [c]
  | x :: l' =>
      if (comments.created_at c <=? comments.created_at x)%Z
      then c :: l
      else x :: insert_by_created_at c l'
  end.

Definition order_by_created_at (l : list comments.row) : list comments.row :=
  fold_right insert_by_created_at [] l.

(** The query of [fetchComments]:
    [from('comments').select(...).eq('ticket_id', id).order('created_at')]. *)
Definition query_comments (cat : catalog) (db : database) (uid : uuid)
  (ticket_id : uuid) : result (list comments.row) :=
  match select_rows cat Tcomments comment_tuple db uid (tbl_comments db) with
  | Ok rows =>
      Ok (order_by_created_at
            (filter (fun c => comments.ticket_id c =? ticket_id) rows))
  | Err e => Err e
  end.

(** [fetchComments]: the new value of the component's [comments]; an error
    is logged and the state stays. *)
Definition fetchComments (cat : catalog) (db : database) (uid : uuid)
  (ticket_id : uuid) (comments : list comments.row) : list comments.row :=
  match query_comments cat db uid ticket_id with
  | Ok data => data
  | Err _ => comments
  end.

(** *** ProjectSettings *)

(** [.single()] yields the row when the answer has exactly one. *)
Definition single {A : Type} (l : list A) : option A :=
  match l with
  | [x] => Some x
  | _ => None
  end.

Definition opt_string_is (o : option string) (s : string) : bool :=
  match o with Some x => String.eqb x s | None => false end.

(** [inviteMember].  [project] is the component's property, [user] the
    signed-in user, [inviteEmail] and [inviteRole] the form fields. *)
Definition inviteMember (cat : catalog) (db : database) (user : option uuid)
  (project : projects.row) (inviteEmail : string) (inviteRole : user_role)
  (new_id : uuid) (now : timestamptz) : database * option toast :=
  let isOwner := match user with
                 | Some u => u =? projects.owner_id project
                 | None => false
                 end in
  match user with
  | None => (db, None)
  | Some uid =>
  if negb isOwner || String.eqb inviteEmail "" then (db, None)
  else
    match select_rows cat Tprofiles profile_tuple db uid (tbl_profiles db) with
    | Err _ => (db, Some (toast_error "User not found with that email/username"))
    | Ok profs =>
    match single (filter (fun p => opt_string_is (profiles.username p) inviteEmail) profs) with
    | None => (db, Some (toast_error "User not found with that email/username"))
    | Some userData =>
        let existingMember :=
          match select_rows cat Tproject_members member_tuple db uid
                  (tbl_project_members db) with
          | Ok ms =>
              single (filter (fun m => (project_members.project_id m =? projects.id project)
                                       && (project_members.user_id m =? profiles.id userData))
                             ms)
          | Err _ => None
          end in
        match existingMember with
        | Some _ => (db, Some (toast_error "User is already a member of this project"))
        | None =>
            match insert_project_member cat db uid new_id now (projects.id project)
                    (profiles.id userData) inviteRole (Some uid) with
            | Ok db' => (db', Some (toast_success "Member invited successfully!"))
            | Err _ => (db, Some (toast_error "Failed to invite member"))
            end
        end
    end
    end
  end.

(** *** Sequences of client updates *)

Inductive client_update :=
  | DragEnd (uid : uuid) (board : list tickets.row) (result : DropResult)
  | UpdateTicket (user : option uuid) (ticket_id : uuid) (editedTicket : EditedTicket)
  | AddComment (user : option uuid) (ticket_id : uuid) (newComment : string)
               (new_id : uuid) (now : timestamptz).

Definition step {js : engine} (cat : catalog) (db : database) (op : client_update)
  : database :=
  match op with
  | DragEnd uid board result => fst (fst (handleDragEnd cat db uid board result))
  | UpdateTicket user ticket_id e => fst (handleUpdateTicket cat db user ticket_id e)
  | AddComment user ticket_id s new_id now =>
      fst (handleAddComment cat db user ticket_id s new_id now)
  end.

Definition run {js : engine} (cat : catalog) (db : database)
  (ops : list client_update) : database :=
  fold_left (step cat) ops db.

(** ** Vocabulary of the properties *)

(** [u] owns project [p]: a project row [p] with [owner_id = u]. *)
Definition owns (db : database) (u p : uuid) : Prop :=
  exists r, In r (tbl_projects db) /\ projects.id r = p /\ projects.owner_id r = u.

(** A membership row for the pair ([p], [u]). *)
Definition member (db : database) (u p : uuid) : Prop :=
  exists m, In m (tbl_project_members db)
            /\ project_members.project_id m = p /\ project_members.user_id m = u.

(** [AccessibleProjects(u)] is what the resolver returns. *)
Definition accessible (db : database) (u p : uuid) : Prop :=
  In p (get_user_project_ids db u).

(** The decisions of the deployed policies, per entity and operation. *)
Definition can_read_project (db : database) (uid : uuid) (p : projects.row) :=
  permits current_catalog FOR_SELECT Tprojects db uid (project_tuple p).

Definition can_read_member (db : database) (uid : uuid) (m : project_members.row) :=
  permits current_catalog FOR_SELECT Tproject_members db uid (member_tuple m).

Definition can_create_member (db : database) (uid : uuid) (m : project_members.row) :=
  admits current_catalog FOR_INSERT Tproject_members db uid (member_tuple m).

Definition can_read_ticket (db : database) (uid : uuid) (t : tickets.row) :=
  permits current_catalog FOR_SELECT Ttickets db uid (ticket_tuple t).

Definition can_create_ticket (db : database) (uid : uuid) (t : tickets.row) :=
  admits current_catalog FOR_INSERT Ttickets db uid (ticket_tuple t).

Definition can_update_ticket (db : database) (uid : uuid) (t : tickets.row) :=
  permits current_catalog FOR_UPDATE Ttickets db uid (ticket_tuple t).

Definition can_read_comment (db : database) (uid : uuid) (c : comments.row) :=
  permits current_catalog FOR_SELECT Tcomments db uid (comment_tuple c).

Definition can_create_comment (db : database) (uid : uuid) (c : comments.row) :=
  admits current_catalog FOR_INSERT Tcomments db uid (comment_tuple c).

(** The tables a rewritten policy reads under their row filters. *)
Fixpoint xtables (x : xexpr) : list table :=
  match x with
  | XInSelect _ _ t q w => t :: xtables q ++ xtables w
  | XOr a b | XAnd a b => xtables a ++ xtables b
  | _ => []
  end.

(** [PRIMARY KEY (id)] of [tickets]. *)
Definition tickets_pkey (db : database) : Prop :=
  NoDup (map tickets.id (tbl_tickets db)).

(** [UNIQUE(project_id, user_id)] of [project_members]. *)
Definition members_unique (db : database) : Prop :=
  NoDup (map (fun m => (project_members.project_id m, project_members.user_id m))
             (tbl_project_members db)).

(** Creation time first, identifier second. *)
Definition by_time_then_id (a b : comments.row) : Prop :=
  (comments.created_at a < comments.created_at b)%Z
  \/ (comments.created_at a = comments.created_at b /\ comments.id a <= comments.id b).

Definition by_time (a b : comments.row) : Prop :=
  (comments.created_at a <= comments.created_at b)%Z.

(** A decision read as a filter: only a definite allow lets a row through. *)
Definition allowed (o : option bool) : bool :=
  match o with Some true => true | _ => false end.

(** What the claims call a ticket's and a comment's references. *)
Definition ticket_reference (t : tickets.row) : uuid * uuid :=
  (tickets.id t, tickets.project_id t).

Definition comment_reference (c : comments.row) : uuid * uuid :=
  (comments.id c, comments.ticket_id c).

(** ** Sample stores *)

(** An engine for the sample stores, whose text is 7-bit: white space is the
    characters 9 to 13 and 32, the capital letters are A to Z. *)
Definition is_white (a : Ascii.ascii) : bool :=
  let n := Ascii.nat_of_ascii a in
  (n =? 32) || ((9 <=? n) && (n <=? 13)).

Fixpoint ltrim (l : list Ascii.ascii) : list Ascii.ascii :=
  match l with
  | [] => []
  | a :: l' => if is_white a then ltrim l' else l
  end.

Definition ascii_trim (s : string) : string :=
  string_of_list_ascii (rev (ltrim (rev (ltrim (list_ascii_of_string s))))).

Definition lower (a : Ascii.ascii) : Ascii.ascii :=
  let n := Ascii.nat_of_ascii a in
  if (65 <=? n) && (n <=? 90) then Ascii.ascii_of_nat (n + 32) else a.

Fixpoint ascii_toLowerCase (s : string) : string :=
  match s with
  | EmptyString => EmptyString
  | String a s' => String (lower a) (ascii_toLowerCase s')
  end.

Definition sample_engine : engine := mkengine ascii_trim ascii_toLowerCase.

Definition alice : uuid := 1.
Definition bob : uuid := 2.
Definition carol : uuid := 3.

Definition sample_profiles : list profiles.row :=
  [ profiles.mk alice (Some "alice"%string) (Some "Alice"%string);
    profiles.mk bob (Some "bob"%string) (Some "Bob"%string);
    profiles.mk carol (Some "carol"%string) None ].

(** Alice owns projects 10 and 11 and holds no membership row; Bob is a
    developer in project 10.  Ticket 100, in project 10, was reported by Bob
    and is assigned to Bob; it has two comments written at the same instant. *)
Definition ticket100 : tickets.row :=
  tickets.mk 100 "Checkout fails" None bug medium todo 10 bob (Some bob) None 50%Z.

Definition comment201 : comments.row := comments.mk 201 "first" 100 bob None 70%Z.
Definition comment200 : comments.row := comments.mk 200 "second" 100 bob None 70%Z.

Definition sample_db : database :=
  mkdb sample_profiles
       [ projects.mk 10 "Checkout Bugs" None alice 5%Z;
         projects.mk 11 "Backlog" None alice 6%Z ]
       [ project_members.mk 20 10 bob developer (Some alice) 7%Z ]
       [ ticket100 ]
       [ comment201; comment200 ].

(** The same store with ticket 102, in project 10, assigned to Carol, who
    holds no membership row and owns no project. *)
Definition ticket102 : tickets.row :=
  tickets.mk 102 "Slow search" None task low todo 10 bob (Some carol) None 60%Z.

Definition outsider_db : database :=
  with_tickets sample_db [ ticket100; ticket102 ].

(** ** More of the store *)

(** The remaining decisions of the deployed policies. *)
Definition can_create_project (db : database) (uid : uuid) (p : projects.row) :=
  admits current_catalog FOR_INSERT Tprojects db uid (project_tuple p).

Definition can_update_project (db : database) (uid : uuid) (p : projects.row) :=
  permits current_catalog FOR_UPDATE Tprojects db uid (project_tuple p).

Definition can_delete_project (db : database) (uid : uuid) (p : projects.row) :=
  permits current_catalog FOR_DELETE Tprojects db uid (project_tuple p).

Definition can_update_member (db : database) (uid : uuid) (m : project_members.row) :=
  permits current_catalog FOR_UPDATE Tproject_members db uid (member_tuple m).

Definition can_delete_member (db : database) (uid : uuid) (m : project_members.row) :=
  permits current_catalog FOR_DELETE Tproject_members db uid (member_tuple m).

Definition can_delete_ticket (db : database) (uid : uuid) (t : tickets.row) :=
  permits current_catalog FOR_DELETE Ttickets db uid (ticket_tuple t).

Definition can_update_comment (db : database) (uid : uuid) (c : comments.row) :=
  permits current_catalog FOR_UPDATE Tcomments db uid (comment_tuple c).

Definition can_delete_comment (db : database) (uid : uuid) (c : comments.row) :=
  permits current_catalog FOR_DELETE Tcomments db uid (comment_tuple c).

Definition can_read_profile (db : database) (uid : uuid) (p : profiles.row) :=
  permits current_catalog FOR_SELECT Tprofiles db uid (profile_tuple p).

Definition can_update_profile (db : database) (uid : uuid) (p : profiles.row) :=
  permits current_catalog FOR_UPDATE Tprofiles db uid (profile_tuple p).

Definition can_delete_profile (db : database) (uid : uuid) (p : profiles.row) :=
  permits current_catalog FOR_DELETE Tprofiles db uid (profile_tuple p).

(** [PRIMARY KEY (id)] of [projects] and of [project_members]. *)
Definition projects_pkey (db : database) : Prop :=
  NoDup (map projects.id (tbl_projects db)).

Definition members_pkey (db : database) : Prop :=
  NoDup (map project_members.id (tbl_project_members db)).

(** [project_members.project_id REFERENCES projects(id)]. *)
Definition members_reference_projects (db : database) : Prop :=
  forall m, In m (tbl_project_members db) ->
            has_project db (project_members.project_id m) = true.

(** *** DELETE FROM public.project_members WHERE id = target

    The statement filters on a column: a row goes when it passes the read
    policies and the delete policies; other rows are skipped silently.  No
    table references [project_members]. *)
Definition delete_project_member (cat : catalog) (db : database) (uid : uuid)
  (target : uuid) : result database :=
  match using_qual max_nesting cat FOR_SELECT Tproject_members,
        using_qual max_nesting cat FOR_DELETE Tproject_members with
  | Some qs, Some qd =>
      Ok (with_project_members db
            (filter (fun m => negb ((project_members.id m =? target)
                                    && eval db uid qs (member_tuple m)
                                    && eval db uid qd (member_tuple m)))
                    (tbl_project_members db)))
  | _, _ => Err infinite_recursion
  end.

(** *** INSERT INTO public.projects ... RETURNING *

    The new row must pass the insert check and, being returned, the read
    policies.  [owner_id] references the users of the identity service; the
    insert check makes it the caller, who exists. *)
Definition insert_project (cat : catalog) (db : database) (uid : uuid)
  (new_id : uuid) (now : timestamptz)
  (name : string) (description : option string) (owner_id : uuid)
  : result (database * projects.row) :=
  let row := projects.mk new_id name description owner_id now in
  match check_qual max_nesting cat FOR_INSERT Tprojects,
        using_qual max_nesting cat FOR_SELECT Tprojects with
  | Some qc, Some qs =>
      if negb (eval db uid qc (project_tuple row) && eval db uid qs (project_tuple row))
      then Err insufficient_privilege
      else if has_project db new_id
      then Err (unique_violation "projects_pkey")
      else Ok (with_projects db (tbl_projects db ++ [row]), row)
  | _, _ => Err infinite_recursion
  end.

(** *** INSERT INTO public.tickets *)
Definition insert_ticket (cat : catalog) (db : database) (uid : uuid)
  (new_id : uuid) (now : timestamptz)
  (title : string) (description : option string)
  (type : ticket_type) (priority : ticket_priority) (status : ticket_status)
  (project_id reporter_id : uuid) (assignee_id : option uuid)
  : result database :=
  let row := tickets.mk new_id title description type priority status
                        project_id reporter_id assignee_id None now in
  match check_qual max_nesting cat FOR_INSERT Ttickets with
  | None => Err infinite_recursion
  | Some qc =>
      if negb (eval db uid qc (ticket_tuple row)) then Err insufficient_privilege
      else if has_ticket db new_id
      then Err (unique_violation "tickets_pkey")
      else if negb (has_project db project_id)
      then Err (foreign_key_violation "tickets_project_id_fkey")
      else if negb (has_profile db reporter_id)
      then Err (foreign_key_violation "fk_tickets_reporter_id")
      else if match assignee_id with
              | Some a => negb (has_profile db a)
              | None => false
              end
      then Err (foreign_key_violation "fk_tickets_assignee_id")
      else Ok (with_tickets db (tbl_tickets db ++ [row]))
  end.

(** *** UPDATE public.projects SET name, description WHERE id = target *)
Definition rename_project (name : string) (description : option string)
  (p : projects.row) : projects.row :=
  projects.mk (projects.id p) name description (projects.owner_id p)
              (projects.created_at p).

Definition update_project (cat : catalog) (db : database) (uid : uuid)
  (target : uuid) (name : string) (description : option string) : result database :=
  match using_qual max_nesting cat FOR_SELECT Tprojects,
        using_qual max_nesting cat FOR_UPDATE Tprojects,
        check_qual max_nesting cat FOR_UPDATE Tprojects with
  | Some qs, Some qu, Some qc =>
      let hit p := (projects.id p =? target)
                   && eval db uid qs (project_tuple p)
                   && eval db uid qu (project_tuple p) in
      let new p := if hit p then rename_project name description p else p in
      if forallb (fun p => negb (hit p)
                           || (eval db uid qc (project_tuple (new p))
                               && eval db uid qs (project_tuple (new p))))
                 (tbl_projects db)
      then Ok (with_projects db (map new (tbl_projects db)))
      else Err insufficient_privilege
  | _, _, _ => Err infinite_recursion
  end.

(** *** The sign-up trigger

    [handle_new_user], as replaced by migration 20250620060829: a profile
    for the new user, named after the sign-up metadata or, failing that,
    after the part of the e-mail address before the first [@].  It runs as
    SECURITY DEFINER, past the policies; [profiles] has a primary key and
    [username] is UNIQUE (NULLs do not collide). *)
Record auth_user := mkauth {
  au_id : uuid;
  email : option string;
  meta_username : option string;       (* raw_user_meta_data->>'username' *)
  meta_full_name : option string       (* raw_user_meta_data->>'full_name' *)
}.

(** [split_part(s, '@', 1)] *)
Fixpoint split_part_at_1 (s : string) : string :=
  match s with
  | EmptyString => EmptyString
  | String a s' =>
      if Ascii.nat_of_ascii a =? 64   (* the character @ *)
      then EmptyString else String a (split_part_at_1 s')
  end.

Definition coalesce {A : Type} (a b : option A) : option A :=
  match a with Some _ => a | None => b end.

Definition handle_new_user (db : database) (new : auth_user) : result database :=
  let local := option_map split_part_at_1 (email new) in
  let row := profiles.mk (au_id new)
                         (coalesce (meta_username new) local)
                         (coalesce (meta_full_name new) local) in
  if has_profile db (au_id new)
  then Err (unique_violation "profiles_pkey")
  else if match profiles.username row with
          | Some n => existsb (fun p => opt_string_is (profiles.username p) n)
                              (tbl_profiles db)
          | None => false
          end
  then Err (unique_violation "profiles_username_key")
  else Ok (mkdb (tbl_profiles db ++ [row]) (tbl_projects db)
                (tbl_project_members db) (tbl_tickets db) (tbl_comments db)).

(** ** More of the client *)

(** A select box for the assignee: untouched (the empty string), the entry
    "Unassigned" (the string [unassigned]), or a member's user id. *)
Inductive assignee_field :=
  | field_empty
  | field_unassigned
  | field_user (u : uuid).

(** *** KanbanBoard.tsx, continued *)
Module KanbanBoard.

(** [fetchTickets]: the new value of the component's [tickets] and the toast
    shown. *)
Definition fetchTickets (cat : catalog) (db : database) (uid : uuid)
  (projectId : uuid) (tickets : list tickets.row)
  : list tickets.row * option toast :=
  match select_rows cat Ttickets ticket_tuple db uid (tbl_tickets db) with
  | Ok rows => (filter (fun t => tickets.project_id t =? projectId) rows, None)
  | Err _ => (tickets, Some (toast_error "Failed to fetch tickets"))
  end.

Definition getTicketsByStatus (tickets : list tickets.row) (status : ticket_status)
  : list tickets.row :=
  filter (fun ticket => status_eqb (tickets.status ticket) status) tickets.

End KanbanBoard.

(** *** TicketList.tsx *)
Module TicketList.

(** [.order('created_at', { ascending: false })] *)
Fixpoint insert_desc (t : tickets.row) (l : list tickets.row) : list tickets.row :=
  match l with
  | [] => [t]
  | x :: l' =>
      if (tickets.created_at x <=? tickets.created_at t)%Z
      then t :: l
      else x :: insert_desc t l'
  end.

Definition order_desc (l : list tickets.row) : list tickets.row :=
  fold_right insert_desc [] l.

Definition fetchTickets (cat : catalog) (db : database) (uid : uuid)
  (projectId : uuid) (tickets : list tickets.row)
  : list tickets.row * option toast :=
  match select_rows cat Ttickets ticket_tuple db uid (tbl_tickets db) with
  | Ok rows =>
      (order_desc (filter (fun t => tickets.project_id t =? projectId) rows), None)
  | Err _ => (tickets, Some (toast_error "Failed to fetch tickets"))
  end.

(** [String.prototype.includes]: [sub] occurs in [s] at some position. *)
Fixpoint includes (s sub : string) : bool :=
  String.prefix sub s
  || match s with
     | EmptyString => false
     | String _ s' => includes s' sub
     end.

Definition type_eqb (a b : ticket_type) : bool :=
  match a, b with
  | bug, bug | feature, feature | task, task => true
  | _, _ => false
  end.

Definition priority_eqb (a b : ticket_priority) : bool :=
  match a, b with
  | low, low | medium, medium | high, high | critical, critical => true
  | _, _ => false
  end.

(** The filter controls; [None] is the entry [all]. *)
Record filters := mkfilters {
  searchTerm : string;
  statusFilter : option ticket_status;
  priorityFilter : option ticket_priority;
  typeFilter : option ticket_type
}.

Definition matches_search {js : engine} (searchTerm : string)
  (ticket : tickets.row) : bool :=
  includes (toLowerCase (tickets.title ticket)) (toLowerCase searchTerm)
  || match tickets.description ticket with
     | Some d => includes (toLowerCase d) (toLowerCase searchTerm)
     | None => false
     end.

(** [filterTickets]: the new value of [filteredTickets]. *)
Definition filterTickets {js : engine} (f : filters)
  (tickets : list tickets.row) : list tickets.row :=
  let filtered := tickets in
  let filtered :=
    if String.eqb (searchTerm f) "" then filtered
    else filter (matches_search (searchTerm f)) filtered in
  let filtered :=
    match statusFilter f with
    | None => filtered
    | Some s => filter (fun ticket => status_eqb (tickets.status ticket) s) filtered
    end in
  let filtered :=
    match priorityFilter f with
    | None => filtered
    | Some p => filter (fun ticket => priority_eqb (tickets.priority ticket) p) filtered
    end in
  match typeFilter f with
  | None => filtered
  | Some ty => filter (fun ticket => type_eqb (tickets.type ticket) ty) filtered
  end.

End TicketList.

(** *** CreateTicketDialog.tsx *)
Module CreateTicketDialog.

Record TicketData := mkdata {
  title : string;
  description : string;
  type : ticket_type;
  priority : ticket_priority;
  assignee_id : assignee_field
}.

(** The form as the dialog opens. *)
Definition blank_form : TicketData :=
  mkdata "" "" task medium field_empty.

(** [handleSubmit].  The assignee sent is NULL for the entry "Unassigned"
    and the field's text otherwise; the store takes no text but a UUID for
    that column, so the untouched field, an empty string, is refused. *)
Definition handleSubmit {js : engine} (cat : catalog) (db : database)
  (user : option uuid) (projectId : uuid) (ticketData : TicketData)
  (new_id : uuid) (now : timestamptz) : database * toast :=
  match user with
  | None => (db, toast_error "You must be logged in to create a ticket")
  | Some uid =>
      if blank (title ticketData)
      then (db, toast_error "Please enter a ticket title")
      else
        let insert a :=
          insert_ticket cat db uid new_id now (title ticketData)
            (Some (description ticketData)) (type ticketData) (priority ticketData)
            todo projectId uid a in
        let answer :=
          match assignee_id ticketData with
          | field_empty => None
          | field_unassigned => Some (insert None)
          | field_user u => Some (insert (Some u))
          end in
        match answer with
        | Some (Ok db') => (db', toast_success "Ticket created successfully!")
        | _ => (db, toast_error "Failed to create ticket. Please try again.")
        end
  end.

End CreateTicketDialog.

(** *** TicketDialog.tsx, continued *)
Module TicketDialog.

(** The form state with the assignee as the select box holds it. *)
Record EditedForm := mkform {
  title : string;
  description : option string;
  type : ticket_type;
  priority : ticket_priority;
  status : ticket_status;
  assignee_id : assignee_field
}.

(** The form as the dialog opens: [assignee_id: ticket.assignee_id || '']. *)
Definition form_of (ticket : tickets.row) : EditedForm :=
  mkform (tickets.title ticket) (tickets.description ticket) (tickets.type ticket)
         (tickets.priority ticket) (tickets.status ticket)
         (match tickets.assignee_id ticket with
          | Some a => field_user a
          | None => field_empty
          end).

(** [handleUpdateTicket] on that form: [editedTicket.assignee_id || null]
    turns the empty string into NULL and sends any other text as it is; the
    text [unassigned] is no UUID and the store refuses the statement. *)
Definition handleUpdateTicket_form (cat : catalog) (db : database) (user : option uuid)
  (ticket_id : uuid) (f : EditedForm) : database * option toast :=
  let send a :=
    handleUpdateTicket cat db user ticket_id
      (mkedited (title f) (description f) (type f) (priority f) (status f) a) in
  match assignee_id f with
  | field_empty => send None
  | field_user u => send (Some u)
  | field_unassigned =>
      match user with
      | None => (db, None)
      | Some _ => (db, Some (toast_error "Failed to update ticket"))
      end
  end.

(** A choice in the assignee select box: the entry "Unassigned" ([None]) or
    a member.  No entry has the empty string as its value. *)
Definition select_assignee (f : EditedForm) (choice : option uuid) : EditedForm :=
  mkform (title f) (description f) (type f) (priority f) (status f)
         (match choice with
          | None => field_unassigned
          | Some u => field_user u
          end).

(** [fetchProjectMembers]: the entries of the assignee select box. *)
Definition fetchProjectMembers (cat : catalog) (db : database) (uid : uuid)
  (projectId : uuid) (projectMembers : list project_members.row)
  : list project_members.row :=
  match select_rows cat Tproject_members member_tuple db uid (tbl_project_members db) with
  | Ok rows => filter (fun m => project_members.project_id m =? projectId) rows
  | Err _ => projectMembers
  end.

End TicketDialog.

(** *** Dashboard.tsx *)
Module Dashboard.

(** [fetchProjects]: the new value of [projects] and the toast shown. *)
Definition fetchProjects (cat : catalog) (db : database) (user : option uuid)
  (projects : list projects.row) : list projects.row * option toast :=
  match user with
  | None => (projects, None)
  | Some uid =>
      let userProjectIds := get_user_project_ids db uid in
      match userProjectIds with
      | [] => ([], None)
      | _ =>
          let projectIds := userProjectIds in
          match select_rows cat Tprojects project_tuple db uid (tbl_projects db) with
          | Ok rows =>
              (filter (fun p => existsb (Nat.eqb (projects.id p)) projectIds) rows, None)
          | Err _ =>
              (projects, Some (toast_error "Failed to fetch projects. Please try again."))
          end
      end
  end.

Record NewProject := mknew {
  name : string;
  description : string
}.

(** How [createProject] ends. *)
Inductive outcome :=
  | not_logged_in
  | name_required
  | create_failed (e : error)
  | created (projectData : projects.row) (member_added : bool).

(** [createProject]: the project first, then the creator's membership row
    with role [admin]; a failure of the second insert is reported as a
    warning and the project stays. *)
Definition createProject {js : engine} (cat : catalog) (db : database)
  (user : option uuid) (newProject : NewProject) (project_id member_id : uuid)
  (now : timestamptz) : database * outcome :=
  match user with
  | None => (db, not_logged_in)
  | Some uid =>
      if String.eqb (trim (name newProject)) "" then (db, name_required)
      else
        let d := trim (description newProject) in
        match insert_project cat db uid project_id now (trim (name newProject))
                (if String.eqb d "" then None else Some d) uid with
        | Err e => (db, create_failed e)
        | Ok (db1, projectData) =>
            match insert_project_member cat db1 uid member_id now
                    (projects.id projectData) uid admin None with
            | Ok db2 => (db2, created projectData true)
            | Err _ => (db1, created projectData false)
            end
        end
  end.

End Dashboard.

(** *** Project.tsx *)
Module Project.

(** What the page shows after [fetchProject]. *)
Inductive view :=
  | no_access          (* 'You do not have access to this project' *)
  | load_failed        (* 'Failed to load project' *)
  | loaded (project : projects.row).

Definition fetchProject (cat : catalog) (db : database) (uid : uuid)
  (projectId : uuid) : view :=
  let projectIds := get_user_project_ids db uid in
  let hasAccess := existsb (fun p => p =? projectId) projectIds in
  if negb hasAccess then no_access
  else
    match select_rows cat Tprojects project_tuple db uid (tbl_projects db) with
    | Ok rows =>
        match single (filter (fun p => projects.id p =? projectId) rows) with
        | Some data => loaded data
        | None => load_failed
        end
    | Err _ => load_failed
    end.

End Project.

(** *** ProjectSettings, continued *)
Module ProjectSettings.

Definition isOwner (user : option uuid) (project : projects.row) : bool :=
  match user with
  | Some u => u =? projects.owner_id project
  | None => false
  end.

(** [fetchMembers] *)
Definition fetchMembers (cat : catalog) (db : database) (uid : uuid)
  (project : projects.row) (members : list project_members.row)
  : list project_members.row * option toast :=
  match select_rows cat Tproject_members member_tuple db uid (tbl_project_members db) with
  | Ok rows =>
      (filter (fun m => project_members.project_id m =? projects.id project) rows, None)
  | Err _ => (members, Some (toast_error "Failed to fetch project members"))
  end.

(** [updateProject].  The form holds [project.name] and
    [project.description] until they are edited, so the description sent is
    NULL as long as the project has none and the field is left alone. *)
Definition updateProject (cat : catalog) (db : database) (user : option uuid)
  (project : projects.row) (name : string) (description : option string)
  : database * option toast :=
  match user with
  | None => (db, None)
  | Some uid =>
      if negb (isOwner user project) then (db, None)
      else
        match update_project cat db uid (projects.id project) name description with
        | Ok db' => (db', Some (toast_success "Project updated successfully!"))
        | Err _ => (db, Some (toast_error "Failed to update project"))
        end
  end.

(** [removeMember] *)
Definition removeMember (cat : catalog) (db : database) (user : option uuid)
  (project : projects.row) (memberId : uuid) : database * option toast :=
  match user with
  | None => (db, None)
  | Some uid =>
      if negb (isOwner user project) then (db, None)
      else
        match delete_project_member cat db uid memberId with
        | Ok db' => (db', Some (toast_success "Member removed successfully!"))
        | Err _ => (db, Some (toast_error "Failed to remove member"))
        end
  end.

End ProjectSettings.

(** Later creation time first. *)
Definition newest_first (a b : tickets.row) : Prop :=
  (tickets.created_at b <= tickets.created_at a)%Z.

(** [UNIQUE] on [profiles.username]; NULLs do not count. *)
Definition usernames_unique (db : database) : Prop :=
  NoDup (flat_map (fun p => match profiles.username p with
                            | Some n => [n]
                            | None => []
                            end) (tbl_profiles db)).

(** * Properties *)

(** ** The resolver *)

Lemma existsb_eqb_In (v : uuid) (l : list uuid) :
  existsb (Nat.eqb v) l = true <-> In v l.
Proof.
  rewrite existsb_exists. split.
  - intros [x [Hin Heq]]. apply Nat.eqb_eq in Heq. now subst.
  - intros Hin. exists v. split; [assumption | apply Nat.eqb_refl].
Qed.

Lemma in_get_user_project_ids (db : database) (u p : uuid) :
  In p (get_user_project_ids db u) <-> owns db u p \/ member db u p.
Proof.
  unfold get_user_project_ids, owns, member.
  rewrite nodup_In, in_app_iff, !in_map_iff. split.
  - intros [[m [Hp Hm]] | [r [Hp Hr]]]; apply filter_In in Hm || apply filter_In in Hr.
    + right. destruct Hm as [Hin Hu]. apply Nat.eqb_eq in Hu. now exists m.
    + left. destruct Hr as [Hin Hu]. apply Nat.eqb_eq in Hu. now exists r.
  - intros [[r (Hin & Hp & Hu)] | [m (Hin & Hp & Hu)]].
    + right. exists r. split; [assumption|]. apply filter_In. split; [assumption|].
      now apply Nat.eqb_eq.
    + left. exists m. split; [assumption|]. apply filter_In. split; [assumption|].
      now apply Nat.eqb_eq.
Qed.

(** C1. A project is in [AccessibleProjects(u)], the answer of
    [get_user_project_ids] for [u], exactly when [u] owns it or a membership
    row for the pair exists: the resolver computes the union of the owned
    projects and the membership projects, no more and no less. *)
Theorem resolver_is_owned_union_membership (db : database) (u p : uuid) :
  accessible db u p <-> owns db u p \/ member db u p.
Proof. unfold accessible. apply in_get_user_project_ids. Qed.

(** [UNION] yields each project once. *)
Lemma get_user_project_ids_NoDup (db : database) (u : uuid) :
  NoDup (get_user_project_ids db u).
Proof. apply NoDup_nodup. Qed.

(** ** Reading policy expressions *)

Lemma opt_is_true (o : option uuid) (v : uuid) : opt_is o v = true <-> o = Some v.
Proof.
  destruct o as [x|]; simpl.
  - rewrite Nat.eqb_eq. split; congruence.
  - split; discriminate.
Qed.

Lemma eval_in_select db uid c out t q w r :
  eval db uid (XInSelect c out t q w) r = true <->
  exists v r', r c = Some v /\ In r' (scan db t)
               /\ eval db uid q r' = true /\ eval db uid w r' = true
               /\ r' out = Some v.
Proof.
  simpl. destruct (r c) as [v|].
  - rewrite existsb_exists. split.
    + intros [r' [Hin H]]. rewrite !andb_true_iff, opt_is_true in H.
      exists v, r'. tauto.
    + intros (v' & r' & Hv & Hin & Hq & Hw & Ho). injection Hv as <-.
      exists r'. rewrite !andb_true_iff, opt_is_true. tauto.
  - split; [discriminate|]. intros (v & r' & Hv & _). discriminate.
Qed.

Lemma eval_in_resolver db uid c r :
  eval db uid (XInUserProjectIds c) r = true <->
  exists v, r c = Some v /\ accessible db uid v.
Proof.
  simpl. unfold accessible. destruct (r c) as [v|].
  - rewrite existsb_eqb_In. split.
    + intros H. now exists v.
    + intros (v' & Hv & H). now injection Hv as <-.
  - split; [discriminate|]. intros (v & Hv & _). discriminate.
Qed.

Lemma eval_uid_eq db uid c r : eval db uid (XUidEq c) r = true <-> r c = Some uid.
Proof. simpl. apply opt_is_true. Qed.

Lemma eval_or db uid a b r :
  eval db uid (XOr a b) r = true <-> eval db uid a r = true \/ eval db uid b r = true.
Proof. simpl. apply orb_true_iff. Qed.

Lemma eval_and db uid a b r :
  eval db uid (XAnd a b) r = true <-> eval db uid a r = true /\ eval db uid b r = true.
Proof. simpl. apply andb_true_iff. Qed.

Lemma eval_false db uid r : eval db uid XFalse r = true <-> False.
Proof. simpl. split; [discriminate | tauto]. Qed.

(** The subquery [SELECT id FROM projects WHERE owner_id = auth.uid()], read
    under the project policies: the caller's own projects all pass. *)
Lemma eval_owned_subquery db uid c r :
  eval db uid
    (XInSelect c c_id Tprojects
       (XOr (XOr (XInUserProjectIds c_id) (XUidEq c_owner_id)) XFalse)
       (XUidEq c_owner_id)) r = true
  <-> exists v, r c = Some v /\ owns db uid v.
Proof.
  rewrite eval_in_select. unfold owns. simpl scan. split.
  - intros (v & r' & Hv & Hin & _ & Hw & Ho). exists v. split; [assumption|].
    apply in_map_iff in Hin. destruct Hin as (p & <- & Hin).
    rewrite eval_uid_eq in Hw. simpl in Hw, Ho. exists p. split; [assumption|].
    split; congruence.
  - intros (v & Hv & p & Hin & Hid & Ho). exists v, (project_tuple p).
    split; [assumption|]. split; [now apply in_map|].
    rewrite !eval_or, !eval_uid_eq. simpl. subst. tauto.
Qed.

(** The subquery [SELECT project_id FROM project_members WHERE user_id =
    auth.uid()], read under the membership policies: the caller's own
    membership rows all pass, their projects being in the resolver's answer. *)
Lemma eval_membership_subquery db uid c r :
  eval db uid
    (XInSelect c c_project_id Tproject_members
       (XOr (XInUserProjectIds c_project_id)
          (XOr (XInSelect c_project_id c_id Tprojects
                  (XOr (XOr (XInUserProjectIds c_id) (XUidEq c_owner_id)) XFalse)
                  (XUidEq c_owner_id))
               XFalse))
       (XUidEq c_user_id)) r = true
  <-> exists v, r c = Some v /\ member db uid v.
Proof.
  rewrite eval_in_select. unfold member. simpl scan. split.
  - intros (v & r' & Hv & Hin & _ & Hw & Ho). exists v. split; [assumption|].
    apply in_map_iff in Hin. destruct Hin as (m & <- & Hin).
    rewrite eval_uid_eq in Hw. simpl in Hw, Ho. exists m. split; [assumption|].
    split; congruence.
  - intros (v & Hv & m & Hin & Hp & Hu). exists v, (member_tuple m).
    split; [assumption|]. split; [now apply in_map|].
    split; [|split].
    + rewrite eval_or, eval_in_resolver. left. exists v. split; [simpl; congruence|].
      apply in_get_user_project_ids. right. now exists m.
    + rewrite eval_uid_eq. simpl. congruence.
    + simpl. congruence.
Qed.

(** ** The decisions of the deployed policies *)

Ltac expose_quals :=
  unfold can_read_project, can_read_member, can_create_member, can_read_ticket,
         can_create_ticket, can_update_ticket, can_read_comment,
         can_create_comment, permits, admits, select_rows;
  repeat match goal with
         | |- context [using_qual ?n ?c ?cmd ?t] =>
             let q := eval vm_compute in (using_qual n c cmd t) in
             change (using_qual n c cmd t) with q
         | |- context [check_qual ?n ?c ?cmd ?t] =>
             let q := eval vm_compute in (check_qual n c cmd t) in
             change (check_qual n c cmd t) with q
         end;
  cbn [option_map].

Lemma decision_iff (o : option bool) (b : bool) (P : Prop) :
  o = Some b -> (b = true <-> P) ->
  (o = Some true <-> P) /\ (o = Some false <-> ~ P).
Proof.
  intros -> H. split.
  - rewrite <- H. split; congruence.
  - rewrite <- H. destruct b; split; congruence.
Qed.

Lemma project_read_rule db uid p :
  (can_read_project db uid p = Some true
   <-> accessible db uid (projects.id p) \/ projects.owner_id p = uid)
  /\ (can_read_project db uid p = Some false
      <-> ~ (accessible db uid (projects.id p) \/ projects.owner_id p = uid)).
Proof.
  expose_quals. eapply decision_iff; [reflexivity|].
  rewrite !eval_or, eval_in_resolver, eval_uid_eq, eval_false. simpl. split.
  - intros [[(v & Hv & H) | H] | []]; [left | right]; congruence.
  - intros [H | H]; left; [left; eauto | right; congruence].
Qed.

Lemma member_read_rule db uid m :
  (can_read_member db uid m = Some true
   <-> accessible db uid (project_members.project_id m))
  /\ (can_read_member db uid m = Some false
      <-> ~ accessible db uid (project_members.project_id m)).
Proof.
  expose_quals. eapply decision_iff; [reflexivity|].
  rewrite !eval_or, eval_in_resolver, eval_owned_subquery, eval_false. simpl. split.
  - intros [(v & Hv & H) | [(v & Hv & H) | []]]; injection Hv as <-.
    + assumption.
    + apply in_get_user_project_ids. now left.
  - intros H. left. eauto.
Qed.

Lemma member_create_rule db uid m :
  (can_create_member db uid m = Some true
   <-> project_members.user_id m = uid \/ owns db uid (project_members.project_id m))
  /\ (can_create_member db uid m = Some false
      <-> ~ (project_members.user_id m = uid
             \/ owns db uid (project_members.project_id m))).
Proof.
  expose_quals. eapply decision_iff; [reflexivity|].
  rewrite !eval_or, eval_uid_eq, eval_owned_subquery, eval_false. simpl. split.
  - intros [H | [(v & Hv & H) | []]]; [left | right]; congruence.
  - intros [H | H]; [left; congruence | right; left; eauto].
Qed.

Lemma ticket_read_rule db uid t :
  (can_read_ticket db uid t = Some true <-> accessible db uid (tickets.project_id t))
  /\ (can_read_ticket db uid t = Some false
      <-> ~ accessible db uid (tickets.project_id t)).
Proof.
  expose_quals. eapply decision_iff; [reflexivity|].
  rewrite !eval_or, eval_in_resolver, eval_false. simpl. split.
  - intros [(v & Hv & H) | []]. congruence.
  - intros H. left. eauto.
Qed.

Lemma ticket_create_rule db uid t :
  (can_create_ticket db uid t = Some true
   <-> member db uid (tickets.project_id t) /\ tickets.reporter_id t = uid)
  /\ (can_create_ticket db uid t = Some false
      <-> ~ (member db uid (tickets.project_id t) /\ tickets.reporter_id t = uid)).
Proof.
  expose_quals. eapply decision_iff; [reflexivity|].
  rewrite !eval_or, eval_and, eval_membership_subquery, eval_uid_eq, eval_false.
  simpl. split.
  - intros [[(v & Hv & H) Hr] | []]. split; congruence.
  - intros [H Hr]. left. split; [eauto | congruence].
Qed.

Lemma ticket_update_rule db uid t :
  (can_update_ticket db uid t = Some true
   <-> tickets.assignee_id t = Some uid \/ owns db uid (tickets.project_id t))
  /\ (can_update_ticket db uid t = Some false
      <-> ~ (tickets.assignee_id t = Some uid \/ owns db uid (tickets.project_id t))).
Proof.
  expose_quals. eapply decision_iff; [reflexivity|].
  rewrite !eval_or, eval_uid_eq, eval_owned_subquery, eval_false. simpl. split.
  - intros [[H | (v & Hv & H)] | []]; [left | right]; congruence.
  - intros [H | H]; left; [left | right]; eauto.
Qed.

(** The subquery of the comment policies: a ticket with the comment's
    [ticket_id], visible to the caller, in a project where the caller holds a
    membership row. *)
Lemma eval_member_ticket_subquery db uid r :
  eval db uid
    (XInSelect c_ticket_id c_id Ttickets
       (XOr (XInUserProjectIds c_project_id) XFalse)
       (XInSelect c_project_id c_project_id Tproject_members
          (XOr (XInUserProjectIds c_project_id)
             (XOr (XInSelect c_project_id c_id Tprojects
                     (XOr (XOr (XInUserProjectIds c_id) (XUidEq c_owner_id)) XFalse)
                     (XUidEq c_owner_id))
                  XFalse))
          (XUidEq c_user_id))) r = true
  <-> exists v t, r c_ticket_id = Some v /\ In t (tbl_tickets db)
                  /\ tickets.id t = v /\ member db uid (tickets.project_id t).
Proof.
  rewrite eval_in_select. simpl scan. split.
  - intros (v & r' & Hv & Hin & _ & Hw & Ho).
    apply in_map_iff in Hin. destruct Hin as (t & <- & Hin).
    apply eval_membership_subquery in Hw. destruct Hw as (p & Hp & Hm).
    simpl in Hp, Ho. exists v, t. repeat split; congruence.
  - intros (v & t & Hv & Hin & Hid & Hm). exists v, (ticket_tuple t).
    split; [assumption|]. split; [now apply in_map|]. split; [|split].
    + rewrite eval_or, eval_in_resolver. left. exists (tickets.project_id t).
      split; [reflexivity|]. apply in_get_user_project_ids. now right.
    + apply eval_membership_subquery. exists (tickets.project_id t). now split.
    + simpl. congruence.
Qed.

Lemma comment_read_rule db uid c :
  (can_read_comment db uid c = Some true
   <-> exists t, In t (tbl_tickets db) /\ tickets.id t = comments.ticket_id c
                 /\ member db uid (tickets.project_id t))
  /\ (can_read_comment db uid c = Some false
      <-> ~ exists t, In t (tbl_tickets db) /\ tickets.id t = comments.ticket_id c
                      /\ member db uid (tickets.project_id t)).
Proof.
  expose_quals. eapply decision_iff; [reflexivity|].
  rewrite eval_or, eval_member_ticket_subquery, eval_false. simpl. split.
  - intros [(v & t & Hv & Hin & Hid & Hm) | []]. exists t. repeat split; congruence.
  - intros (t & Hin & Hid & Hm). left. exists (comments.ticket_id c), t. now repeat split.
Qed.

Lemma comment_create_rule db uid c :
  (can_create_comment db uid c = Some true
   <-> (exists t, In t (tbl_tickets db) /\ tickets.id t = comments.ticket_id c
                  /\ member db uid (tickets.project_id t))
       /\ comments.author_id c = uid)
  /\ (can_create_comment db uid c = Some false
      <-> ~ ((exists t, In t (tbl_tickets db) /\ tickets.id t = comments.ticket_id c
                        /\ member db uid (tickets.project_id t))
             /\ comments.author_id c = uid)).
Proof.
  expose_quals. eapply decision_iff; [reflexivity|].
  rewrite eval_or, eval_and, eval_member_ticket_subquery, eval_uid_eq, eval_false.
  simpl. split.
  - intros [[(v & t & Hv & Hin & Hid & Hm) Ha] | []]. split; [|congruence].
    exists t. repeat split; congruence.
  - intros [(t & Hin & Hid & Hm) Ha]. left. split; [|congruence].
    exists (comments.ticket_id c), t. now repeat split.
Qed.

(** ** Recursion in the policies *)

(** The catalog as first deployed: the read policy of [project_members]
    selects from [project_members], whose read policy is that same policy.
    No nesting depth is enough. *)
Lemma initial_member_policy_recurses (n : nat) :
  using_qual n initial_catalog FOR_SELECT Tproject_members = None.
Proof.
  assert (H : forall k,
             rewrite k initial_catalog
               (EInSelect c_project_id c_project_id Tproject_members members_of_caller)
             = None).
  { induction k as [|k IH]; [reflexivity|].
    change (rewrite (S k) initial_catalog
              (EInSelect c_project_id c_project_id Tproject_members members_of_caller))
      with (match disjunction
                    (map (rewrite k initial_catalog)
                         (usings initial_catalog FOR_SELECT Tproject_members)),
                  rewrite (S k) initial_catalog members_of_caller with
            | Some q, Some w' =>
                Some (XInSelect c_project_id c_project_id Tproject_members q w')
            | _, _ => None
            end).
    change (usings initial_catalog FOR_SELECT Tproject_members)
      with [EInSelect c_project_id c_project_id Tproject_members members_of_caller;
            EInSelect c_project_id c_id Tprojects owned_by_caller].
    cbn [map disjunction]. rewrite IH. reflexivity. }
  unfold using_qual.
  change (usings initial_catalog FOR_SELECT Tproject_members)
    with [EInSelect c_project_id c_project_id Tproject_members members_of_caller;
          EInSelect c_project_id c_id Tprojects owned_by_caller].
  cbn [map disjunction]. rewrite H. reflexivity.
Qed.

(** C2. Under the deployed catalog the read rule of [project_members]
    consumes the resolver, which reads the tables with no row filter; the
    rewritten read rule of a table never reads that table again, the one of
    [project_members] included; and every policy decision, for every
    command, table, store, user and row, comes out as allow or deny: policy
    rewriting ends within the nesting bound. *)
Theorem access_check_does_not_recurse :
  usings current_catalog FOR_SELECT Tproject_members
  = [EInUserProjectIds c_project_id; EInSelect c_project_id c_id Tprojects owned_by_caller]
  /\ (forall t, exists q,
        using_qual max_nesting current_catalog FOR_SELECT t = Some q
        /\ existsb (table_eqb t) (xtables q) = false)
  /\ (forall cmd t db uid r, exists b b',
        permits current_catalog cmd t db uid r = Some b
        /\ admits current_catalog cmd t db uid r = Some b')
  /\ (forall db uid m,
        can_read_member db uid m = Some true
        <-> In (project_members.project_id m) (get_user_project_ids db uid)).
Proof.
  split; [reflexivity|]. split; [|split].
  - intros t. destruct t; eexists; (split; [vm_compute; reflexivity | reflexivity]).
  - intros cmd t db uid r. unfold permits, admits.
    assert (Hu : exists q, using_qual max_nesting current_catalog cmd t = Some q)
      by (destruct cmd, t; eexists; vm_compute; reflexivity).
    assert (Hc : exists q, check_qual max_nesting current_catalog cmd t = Some q)
      by (destruct cmd, t; eexists; vm_compute; reflexivity).
    destruct Hu as [qu ->], Hc as [qc ->]. simpl. eauto.
  - intros db uid m. apply member_read_rule.
Qed.

(** ** Tickets *)

(** C3, as the policy decides: a ticket may be created exactly when the
    caller holds a membership row for the ticket's project and is the
    ticket's reporter; every other request is denied, that of a project
    owner without a membership row included. *)
Theorem ticket_creation_needs_membership_row db uid t :
  (can_create_ticket db uid t = Some true
   <-> member db uid (tickets.project_id t) /\ tickets.reporter_id t = uid)
  /\ (can_create_ticket db uid t = Some false
      <-> ~ (member db uid (tickets.project_id t) /\ tickets.reporter_id t = uid)).
Proof. apply ticket_create_rule. Qed.

Lemma sample_alice_accessible_10 : accessible sample_db alice 10.
Proof. apply in_get_user_project_ids. left. eexists. simpl. eauto. Qed.

Lemma sample_alice_no_member p : ~ member sample_db alice p.
Proof.
  intros (m & Hin & _ & Hu). simpl in Hin. destruct Hin as [<- | []]. discriminate.
Qed.

(** C3 as stated fails: Alice owns project 10, so the project is in her
    accessible set, and she reports the ticket herself; the request is
    denied for want of a membership row. *)
Lemma owner_without_membership_cannot_create_ticket :
  let t := tickets.mk 101 "New" None task medium todo 10 alice None None 80%Z in
  ~ (can_create_ticket sample_db alice t = Some true
     <-> accessible sample_db alice (tickets.project_id t)
         /\ tickets.reporter_id t = alice).
Proof.
  intros t [_ H].
  assert (Hc : can_create_ticket sample_db alice t = Some true).
  { apply H. split; [apply sample_alice_accessible_10 | reflexivity]. }
  apply ticket_create_rule in Hc. destruct Hc as [Hm _].
  exact (sample_alice_no_member Hm).
Qed.

(** C5. The update rule of tickets allows exactly the ticket's assignee and
    the owner of the ticket's project; for everyone else the decision is
    deny. *)
Theorem ticket_update_allowed_iff_assignee_or_owner db uid t :
  (can_update_ticket db uid t = Some true
   <-> tickets.assignee_id t = Some uid \/ owns db uid (tickets.project_id t))
  /\ (can_update_ticket db uid t = Some false
      <-> ~ (tickets.assignee_id t = Some uid \/ owns db uid (tickets.project_id t))).
Proof. apply ticket_update_rule. Qed.

(** ** Comments *)

Lemma pkey_same_ticket db t t' :
  tickets_pkey db -> In t (tbl_tickets db) -> In t' (tbl_tickets db) ->
  tickets.id t = tickets.id t' -> t = t'.
Proof.
  unfold tickets_pkey. induction (tbl_tickets db) as [|x l IH]; simpl; [tauto|].
  intros Hnd [-> | Hin] [-> | Hin'] Hid; inversion Hnd; subst.
  - reflexivity.
  - exfalso. apply H1. rewrite Hid. now apply in_map.
  - exfalso. apply H1. rewrite <- Hid. now apply in_map.
  - now apply IH.
Qed.

(** C4, as the policies decide, for a comment [c] on ticket [t]: the caller
    may create [c] exactly when the caller holds a membership row for the
    project of [t] and is the author of [c]; the caller may read [c] only if
    the caller may read [t]; a caller with a membership row for the project
    of [t] may read both [t] and [c]; and [t] is readable by the caller
    exactly when its project is in the caller's accessible set. *)
Theorem comment_rules_follow_membership db uid c t
  (Hpk : tickets_pkey db)
  (Hin : In t (tbl_tickets db))
  (Hon : comments.ticket_id c = tickets.id t) :
  (can_create_comment db uid c = Some true
   <-> member db uid (tickets.project_id t) /\ comments.author_id c = uid)
  /\ (can_read_comment db uid c = Some true -> can_read_ticket db uid t = Some true)
  /\ (member db uid (tickets.project_id t) ->
      can_read_ticket db uid t = Some true /\ can_read_comment db uid c = Some true)
  /\ (can_read_ticket db uid t = Some true
      <-> accessible db uid (tickets.project_id t)).
Proof.
  assert (Hsame : forall t', In t' (tbl_tickets db) ->
                             tickets.id t' = comments.ticket_id c -> t' = t).
  { intros t' Hin' Hid. apply (@pkey_same_ticket db t' t Hpk Hin' Hin). congruence. }
  assert (Hmem : member db uid (tickets.project_id t) ->
                 can_read_ticket db uid t = Some true).
  { intros Hm. apply ticket_read_rule. apply in_get_user_project_ids. now right. }
  split; [|split; [|split]].
  - destruct (comment_create_rule db uid c) as [-> _]. split.
    + intros [(t' & Hin' & Hid & Hm) Ha]. rewrite (Hsame t' Hin' Hid) in Hm. now split.
    + intros [Hm Ha]. split; [|assumption]. exists t. now repeat split.
  - intros Hr. apply comment_read_rule in Hr. destruct Hr as (t' & Hin' & Hid & Hm).
    rewrite (Hsame t' Hin' Hid) in Hm. now apply Hmem.
  - intros Hm. split; [now apply Hmem|]. apply comment_read_rule.
    exists t. now repeat split.
  - apply ticket_read_rule.
Qed.

Lemma comment_rules_follow_membership_witness :
  tickets_pkey sample_db
  /\ In ticket100 (tbl_tickets sample_db)
  /\ comments.ticket_id comment200 = tickets.id ticket100
  /\ (can_create_comment sample_db bob comment200 = Some true
      <-> member sample_db bob (tickets.project_id ticket100)
          /\ comments.author_id comment200 = bob)
  /\ (can_read_comment sample_db bob comment200 = Some true ->
      can_read_ticket sample_db bob ticket100 = Some true)
  /\ (member sample_db bob (tickets.project_id ticket100) ->
      can_read_ticket sample_db bob ticket100 = Some true
      /\ can_read_comment sample_db bob comment200 = Some true)
  /\ (can_read_ticket sample_db bob ticket100 = Some true
      <-> accessible sample_db bob (tickets.project_id ticket100)).
Proof.
  assert (Hpk : tickets_pkey sample_db).
  { unfold tickets_pkey. simpl. repeat constructor. simpl. tauto. }
  assert (Hin : In ticket100 (tbl_tickets sample_db)) by (simpl; left; reflexivity).
  assert (Hon : comments.ticket_id comment200 = tickets.id ticket100) by reflexivity.
  split; [exact Hpk|]. split; [exact Hin|]. split; [exact Hon|].
  exact (@comment_rules_follow_membership sample_db bob comment200 ticket100 Hpk Hin Hon).
Defined.

(** C4 as stated fails at creation: Alice, the owner of project 10, holds
    no membership row; she may read ticket 100, and a comment on it with
    herself as author she may not create. *)
Lemma owner_without_membership_cannot_create_comment :
  let c := comments.mk 202 "Reopened" 100 alice None 80%Z in
  can_read_ticket sample_db alice ticket100 = Some true
  /\ comments.ticket_id c = tickets.id ticket100
  /\ comments.author_id c = alice
  /\ can_create_comment sample_db alice c = Some false
  /\ ~ (can_create_comment sample_db alice c = Some true
        <-> can_read_ticket sample_db alice ticket100 = Some true
            /\ comments.author_id c = alice).
Proof.
  intros c.
  assert (Hread : can_read_ticket sample_db alice ticket100 = Some true).
  { apply ticket_read_rule. apply sample_alice_accessible_10. }
  assert (Hno : can_create_comment sample_db alice c = Some false).
  { apply comment_create_rule. intros [(t & _ & _ & Hm) _].
    exact (sample_alice_no_member Hm). }
  split; [exact Hread|]. split; [reflexivity|]. split; [reflexivity|].
  split; [exact Hno|].
  intros [_ H]. rewrite Hno in H.
  assert (Habs : Some false = Some true) by (apply H; split; [exact Hread | reflexivity]).
  discriminate.
Qed.

(** The read rule of comments still goes through the membership rows, as
    it did before the tickets' read rule was re-created over the resolver:
    Alice may read ticket 100 and may not read its comment. *)
Lemma owner_without_membership_cannot_read_comment :
  ~ (can_read_comment sample_db alice comment200 = Some true
     <-> can_read_ticket sample_db alice ticket100 = Some true).
Proof.
  intros [_ H].
  assert (Hc : can_read_comment sample_db alice comment200 = Some true).
  { apply H. apply ticket_read_rule. apply sample_alice_accessible_10. }
  apply comment_read_rule in Hc. destruct Hc as (t & _ & _ & Hm).
  exact (sample_alice_no_member Hm).
Qed.

(** ** Updating tickets *)

Lemma can_read_ticket_eval db uid t :
  can_read_ticket db uid t = Some true ->
  eval db uid (XOr (XInUserProjectIds c_project_id) XFalse) (ticket_tuple t) = true.
Proof. intros H. injection H as H. exact H. Qed.

Lemma can_update_ticket_eval db uid t :
  can_update_ticket db uid t = Some true ->
  eval db uid
    (XOr (XOr (XUidEq c_assignee_id)
            (XInSelect c_project_id c_id Tprojects
               (XOr (XOr (XInUserProjectIds c_id) (XUidEq c_owner_id)) XFalse)
               (XUidEq c_owner_id)))
       XFalse)
    (ticket_tuple t) = true.
Proof. intros H. injection H as H. exact H. Qed.

Lemma first_error_none {A : Type} (f : A -> option error) (l : list A) :
  (forall x, In x l -> f x = None) -> first_error f l = None.
Proof.
  induction l as [|x l IH]; simpl; [reflexivity|]. intros H.
  rewrite (H x (or_introl eq_refl)). apply IH. intros y Hy. apply H. now right.
Qed.

(** The statement [UPDATE tickets SET ... WHERE id = t.id] goes through when
    the caller may read and update [t], and may read and update the row as
    patched, and the patched row keeps its references valid. *)
Lemma update_tickets_current_ok db uid t p :
  tickets_pkey db -> In t (tbl_tickets db) ->
  can_read_ticket db uid t = Some true ->
  can_update_ticket db uid t = Some true ->
  can_read_ticket db uid (patch_ticket p t) = Some true ->
  can_update_ticket db uid (patch_ticket p t) = Some true ->
  ticket_fk_error db t (patch_ticket p t) = None ->
  update_tickets current_catalog db uid (tickets.id t) p
  = Ok (with_tickets db
          (map (fun r => if tickets.id r =? tickets.id t then patch_ticket p r else r)
               (tbl_tickets db))).
Proof.
  intros Hpk Hin Hr Hu Hr' Hu' Hfk.
  apply can_read_ticket_eval in Hr, Hr'. apply can_update_ticket_eval in Hu, Hu'.
  unfold update_tickets. expose_quals.
  assert (Hhit : forall r, In r (tbl_tickets db) ->
                           (tickets.id r =? tickets.id t) = true -> r = t).
  { intros r Hinr Hid. apply Nat.eqb_eq in Hid.
    exact (@pkey_same_ticket db r t Hpk Hinr Hin Hid). }
  match goal with
  | |- (if forallb ?f ?l then _ else _) = _ =>
      assert (Hall : forallb f l = true)
  end.
  { apply forallb_forall. intros r Hinr.
    destruct (tickets.id r =? tickets.id t) eqn:Hid; [|reflexivity].
    rewrite (Hhit r Hinr Hid). rewrite Hr, Hu. cbn [andb negb orb].
    rewrite Hu', Hr'. reflexivity. }
  rewrite Hall. clear Hall.
  rewrite first_error_none.
  - f_equal. f_equal. apply map_ext_in. intros r Hinr.
    destruct (tickets.id r =? tickets.id t) eqn:Hid; [|reflexivity].
    rewrite (Hhit r Hinr Hid). rewrite Hr, Hu. reflexivity.
  - intros r Hinr.
    destruct (tickets.id r =? tickets.id t) eqn:Hid; [|reflexivity].
    rewrite (Hhit r Hinr Hid). rewrite Hr, Hu. cbn [andb]. exact Hfk.
Qed.

Lemma in_map_patched db t p :
  In t (tbl_tickets db) ->
  In (patch_ticket p t)
     (map (fun r => if tickets.id r =? tickets.id t then patch_ticket p r else r)
          (tbl_tickets db)).
Proof.
  intros Hin. apply in_map_iff. exists t. split; [|assumption].
  now rewrite Nat.eqb_refl.
Qed.

(** A patch of the status alone changes nothing a policy looks at, and no
    reference. *)
Lemma status_change_keeps_rights db uid t s :
  can_read_ticket db uid (with_status t s) = can_read_ticket db uid t
  /\ can_update_ticket db uid (with_status t s) = can_update_ticket db uid t
  /\ ticket_fk_error db t (with_status t s) = None.
Proof.
  split; [reflexivity|]. split; [reflexivity|].
  unfold ticket_fk_error, with_status, patch_ticket, status_payload. simpl.
  rewrite Nat.eqb_refl. simpl.
  destruct (tickets.assignee_id t) as [a|]; simpl; [rewrite Nat.eqb_refl|]; reflexivity.
Qed.

(** C6, as the store decides.  For a ticket [t] and a user who may read
    [t] and passes the update rule: the store accepts setting the status to
    any of the three values, whatever the status was, and the ticket then
    has that status and is otherwise as it was; so does a drop on any
    column of the board; and the dialog's single update, which sets title,
    description, type, priority, status and assignee together, is accepted
    when the user owns the project or stays the assignee and the new
    assignee, if any, has a profile: the ticket then has the six values of
    the form and keeps its project, reporter, attachment and creation
    time. *)
Theorem every_status_change_is_accepted db uid t
  (Hpk : tickets_pkey db)
  (Hin : In t (tbl_tickets db))
  (Hread : can_read_ticket db uid t = Some true)
  (Hupd : can_update_ticket db uid t = Some true) :
  (forall s', exists db',
      update_tickets current_catalog db uid (tickets.id t) (status_payload s') = Ok db'
      /\ In (tickets.mk (tickets.id t) (tickets.title t) (tickets.description t)
                (tickets.type t) (tickets.priority t) s' (tickets.project_id t)
                (tickets.reporter_id t) (tickets.assignee_id t)
                (tickets.attachment_url t) (tickets.created_at t))
            (tbl_tickets db'))
  /\ (forall board s' i src,
        status_eqb s' (fst src) && (i =? snd src) = false ->
        exists db' board',
          handleDragEnd current_catalog db uid board (mkdrop (Some (s', i)) src (tickets.id t))
          = (db', board', Some (toast_success "Ticket status updated successfully"))
          /\ In (tickets.mk (tickets.id t) (tickets.title t) (tickets.description t)
                    (tickets.type t) (tickets.priority t) s' (tickets.project_id t)
                    (tickets.reporter_id t) (tickets.assignee_id t)
                    (tickets.attachment_url t) (tickets.created_at t))
                (tbl_tickets db'))
  /\ (forall e,
        owns db uid (tickets.project_id t) \/ ed_assignee_id e = Some uid ->
        ed_assignee_id e = None \/ ed_assignee_id e = tickets.assignee_id t
        \/ (exists a, ed_assignee_id e = Some a /\ has_profile db a = true) ->
        exists db',
          handleUpdateTicket current_catalog db (Some uid) (tickets.id t) e
          = (db', Some (toast_success "Ticket updated successfully!"))
          /\ In (tickets.mk (tickets.id t) (ed_title e) (ed_description e) (ed_type e)
                    (ed_priority e) (ed_status e) (tickets.project_id t)
                    (tickets.reporter_id t) (ed_assignee_id e)
                    (tickets.attachment_url t) (tickets.created_at t))
                (tbl_tickets db')).
Proof.
  assert (Hstatus : forall s',
             update_tickets current_catalog db uid (tickets.id t) (status_payload s')
             = Ok (with_tickets db
                     (map (fun r => if tickets.id r =? tickets.id t
                                    then patch_ticket (status_payload s') r else r)
                          (tbl_tickets db)))).
  { intros s'. destruct (status_change_keeps_rights db uid t s') as (Hr & Hu & Hfk).
    unfold with_status in Hr, Hu, Hfk.
    apply update_tickets_current_ok; try assumption; congruence. }
  split; [|split].
  - intros s'. eexists. split; [apply Hstatus|].
    change (In (patch_ticket (status_payload s') t)
               (map (fun r => if tickets.id r =? tickets.id t
                              then patch_ticket (status_payload s') r else r)
                    (tbl_tickets db))).
    now apply in_map_patched.
  - intros board s' i src Hmoved. unfold handleDragEnd. cbn [destination source draggableId].
    rewrite Hmoved, Hstatus. do 2 eexists. split; [reflexivity|].
    change (In (patch_ticket (status_payload s') t)
               (map (fun r => if tickets.id r =? tickets.id t
                              then patch_ticket (status_payload s') r else r)
                    (tbl_tickets db))).
    now apply in_map_patched.
  - intros e Hkeep Hfk. unfold handleUpdateTicket.
    rewrite (@update_tickets_current_ok db uid t (edit_payload e)); try assumption.
    + eexists. split; [reflexivity|].
      change (In (patch_ticket (edit_payload e) t)
                 (map (fun r => if tickets.id r =? tickets.id t
                                then patch_ticket (edit_payload e) r else r)
                      (tbl_tickets db))).
      now apply in_map_patched.
    + apply ticket_update_rule. simpl. tauto.
    + unfold ticket_fk_error. simpl. rewrite Nat.eqb_refl. simpl.
      destruct Hfk as [-> | [-> | (a & -> & Ha)]].
      * now destruct (opt_uuid_eqb (tickets.assignee_id t) None).
      * destruct (tickets.assignee_id t) as [a|]; simpl;
          [rewrite Nat.eqb_refl|]; reflexivity.
      * rewrite Ha. simpl. now rewrite andb_false_r.
Qed.

Lemma every_status_change_is_accepted_witness :
  tickets_pkey sample_db
  /\ In ticket100 (tbl_tickets sample_db)
  /\ can_read_ticket sample_db bob ticket100 = Some true
  /\ can_update_ticket sample_db bob ticket100 = Some true
  /\ (forall s', exists db',
        update_tickets current_catalog sample_db bob 100 (status_payload s') = Ok db'
        /\ In (tickets.mk 100 "Checkout fails" None bug medium s' 10 bob (Some bob)
                  None 50%Z)
              (tbl_tickets db')).
Proof.
  assert (Hpk : tickets_pkey sample_db).
  { unfold tickets_pkey. simpl. repeat constructor. simpl. tauto. }
  assert (Hin : In ticket100 (tbl_tickets sample_db)) by (simpl; left; reflexivity).
  assert (Hr : can_read_ticket sample_db bob ticket100 = Some true) by reflexivity.
  assert (Hu : can_update_ticket sample_db bob ticket100 = Some true) by reflexivity.
  split; [exact Hpk|]. split; [exact Hin|]. split; [exact Hr|]. split; [exact Hu|].
  exact (proj1 (@every_status_change_is_accepted sample_db bob ticket100 Hpk Hin Hr Hu)).
Defined.

(** C6 as stated fails: Carol is the assignee of ticket 102 and so passes
    the update rule, but she holds no membership row and owns nothing, so
    the ticket is not in her view.  Her update to [done] is answered without
    an error and changes nothing: the ticket is still [todo]; the board
    nevertheless reports success. *)
Lemma assignee_outside_project_cannot_set_status :
  can_update_ticket outsider_db carol ticket102 = Some true
  /\ can_read_ticket outsider_db carol ticket102 = Some false
  /\ update_tickets current_catalog outsider_db carol 102 (status_payload done)
     = Ok outsider_db
  /\ fst (fst (handleDragEnd current_catalog outsider_db carol [ticket102]
                 (mkdrop (Some (done, 0)) (todo, 0) 102)))
     = outsider_db
  /\ map tickets.status (tbl_tickets outsider_db) = [todo; todo]
  /\ ~ (exists db',
          update_tickets current_catalog outsider_db carol 102 (status_payload done)
          = Ok db'
          /\ exists t', In t' (tbl_tickets db') /\ tickets.id t' = 102
                        /\ tickets.status t' = done).
Proof.
  assert (Hup : update_tickets current_catalog outsider_db carol 102 (status_payload done)
                = Ok outsider_db) by (vm_compute; reflexivity).
  split; [vm_compute; reflexivity|]. split; [vm_compute; reflexivity|].
  split; [exact Hup|]. split; [vm_compute; reflexivity|]. split; [reflexivity|].
  intros (db' & H & t' & Hin & _ & Hs). rewrite Hup in H. injection H as <-.
  simpl in Hin. destruct Hin as [<- | [<- | []]]; discriminate.
Qed.

(** ** References of tickets and comments *)

(** C7 as stated fails: the update rule looks at the caller, not at the
    columns set.  Alice owns projects 10 and 11; the store accepts her
    update that moves ticket 100 from project 10 to project 11. *)
Lemma owner_can_move_ticket_to_other_project :
  exists db',
    update_tickets current_catalog sample_db alice 100
      (mkpatch None None None None None None (Some 11)) = Ok db'
    /\ map ticket_reference (tbl_tickets sample_db) = [(100, 10)]
    /\ map ticket_reference (tbl_tickets db') = [(100, 11)].
Proof. eexists. split; [vm_compute; reflexivity|]. split; reflexivity. Qed.

Lemma update_tickets_keeps_references cat db uid target p db' :
  set_project_id p = None ->
  update_tickets cat db uid target p = Ok db' ->
  map ticket_reference (tbl_tickets db') = map ticket_reference (tbl_tickets db)
  /\ tbl_comments db' = tbl_comments db.
Proof.
  intros Hp. unfold update_tickets.
  destruct (using_qual max_nesting cat FOR_SELECT Ttickets) as [qs|]; [|discriminate].
  destruct (using_qual max_nesting cat FOR_UPDATE Ttickets) as [qu|]; [|discriminate].
  destruct (check_qual max_nesting cat FOR_UPDATE Ttickets) as [qc|]; [|discriminate].
  destruct (forallb _ _); [|discriminate].
  destruct (first_error _ _); [discriminate|].
  intros H. injection H as <-. split; [|reflexivity].
  simpl. rewrite map_map. apply map_ext. intros r.
  destruct (_ && _); [|reflexivity].
  unfold ticket_reference, patch_ticket. simpl. now rewrite Hp.
Qed.

Lemma step_keeps_references {js : engine} cat db op :
  map ticket_reference (tbl_tickets (step cat db op)) = map ticket_reference (tbl_tickets db)
  /\ exists added, tbl_comments (step cat db op) = tbl_comments db ++ added.
Proof.
  destruct op as [uid board result | user ticket_id e | user ticket_id s new_id now]; simpl.
  - unfold handleDragEnd.
    destruct (destination result) as [[d i]|]; [|split; [reflexivity | exists []; now rewrite app_nil_r]].
    destruct (status_eqb d (fst (source result)) && (i =? snd (source result)));
      [split; [reflexivity | exists []; now rewrite app_nil_r]|].
    destruct (update_tickets cat db uid (draggableId result) (status_payload d)) as [db'|err] eqn:Hup;
      [|split; [reflexivity | exists []; now rewrite app_nil_r]].
    simpl. apply update_tickets_keeps_references in Hup; [|reflexivity].
    destruct Hup as [Ht Hc]. split; [assumption|]. exists []. now rewrite app_nil_r.
  - unfold handleUpdateTicket.
    destruct user as [uid|]; [|split; [reflexivity | exists []; now rewrite app_nil_r]].
    destruct (update_tickets cat db uid ticket_id (edit_payload e)) as [db'|err] eqn:Hup;
      [|split; [reflexivity | exists []; now rewrite app_nil_r]].
    simpl. apply update_tickets_keeps_references in Hup; [|reflexivity].
    destruct Hup as [Ht Hc]. split; [assumption|]. exists []. now rewrite app_nil_r.
  - unfold handleAddComment.
    destruct user as [uid|]; [|split; [reflexivity | exists []; now rewrite app_nil_r]].
    destruct (blank s); [split; [reflexivity | exists []; now rewrite app_nil_r]|].
    destruct (insert_comment cat db uid new_id now s ticket_id uid None) as [db'|err] eqn:Hins;
      [|split; [reflexivity | exists []; now rewrite app_nil_r]].
    simpl. unfold insert_comment in Hins.
    destruct (check_qual max_nesting cat FOR_INSERT Tcomments) as [qc|]; [|discriminate].
    repeat match type of Hins with
           | (if ?b then _ else _) = _ => destruct b; [discriminate|]
           end.
    injection Hins as <-. split; [reflexivity|]. simpl. eauto.
Qed.

(** C7, as the code has it: the updates the client issues (a drop on the
    board, the dialog's save, a new comment) never change the project of a
    ticket, and leave every existing comment as it is, its ticket included;
    this holds for every sequence of such updates, whatever they are
    applied to and whatever the engine trims.  The store's rules themselves do not protect the two
    references. *)
Theorem client_updates_keep_references {js : engine} cat db ops :
  map ticket_reference (tbl_tickets (run cat db ops))
  = map ticket_reference (tbl_tickets db)
  /\ exists added, tbl_comments (run cat db ops) = tbl_comments db ++ added.
Proof.
  unfold run. revert db. induction ops as [|op ops IH]; intros db; simpl.
  - split; [reflexivity|]. exists []. now rewrite app_nil_r.
  - destruct (IH (step cat db op)) as [Ht [added Hc]].
    destruct (step_keeps_references cat db op) as [Ht' [added' Hc']].
    split; [congruence|]. exists (added' ++ added). rewrite Hc, Hc'. now rewrite app_assoc.
Qed.

(** ** Membership rows *)

Lemma member_existsb db u p :
  member db u p ->
  existsb (fun m => (project_members.project_id m =? p) && (project_members.user_id m =? u))
          (tbl_project_members db) = true.
Proof.
  intros (m & Hin & Hp & Hu). apply existsb_exists. exists m. split; [assumption|].
  subst. now rewrite !Nat.eqb_refl.
Qed.

(** C8. When a membership row for the pair already exists, a caller allowed
    to add members (the project owner, or the user joining) who inserts the
    pair again gets a unique-constraint violation; no row is added. *)
Theorem second_membership_is_a_conflict db uid new_id now p u role invited_by
  (Hm : member db u p)
  (Hmay : can_create_member db uid
            (project_members.mk new_id p u role invited_by now) = Some true) :
  exists c,
    insert_project_member current_catalog db uid new_id now p u role invited_by
    = Err (unique_violation c).
Proof.
  unfold insert_project_member.
  unfold can_create_member, admits in Hmay.
  destruct (check_qual max_nesting current_catalog FOR_INSERT Tproject_members) as [qc|];
    [|discriminate].
  simpl in Hmay. injection Hmay as ->. simpl negb. cbn iota.
  destruct (existsb (fun m => project_members.id m =? new_id) (tbl_project_members db)).
  - eexists. reflexivity.
  - rewrite (member_existsb Hm). eexists. reflexivity.
Qed.

Lemma second_membership_is_a_conflict_witness :
  member sample_db bob 10
  /\ can_create_member sample_db alice
       (project_members.mk 21 10 bob viewer (Some alice) 90%Z) = Some true
  /\ exists c,
       insert_project_member current_catalog sample_db alice 21 90%Z 10 bob viewer
         (Some alice) = Err (unique_violation c).
Proof.
  assert (Hm : member sample_db bob 10).
  { eexists. simpl. split; [left; reflexivity|]. split; reflexivity. }
  assert (Hmay : can_create_member sample_db alice
                   (project_members.mk 21 10 bob viewer (Some alice) 90%Z) = Some true)
    by reflexivity.
  split; [exact Hm|]. split; [exact Hmay|].
  exact (@second_membership_is_a_conflict sample_db alice 21 90%Z 10 bob viewer
           (Some alice) Hm Hmay).
Defined.

(** ** The comment thread *)

Lemma insert_by_created_at_perm c l :
  Permutation (insert_by_created_at c l) (c :: l).
Proof.
  induction l as [|x l IH]; simpl; [reflexivity|].
  destruct (comments.created_at c <=? comments.created_at x)%Z; [reflexivity|].
  rewrite IH. apply perm_swap.
Qed.

Lemma order_by_created_at_perm l : Permutation (order_by_created_at l) l.
Proof.
  induction l as [|c l IH]; simpl; [reflexivity|].
  rewrite insert_by_created_at_perm. now constructor.
Qed.

Lemma insert_by_created_at_sorted c l :
  StronglySorted by_time l -> StronglySorted by_time (insert_by_created_at c l).
Proof.
  induction l as [|x l IH]; simpl; intros Hs.
  - repeat constructor.
  - destruct (comments.created_at c <=? comments.created_at x)%Z eqn:Hle.
    + apply Z.leb_le in Hle. constructor; [assumption|].
      constructor; [exact Hle|].
      inversion Hs as [|? ? _ Hall]; subst.
      eapply Forall_impl; [|exact Hall]. unfold by_time. intros y Hy. lia.
    + apply Z.leb_gt in Hle. inversion Hs as [|? ? Hs' Hall]; subst.
      constructor; [now apply IH|].
      eapply Permutation_Forall; [symmetry; apply insert_by_created_at_perm|].
      constructor; [unfold by_time; lia | assumption].
Qed.

Lemma order_by_created_at_sorted l : StronglySorted by_time (order_by_created_at l).
Proof.
  induction l as [|c l IH]; simpl; [constructor|].
  now apply insert_by_created_at_sorted.
Qed.

(** C9, as the code has it: the query behind [fetchComments] always
    answers, and its answer is the comments of the ticket that the reader
    may read, each once, in ascending order of creation time.  The query
    names no second sort key. *)
Theorem comments_come_in_creation_order db uid ticket_id :
  exists l,
    query_comments current_catalog db uid ticket_id = Ok l
    /\ StronglySorted by_time l
    /\ Permutation l
         (filter (fun c => comments.ticket_id c =? ticket_id)
                 (filter (fun c => allowed (can_read_comment db uid c))
                         (tbl_comments db))).
Proof.
  unfold query_comments. expose_quals. eexists. split; [reflexivity|].
  split; [apply order_by_created_at_sorted|].
  rewrite order_by_created_at_perm. apply Permutation_refl'. f_equal.
  apply filter_ext. intros c. unfold allowed.
  now destruct (eval db uid _ (comment_tuple c)).
Qed.

(** C9 as stated fails: comments 201 and 200 of ticket 100 were created at
    the same instant; the answer lists 201 before 200. *)
Lemma equal_timestamps_not_ordered_by_id :
  exists l,
    query_comments current_catalog sample_db bob 100 = Ok l
    /\ l = [comment201; comment200]
    /\ ~ StronglySorted by_time_then_id l.
Proof.
  eexists. split; [vm_compute; reflexivity|]. split; [reflexivity|].
  intros Hs. inversion Hs as [|? ? _ Hall]; subst.
  inversion Hall as [|? ? Hlt _]; subst.
  unfold by_time_then_id in Hlt. simpl in Hlt.
  destruct Hlt as [Hlt | [_ Hle]]; [lia | lia].
Qed.

(** ** Deleting a profile *)




(** * Further properties of the policies *)

Lemma rewrite_in_select n cat c out t w :
  rewrite (S n) cat (EInSelect c out t w)
  = match disjunction (map (rewrite n cat) (usings cat FOR_SELECT t)),
          rewrite (S n) cat w with
    | Some q, Some w' => Some (XInSelect c out t q w')
    | _, _ => None
    end.
Proof. reflexivity. Qed.

Lemma rewrite_or n cat a b :
  rewrite n cat (EOr a b)
  = match rewrite n cat a, rewrite n cat b with
    | Some a', Some b' => Some (XOr a' b')
    | _, _ => None
    end.
Proof. destruct n; reflexivity. Qed.

Lemma rewrite_and n cat a b :
  rewrite n cat (EAnd a b)
  = match rewrite n cat a, rewrite n cat b with
    | Some a', Some b' => Some (XAnd a' b')
    | _, _ => None
    end.
Proof. destruct n; reflexivity. Qed.

Lemma initial_membership_subquery_recurses n c out w :
  rewrite n initial_catalog (EInSelect c out Tproject_members w) = None.
Proof.
  revert c out w. induction n as [|n IH]; intros c out w; [reflexivity|].
  rewrite rewrite_in_select.
  change (usings initial_catalog FOR_SELECT Tproject_members)
    with [EInSelect c_project_id c_project_id Tproject_members members_of_caller;
          EInSelect c_project_id c_id Tprojects owned_by_caller].
  cbn [map disjunction]. now rewrite IH.
Qed.

(** X1. Under the catalog as first deployed, the read rules of projects,
    project members, tickets and comments all run into the membership
    table's rule on itself: at no nesting depth does the store get a row
    filter for any of the four tables. *)
Theorem initial_catalog_recurses_on_every_read (n : nat) :
  using_qual n initial_catalog FOR_SELECT Tprojects = None
  /\ using_qual n initial_catalog FOR_SELECT Tproject_members = None
  /\ using_qual n initial_catalog FOR_SELECT Ttickets = None
  /\ using_qual n initial_catalog FOR_SELECT Tcomments = None.
Proof.
  unfold using_qual. repeat split.
  - change (usings initial_catalog FOR_SELECT Tprojects)
      with [EOr (EInSelect c_id c_project_id Tproject_members members_of_caller)
                (EUidEq c_owner_id)].
    cbn [map disjunction]. rewrite rewrite_or.
    now rewrite initial_membership_subquery_recurses.
  - change (usings initial_catalog FOR_SELECT Tproject_members)
      with [EInSelect c_project_id c_project_id Tproject_members members_of_caller;
            EInSelect c_project_id c_id Tprojects owned_by_caller].
    cbn [map disjunction]. now rewrite initial_membership_subquery_recurses.
  - change (usings initial_catalog FOR_SELECT Ttickets)
      with [EInSelect c_project_id c_project_id Tproject_members members_of_caller].
    cbn [map disjunction]. now rewrite initial_membership_subquery_recurses.
  - change (usings initial_catalog FOR_SELECT Tcomments)
      with [EInSelect c_ticket_id c_id Ttickets
              (EInSelect c_project_id c_project_id Tproject_members members_of_caller)].
    cbn [map disjunction]. destruct n as [|n]; [reflexivity|].
    rewrite rewrite_in_select. rewrite initial_membership_subquery_recurses.
    now destruct (disjunction _).
Qed.

Lemma disjunction_map_mono (f g : sexpr -> option xexpr) (l : list sexpr) (q : xexpr) :
  (forall e x, In e l -> f e = Some x -> g e = Some x) ->
  disjunction (map f l) = Some q -> disjunction (map g l) = Some q.
Proof.
  revert q. induction l as [|e l IH]; intros q H; simpl; [tauto|].
  destruct (f e) as [x|] eqn:Hf; [|discriminate].
  rewrite (H e x (or_introl eq_refl) Hf).
  destruct (disjunction (map f l)) as [y|] eqn:Hd; [|discriminate].
  intros Hq. rewrite (IH y); [assumption | | reflexivity].
  intros e' x' Hin. apply H. now right.
Qed.

Lemma rewrite_S n cat e x :
  rewrite n cat e = Some x -> rewrite (S n) cat e = Some x.
Proof.
  revert e x. induction n as [|n IHn]; intros e; induction e as
    [|c|c out t w IHw|c|a IHa b IHb|a IHa b IHb]; intros x;
    try (intros H; exact H).
  - discriminate.
  - rewrite !rewrite_or.
    destruct (rewrite 0 cat a) as [a'|]; [|discriminate].
    destruct (rewrite 0 cat b) as [b'|]; [|discriminate].
    now rewrite (IHa a' eq_refl), (IHb b' eq_refl).
  - rewrite !rewrite_and.
    destruct (rewrite 0 cat a) as [a'|]; [|discriminate].
    destruct (rewrite 0 cat b) as [b'|]; [|discriminate].
    now rewrite (IHa a' eq_refl), (IHb b' eq_refl).
  - rewrite (rewrite_in_select (S n)), (rewrite_in_select n).
    destruct (disjunction (map (rewrite n cat) (usings cat FOR_SELECT t))) as [q|] eqn:Hq;
      [|discriminate].
    rewrite (@disjunction_map_mono (rewrite n cat) (rewrite (S n) cat) _ q);
      [ | intros e x' _; apply IHn | assumption].
    destruct (rewrite (S n) cat w) as [w'|]; [|discriminate].
    now rewrite (IHw w' eq_refl).
  - rewrite !rewrite_or.
    destruct (rewrite (S n) cat a) as [a'|]; [|discriminate].
    destruct (rewrite (S n) cat b) as [b'|]; [|discriminate].
    now rewrite (IHa a' eq_refl), (IHb b' eq_refl).
  - rewrite !rewrite_and.
    destruct (rewrite (S n) cat a) as [a'|]; [|discriminate].
    destruct (rewrite (S n) cat b) as [b'|]; [|discriminate].
    now rewrite (IHa a' eq_refl), (IHb b' eq_refl).
Qed.

(** The nesting bound of [rewrite] decides only whether there is a row
    filter, never which: a filter found at some depth is the filter found at
    every greater depth, so [max_nesting] can be any bound that is enough
    for the deployed policies. *)
Lemma rewriting_is_stable_in_depth cat cmd t n k q :
  using_qual n cat cmd t = Some q -> using_qual (n + k) cat cmd t = Some q.
Proof.
  intros H. induction k as [|k IH].
  - now rewrite Nat.add_0_r.
  - rewrite Nat.add_succ_r. unfold using_qual in *.
    eapply disjunction_map_mono; [|exact IH].
    intros e x _. apply rewrite_S.
Qed.

Lemma existsb_filter_negb {A : Type} (f : A -> bool) (l : list A) :
  existsb f (filter (fun x => negb (f x)) l) = false.
Proof.
  induction l as [|x l IH]; simpl; [reflexivity|].
  destruct (f x) eqn:Hf; simpl; [assumption|]. now rewrite Hf.
Qed.

(** X3. The pattern of the later migrations, DROP POLICY IF EXISTS followed
    by CREATE POLICY of the same name on the same table, goes through on
    every catalog, and leaves the new policy as the only one of that name on
    that table. *)
Theorem drop_then_create_always_succeeds (cat : catalog) (p : policy) :
  migrate cat [DROP_POLICY_IF_EXISTS (pol_name p) (pol_table p); CREATE_POLICY p]
  = Some (filter (fun q => negb (names (pol_name p) (pol_table p) q)) cat ++ [p])
  /\ filter (names (pol_name p) (pol_table p))
            (filter (fun q => negb (names (pol_name p) (pol_table p) q)) cat ++ [p])
     = [p].
Proof.
  split.
  - simpl. now rewrite existsb_filter_negb.
  - rewrite filter_app. simpl.
    assert (Hself : names (pol_name p) (pol_table p) p = true).
    { unfold names. rewrite String.eqb_refl. now destruct (pol_table p). }
    rewrite Hself.
    assert (Hnone : forall l, filter (names (pol_name p) (pol_table p))
                        (filter (fun q => negb (names (pol_name p) (pol_table p) q)) l) = []).
    { induction l as [|x l IH]; simpl; [reflexivity|].
      destruct (names (pol_name p) (pol_table p) x) eqn:Hx; simpl; [assumption|].
      now rewrite Hx. }
    now rewrite Hnone.
Qed.

Lemma project_write_rules db uid p :
  (can_create_project db uid p = Some true <-> projects.owner_id p = uid)
  /\ (can_update_project db uid p = Some true <-> projects.owner_id p = uid)
  /\ (can_delete_project db uid p = Some true <-> projects.owner_id p = uid).
Proof.
  split; [|split].
  - expose_quals. eapply decision_iff; [reflexivity|].
    rewrite eval_or, eval_uid_eq, eval_false. simpl. split; [intros [H|[]]|intros H; left]; congruence.
  - expose_quals. eapply decision_iff; [reflexivity|].
    rewrite eval_or, eval_uid_eq, eval_false. simpl. split; [intros [H|[]]|intros H; left]; congruence.
  - expose_quals. eapply decision_iff; [reflexivity|].
    rewrite eval_or, eval_uid_eq, eval_false. simpl. split; [intros [H|[]]|intros H; left]; congruence.
Qed.

(** X4. Projects: a project may be created only with the caller as owner,
    and updated or deleted only by its owner. *)
Theorem project_rules db uid p :
  (can_create_project db uid p = Some true <-> projects.owner_id p = uid)
  /\ (can_update_project db uid p = Some true <-> projects.owner_id p = uid)
  /\ (can_delete_project db uid p = Some true <-> projects.owner_id p = uid).
Proof. apply project_write_rules. Qed.

(** X5. Membership rows: only the owner of the project may update or delete
    one, so a member cannot leave a project on their own; a row may be
    added by the project's owner or by the user the row is for. *)
Theorem membership_rules db uid m :
  (can_update_member db uid m = Some true
   <-> owns db uid (project_members.project_id m))
  /\ (can_delete_member db uid m = Some true
      <-> owns db uid (project_members.project_id m))
  /\ (can_create_member db uid m = Some true
      <-> project_members.user_id m = uid
          \/ owns db uid (project_members.project_id m)).
Proof.
  split; [|split].
  - expose_quals. eapply decision_iff; [reflexivity|].
    rewrite eval_or, eval_owned_subquery, eval_false. simpl. split.
    + intros [(v & Hv & H) | []]. congruence.
    + intros H. left. eauto.
  - expose_quals. eapply decision_iff; [reflexivity|].
    rewrite eval_or, eval_owned_subquery, eval_false. simpl. split.
    + intros [(v & Hv & H) | []]. congruence.
    + intros H. left. eauto.
  - apply member_create_rule.
Qed.

(** X6. Tickets are deleted by the owner of their project only; comments
    are updated and deleted by their author only, the project owner
    included among those who may not; profiles are readable by everyone,
    updatable by their user, and no policy lets anyone delete one. *)
Theorem remaining_rules db uid (t : tickets.row) (c : comments.row) (p : profiles.row) :
  (can_delete_ticket db uid t = Some true <-> owns db uid (tickets.project_id t))
  /\ (can_update_comment db uid c = Some true <-> comments.author_id c = uid)
  /\ (can_delete_comment db uid c = Some true <-> comments.author_id c = uid)
  /\ can_read_profile db uid p = Some true
  /\ (can_update_profile db uid p = Some true <-> profiles.id p = uid)
  /\ can_delete_profile db uid p = Some false.
Proof.
  split; [|split; [|split; [|split; [|split]]]].
  - expose_quals. eapply decision_iff; [reflexivity|].
    rewrite eval_or, eval_owned_subquery, eval_false. simpl. split.
    + intros [(v & Hv & H) | []]. congruence.
    + intros H. left. eauto.
  - expose_quals. eapply decision_iff; [reflexivity|].
    rewrite eval_or, eval_uid_eq, eval_false. simpl.
    split; [intros [H|[]]|intros H; left]; congruence.
  - expose_quals. eapply decision_iff; [reflexivity|].
    rewrite eval_or, eval_uid_eq, eval_false. simpl.
    split; [intros [H|[]]|intros H; left]; congruence.
  - reflexivity.
  - expose_quals. eapply decision_iff; [reflexivity|].
    rewrite eval_or, eval_uid_eq, eval_false. simpl.
    split; [intros [H|[]]|intros H; left]; congruence.
  - reflexivity.
Qed.

Lemma has_project_true db p :
  has_project db p = true <-> exists r, In r (tbl_projects db) /\ projects.id r = p.
Proof.
  unfold has_project. rewrite existsb_exists.
  split; intros (r & Hin & H); exists r; (split; [assumption|]); now apply Nat.eqb_eq.
Qed.

Lemma member_existsb_false db u p :
  ~ member db u p ->
  existsb (fun m => (project_members.project_id m =? p) && (project_members.user_id m =? u))
          (tbl_project_members db) = false.
Proof.
  intros Hn. apply not_true_is_false. intros H. apply Hn.
  apply existsb_exists in H. destruct H as (m & Hin & Hm).
  apply andb_true_iff in Hm. destruct Hm as [Hp Hu].
  apply Nat.eqb_eq in Hp, Hu. now exists m.
Qed.

(** X7. Joining needs no invitation: the insert rule for membership rows
    only asks that the row be for the caller.  Any user with a profile can
    add themselves to any existing project they are not yet in, in any
    role, naming no inviter or any user with a profile as inviter (a
    profile is the profile of a user of the identity service, so the
    inviter's reference holds); from then on the project is in their
    accessible set and its tickets are readable to them. *)
Theorem anyone_can_join_any_project db uid new_id now p role invited_by
  (Hproject : has_project db p = true)
  (Hprofile : has_profile db uid = true)
  (Hfresh : existsb (fun m => project_members.id m =? new_id) (tbl_project_members db)
            = false)
  (Hnew : ~ member db uid p)
  (Hinviter : match invited_by with
              | Some i => has_profile db i = true
              | None => True
              end) :
  exists db',
    insert_project_member current_catalog db uid new_id now p uid role invited_by = Ok db'
    /\ accessible db' uid p
    /\ forall t, tickets.project_id t = p -> can_read_ticket db' uid t = Some true.
Proof.
  unfold insert_project_member. expose_quals.
  assert (Hchk : eval db uid
            (XOr (XUidEq c_user_id)
               (XOr (XInSelect c_project_id c_id Tprojects
                       (XOr (XOr (XInUserProjectIds c_id) (XUidEq c_owner_id)) XFalse)
                       (XUidEq c_owner_id))
                    XFalse))
            (member_tuple (project_members.mk new_id p uid role invited_by now)) = true).
  { apply eval_or. left. apply eval_uid_eq. reflexivity. }
  assert (Hfk : match invited_by with
                | Some i => negb (known_user db uid i)
                | None => false
                end = false).
  { destruct invited_by as [i|]; [|reflexivity].
    unfold known_user. rewrite Hinviter. now rewrite orb_true_r. }
  rewrite Hchk, Hfresh, (member_existsb_false Hnew), Hproject, Hprofile. cbn [negb].
  rewrite Hfk.
  eexists. split; [reflexivity|].
  assert (Hacc : accessible
                   (with_project_members db
                      (tbl_project_members db
                       ++ [project_members.mk new_id p uid role invited_by now])) uid p).
  { apply in_get_user_project_ids. right. eexists. split.
    - simpl. apply in_or_app. right. left. reflexivity.
    - split; reflexivity. }
  split; [exact Hacc|].
  intros t Ht. apply ticket_read_rule. now rewrite Ht.
Qed.

Lemma anyone_can_join_any_project_witness :
  has_project sample_db 11 = true
  /\ has_profile sample_db carol = true
  /\ existsb (fun m => project_members.id m =? 21) (tbl_project_members sample_db) = false
  /\ ~ member sample_db carol 11
  /\ has_profile sample_db bob = true
  /\ exists db',
       insert_project_member current_catalog sample_db carol 21 90%Z 11 carol admin
         (Some bob)
       = Ok db'
       /\ accessible db' carol 11.
Proof.
  assert (H1 : has_project sample_db 11 = true) by reflexivity.
  assert (H2 : has_profile sample_db carol = true) by reflexivity.
  assert (H3 : existsb (fun m => project_members.id m =? 21)
                 (tbl_project_members sample_db) = false) by reflexivity.
  assert (H4 : ~ member sample_db carol 11).
  { intros (m & Hin & Hp & _). simpl in Hin. destruct Hin as [<- | []]. discriminate. }
  assert (H5 : has_profile sample_db bob = true) by reflexivity.
  split; [exact H1|]. split; [exact H2|]. split; [exact H3|]. split; [exact H4|].
  split; [exact H5|].
  destruct (@anyone_can_join_any_project sample_db carol 21 90%Z 11 admin (Some bob)
              H1 H2 H3 H4 H5)
    as (db' & Hins & Hacc & _).
  exists db'. split; assumption.
Defined.

(** * Further properties of the client *)

Lemma with_tickets_same db : with_tickets db (tbl_tickets db) = db.
Proof. now destruct db. Qed.

Lemma Forall2_map_self {A : Type} (R : A -> A -> Prop) (f : A -> A) (l : list A) :
  (forall x, R x (f x)) -> Forall2 R l (map f l).
Proof. intros H. induction l; simpl; constructor; auto. Qed.

Lemma update_tickets_shape cat db uid target p db' :
  update_tickets cat db uid target p = Ok db' ->
  exists hit : tickets.row -> bool,
    (forall r, hit r = true -> tickets.id r = target)
    /\ db' = with_tickets db
               (map (fun r => if hit r then patch_ticket p r else r) (tbl_tickets db)).
Proof.
  unfold update_tickets.
  destruct (using_qual max_nesting cat FOR_SELECT Ttickets) as [qs|]; [|discriminate].
  destruct (using_qual max_nesting cat FOR_UPDATE Ttickets) as [qu|]; [|discriminate].
  destruct (check_qual max_nesting cat FOR_UPDATE Ttickets) as [qc|]; [|discriminate].
  destruct (forallb _ _); [|discriminate].
  destruct (first_error _ _); [discriminate|].
  intros H. injection H as <-.
  exists (fun r => (tickets.id r =? target) && eval db uid qs (ticket_tuple r)
                   && eval db uid qu (ticket_tuple r)).
  split; [|reflexivity].
  intros r Hr. apply andb_true_iff in Hr. destruct Hr as [Hr _].
  apply andb_true_iff in Hr. destruct Hr as [Hr _]. now apply Nat.eqb_eq.
Qed.

(** X8. Whatever the policies and whatever is dropped where, a drop on the
    board changes nothing in the store but the status of tickets whose id is
    the dragged card's: the other tables stay as they are, no ticket appears
    or disappears, and every ticket is either untouched or the dragged one
    with a new status. *)
Theorem drag_changes_only_the_dragged_status cat db uid board result :
  let db' := fst (fst (handleDragEnd cat db uid board result)) in
  tbl_profiles db' = tbl_profiles db
  /\ tbl_projects db' = tbl_projects db
  /\ tbl_project_members db' = tbl_project_members db
  /\ tbl_comments db' = tbl_comments db
  /\ Forall2 (fun t t' => t' = t
                          \/ (tickets.id t = draggableId result
                              /\ exists s, t' = with_status t s))
             (tbl_tickets db) (tbl_tickets db').
Proof.
  assert (Hsame : Forall2 (fun t t' => t' = t
                             \/ (tickets.id t = draggableId result
                                 /\ exists s, t' = with_status t s))
                    (tbl_tickets db) (tbl_tickets db)).
  { rewrite <- (map_id (tbl_tickets db)) at 2. apply Forall2_map_self. now left. }
  unfold handleDragEnd.
  destruct (destination result) as [[d i]|]; [|simpl; now repeat split].
  destruct (status_eqb d (fst (source result)) && (i =? snd (source result)));
    [simpl; now repeat split|].
  destruct (update_tickets cat db uid (draggableId result) (status_payload d))
    as [db'|err] eqn:Hup; [|simpl; now repeat split].
  apply update_tickets_shape in Hup. destruct Hup as (hit & Hhit & ->).
  simpl. repeat split. apply Forall2_map_self. intros t.
  destruct (hit t) eqn:Ht; [right | now left].
  split; [now apply Hhit|]. now exists d.
Qed.

Lemma can_update_ticket_eval_false db uid t :
  can_update_ticket db uid t = Some false ->
  eval db uid
    (XOr (XOr (XUidEq c_assignee_id)
            (XInSelect c_project_id c_id Tprojects
               (XOr (XOr (XInUserProjectIds c_id) (XUidEq c_owner_id)) XFalse)
               (XUidEq c_owner_id)))
       XFalse)
    (ticket_tuple t) = false.
Proof. intros H. injection H as H. exact H. Qed.

(** X9. A drop the update rule denies is not reported: when the caller may
    not update any ticket with the dragged card's id, the store skips the
    row without an error, and the board shows the card in the new column
    and the success toast although the store is unchanged. *)
Theorem denied_drag_looks_successful db uid board s i src target
  (Hmoved : status_eqb s (fst src) && (i =? snd src) = false)
  (Hdenied : forall t, In t (tbl_tickets db) -> tickets.id t = target ->
                       can_update_ticket db uid t = Some false) :
  handleDragEnd current_catalog db uid board (mkdrop (Some (s, i)) src target)
  = (db,
     map (fun ticket => if tickets.id ticket =? target
                        then with_status ticket s else ticket) board,
     Some (toast_success "Ticket status updated successfully")).
Proof.
  unfold handleDragEnd. cbn [destination source draggableId]. rewrite Hmoved.
  assert (Hup : update_tickets current_catalog db uid target (status_payload s) = Ok db).
  { unfold update_tickets. expose_quals.
    assert (Hhit : forall r, In r (tbl_tickets db) ->
               (tickets.id r =? target)
               && eval db uid (XOr (XInUserProjectIds c_project_id) XFalse) (ticket_tuple r)
               && eval db uid
                    (XOr (XOr (XUidEq c_assignee_id)
                            (XInSelect c_project_id c_id Tprojects
                               (XOr (XOr (XInUserProjectIds c_id) (XUidEq c_owner_id)) XFalse)
                               (XUidEq c_owner_id)))
                       XFalse) (ticket_tuple r) = false).
    { intros r Hin. destruct (tickets.id r =? target) eqn:Hid; [|reflexivity].
      apply Nat.eqb_eq in Hid.
      rewrite (can_update_ticket_eval_false (Hdenied r Hin Hid)).
      now rewrite andb_false_r. }
    match goal with
    | |- (if forallb ?f ?l then _ else _) = _ => assert (Hall : forallb f l = true)
    end.
    { apply forallb_forall. intros r Hin. now rewrite (Hhit r Hin). }
    rewrite Hall. rewrite first_error_none.
    - rewrite <- (with_tickets_same db) at 3. f_equal. f_equal.
      rewrite <- (map_id (tbl_tickets db)) at 2. apply map_ext_in.
      intros r Hin. now rewrite (Hhit r Hin).
    - intros r Hin. now rewrite (Hhit r Hin). }
  now rewrite Hup.
Qed.

Lemma denied_drag_looks_successful_witness :
  status_eqb done (fst (todo, 0)) && (0 =? snd (todo, 0)) = false
  /\ (forall t, In t (tbl_tickets sample_db) -> tickets.id t = 100 ->
                can_update_ticket sample_db carol t = Some false)
  /\ handleDragEnd current_catalog sample_db carol [ticket100]
       (mkdrop (Some (done, 0)) (todo, 0) 100)
     = (sample_db, [with_status ticket100 done],
        Some (toast_success "Ticket status updated successfully")).
Proof.
  assert (H1 : status_eqb done (fst (todo, 0)) && (0 =? snd (todo, 0)) = false)
    by reflexivity.
  assert (H2 : forall t, In t (tbl_tickets sample_db) -> tickets.id t = 100 ->
                         can_update_ticket sample_db carol t = Some false).
  { simpl. intros t [<- | []] _. reflexivity. }
  split; [exact H1|]. split; [exact H2|].
  exact (@denied_drag_looks_successful sample_db carol [ticket100] done 0 (todo, 0) 100 H1 H2).
Defined.

Lemma has_ticket_true db t :
  has_ticket db t = true <-> exists r, In r (tbl_tickets db) /\ tickets.id r = t.
Proof.
  unfold has_ticket. rewrite existsb_exists.
  split; intros (r & Hin & H); exists r; (split; [assumption|]); now apply Nat.eqb_eq.
Qed.

Lemma blank_true {js : engine} s : blank s = true <-> trim s = ""%string.
Proof. unfold blank. apply String.eqb_eq. Qed.

Lemma blank_false {js : engine} s : blank s = false <-> trim s <> ""%string.
Proof. unfold blank. apply String.eqb_neq. Qed.

(** X10. Posting a comment, for a signed-in user and whatever the engine's
    [trim] removes.  When trimming leaves nothing of the text, nothing is
    sent, the store is unchanged and no toast is shown.  Otherwise the
    comment is stored with the text as typed, the caller as author and no
    parent, and the success toast shown, exactly when the ticket exists in
    a project where the caller holds a membership row, the caller has a
    profile and the new identifier is free; in every other case the store
    is unchanged and the failure toast shown.  A project owner without a
    membership row is among the refused. *)
Theorem add_comment_outcome {js : engine} db uid ticket_id s new_id now :
  let ok := (exists t, In t (tbl_tickets db) /\ tickets.id t = ticket_id
                       /\ member db uid (tickets.project_id t))
            /\ has_profile db uid = true
            /\ existsb (fun c => comments.id c =? new_id) (tbl_comments db) = false in
  (trim s = ""%string ->
     handleAddComment current_catalog db (Some uid) ticket_id s new_id now = (db, None))
  /\ (trim s <> ""%string -> ok ->
      handleAddComment current_catalog db (Some uid) ticket_id s new_id now
      = (with_comments db (tbl_comments db
                           ++ [comments.mk new_id s ticket_id uid None now]),
         Some (toast_success "Comment added successfully!")))
  /\ (trim s <> ""%string -> ~ ok ->
      handleAddComment current_catalog db (Some uid) ticket_id s new_id now
      = (db, Some (toast_error "Failed to add comment"))).
Proof.
  intros ok. unfold handleAddComment.
  split; [intros Hs; apply blank_true in Hs; now rewrite Hs|].
  assert (Hgoal : trim s <> ""%string ->
    (ok -> (if blank s then (db, None)
            else match insert_comment current_catalog db uid new_id now s ticket_id uid None with
                 | Ok db' => (db', Some (toast_success "Comment added successfully!"))
                 | Err _ => (db, Some (toast_error "Failed to add comment"))
                 end)
           = (with_comments db (tbl_comments db
                                ++ [comments.mk new_id s ticket_id uid None now]),
              Some (toast_success "Comment added successfully!")))
    /\ (~ ok -> (if blank s then (db, None)
               else match insert_comment current_catalog db uid new_id now s ticket_id uid None with
                    | Ok db' => (db', Some (toast_success "Comment added successfully!"))
                    | Err _ => (db, Some (toast_error "Failed to add comment"))
                    end)
              = (db, Some (toast_error "Failed to add comment"))));
    [|split; intros Hs; apply Hgoal; exact Hs].
  intros Hs. apply blank_false in Hs. rewrite Hs.
  pose (row := comments.mk new_id s ticket_id uid None now).
  destruct (comment_create_rule db uid row) as [Hrule _].
  unfold can_create_comment, admits in Hrule. unfold insert_comment.
  destruct (check_qual max_nesting current_catalog FOR_INSERT Tcomments) as [qc|] eqn:Hqc;
    [|discriminate Hqc].
  cbn [option_map] in Hrule. fold row.
  destruct (eval db uid qc (comment_tuple row)) eqn:Hev; cbn [negb].
  - assert (Hmem : exists t, In t (tbl_tickets db) /\ tickets.id t = ticket_id
                             /\ member db uid (tickets.project_id t)).
    { apply Hrule. reflexivity. }
    assert (Hticket : has_ticket db ticket_id = true).
    { apply has_ticket_true. destruct Hmem as (t & Hin & Hid & _). now exists t. }
    rewrite Hticket. cbn [negb].
    destruct (existsb (fun c => comments.id c =? new_id) (tbl_comments db)) eqn:Hfresh.
    + split; [intros (_ & _ & H); discriminate | reflexivity].
    + destruct (has_profile db uid) eqn:Hprof; cbn [negb].
      * split; [reflexivity|]. intros Hn. exfalso. apply Hn. now repeat split.
      * split; [intros (_ & H & _); discriminate | reflexivity].
  - split; [|reflexivity]. intros (Hmem & _ & _).
    assert (Htrue : Some false = Some true) by (apply Hrule; split; [exact Hmem | reflexivity]).
    discriminate.
Qed.

Lemma add_comment_outcome_witness :
  @trim sample_engine "Looks fixed" <> ""%string
  /\ @handleAddComment sample_engine current_catalog sample_db (Some bob) 100
       "Looks fixed" 202 90%Z
     = (with_comments sample_db
          (tbl_comments sample_db ++ [comments.mk 202 "Looks fixed" 100 bob None 90%Z]),
        Some (toast_success "Comment added successfully!")).
Proof.
  assert (Hs : @trim sample_engine "Looks fixed" <> ""%string) by discriminate.
  split; [exact Hs|].
  apply (proj1 (proj2 (@add_comment_outcome sample_engine sample_db bob 100
                         "Looks fixed" 202 90%Z)) Hs).
  split; [|split; reflexivity].
  exists ticket100. split; [simpl; left; reflexivity|]. split; [reflexivity|].
  eexists. split; [simpl; left; reflexivity|]. split; reflexivity.
Defined.

Lemma update_tickets_comments cat db uid target p db' :
  update_tickets cat db uid target p = Ok db' -> tbl_comments db' = tbl_comments db.
Proof.
  intros H. apply update_tickets_shape in H. destruct H as (hit & _ & ->). reflexivity.
Qed.

Lemma step_comments {js : engine} cat db op :
  tbl_comments (step cat db op) = tbl_comments db
  \/ exists c, comments.parent_id c = None
               /\ tbl_comments (step cat db op) = tbl_comments db ++ [c].
Proof.
  destruct op as [uid board result | user ticket_id e | user ticket_id s new_id now]; simpl.
  - left. unfold handleDragEnd.
    destruct (destination result) as [[d i]|]; [|reflexivity].
    destruct (status_eqb d (fst (source result)) && (i =? snd (source result)));
      [reflexivity|].
    destruct (update_tickets cat db uid (draggableId result) (status_payload d))
      as [db'|err] eqn:Hup; [|reflexivity].
    simpl. now apply update_tickets_comments in Hup.
  - left. unfold handleUpdateTicket.
    destruct user as [uid|]; [|reflexivity].
    destruct (update_tickets cat db uid ticket_id (edit_payload e)) as [db'|err] eqn:Hup;
      [|reflexivity].
    simpl. now apply update_tickets_comments in Hup.
  - unfold handleAddComment.
    destruct user as [uid|]; [|now left].
    destruct (blank s); [now left|].
    destruct (insert_comment cat db uid new_id now s ticket_id uid None) as [db'|err] eqn:Hins;
      [|now left].
    simpl. unfold insert_comment in Hins.
    destruct (check_qual max_nesting cat FOR_INSERT Tcomments) as [qc|]; [|discriminate].
    repeat match type of Hins with
           | (if ?b then _ else _) = _ => destruct b; [discriminate|]
           end.
    injection Hins as <-. right. eexists. split; [|reflexivity]. reflexivity.
Qed.

(** X11. The client never writes a reply: on a store whose comments have no
    parent, every sequence of client updates leaves a store whose comments
    have no parent, and on such a store the deletion of any profile goes
    through; the one rule that can stop it, the parent reference without a
    delete action, never applies.  This holds for every engine. *)
Theorem client_stores_allow_profile_deletion {js : engine} cat db ops
  (Hflat : forall c, In c (tbl_comments db) -> comments.parent_id c = None) :
  (forall c, In c (tbl_comments (run cat db ops)) -> comments.parent_id c = None)
  /\ forall u, exists db', delete_profile (run cat db ops) u = Ok db'.
Proof.
  assert (Hrun : forall c, In c (tbl_comments (run cat db ops)) ->
                           comments.parent_id c = None).
  { unfold run. revert db Hflat. induction ops as [|op ops IH]; intros db Hflat; simpl.
    - exact Hflat.
    - apply IH. intros c Hin.
      destruct (step_comments cat db op) as [Heq | (c' & Hc' & Heq)]; rewrite Heq in Hin.
      + now apply Hflat.
      + apply in_app_or in Hin. destruct Hin as [Hin | [<- | []]]; [now apply Hflat | exact Hc']. }
  split; [exact Hrun|].
  intros u. unfold delete_profile.
  assert (Hnone : existsb (orphaned_reply (run cat db ops) u)
                    (tbl_comments (run cat db ops)) = false).
  { apply not_true_is_false. intros H. apply existsb_exists in H.
    destruct H as (c & Hin & Hc). unfold orphaned_reply in Hc.
    rewrite (Hrun c Hin) in Hc. now rewrite andb_false_r in Hc. }
  rewrite Hnone. eexists. reflexivity.
Qed.

Lemma client_stores_allow_profile_deletion_witness :
  (forall c, In c (tbl_comments sample_db) -> comments.parent_id c = None)
  /\ exists db',
       delete_profile
         (@run sample_engine current_catalog sample_db
            [AddComment (Some bob) 100 "Looks fixed" 202 90%Z;
             DragEnd bob [ticket100] (mkdrop (Some (done, 0)) (todo, 0) 100)]) alice
       = Ok db'.
Proof.
  assert (H : forall c, In c (tbl_comments sample_db) -> comments.parent_id c = None).
  { simpl. intros c [<- | [<- | []]]; reflexivity. }
  split; [exact H|].
  exact (proj2 (@client_stores_allow_profile_deletion sample_engine current_catalog sample_db
                  [AddComment (Some bob) 100 "Looks fixed" 202 90%Z;
                   DragEnd bob [ticket100] (mkdrop (Some (done, 0)) (todo, 0) 100)] H)
               alice).
Defined.

(** * Further properties of membership *)

Lemma NoDup_snoc {A : Type} (l : list A) (x : A) :
  NoDup l -> ~ In x l -> NoDup (l ++ [x]).
Proof.
  induction l as [|y l IH]; simpl; intros Hnd Hx.
  - constructor; [tauto | constructor].
  - inversion Hnd as [|? ? Hy Hl]; subst. constructor.
    + intros Hin. apply in_app_or in Hin. destruct Hin as [Hin | [-> | []]]; tauto.
    + apply IH; tauto.
Qed.

Lemma insert_project_member_shape cat db uid new_id now p u role inv db' :
  insert_project_member cat db uid new_id now p u role inv = Ok db' ->
  db' = with_project_members db
          (tbl_project_members db ++ [project_members.mk new_id p u role inv now])
  /\ existsb (fun m => project_members.id m =? new_id) (tbl_project_members db) = false
  /\ existsb (fun m => (project_members.project_id m =? p)
                       && (project_members.user_id m =? u))
             (tbl_project_members db) = false
  /\ has_project db p = true
  /\ has_profile db u = true.
Proof.
  unfold insert_project_member.
  destruct (check_qual max_nesting cat FOR_INSERT Tproject_members) as [qc|];
    [|discriminate].
  destruct (negb _); [discriminate|].
  destruct (existsb (fun m => project_members.id m =? new_id) _); [discriminate|].
  destruct (existsb (fun m => _ && _) _); [discriminate|].
  destruct (has_project db p); [|discriminate]. cbn [negb].
  match goal with
  | |- context [if ?b then Err (foreign_key_violation "project_members_invited_by_fkey")
                else _] => destruct b; [discriminate|]
  end.
  destruct (has_profile db u); [|discriminate].
  intros H. injection H as <-. now repeat split.
Qed.

Lemma insert_project_member_keeps_keys cat db uid new_id now p u role inv db' :
  insert_project_member cat db uid new_id now p u role inv = Ok db' ->
  members_unique db -> members_pkey db ->
  members_unique db' /\ members_pkey db'.
Proof.
  intros H Hu Hk. apply insert_project_member_shape in H.
  destruct H as (-> & Hid & Hpair & _ & _).
  unfold members_unique, members_pkey. simpl. rewrite !map_app. simpl. split.
  - apply NoDup_snoc; [exact Hu|]. intros Hin. apply in_map_iff in Hin.
    destruct Hin as (m & Heq & Hin). injection Heq as Hp Hu'.
    assert (Htrue : existsb (fun m => (project_members.project_id m =? p)
                                      && (project_members.user_id m =? u))
                      (tbl_project_members db) = true).
    { apply existsb_exists. exists m. split; [assumption|].
      now rewrite Hp, Hu', !Nat.eqb_refl. }
    congruence.
  - apply NoDup_snoc; [exact Hk|]. intros Hin. apply in_map_iff in Hin.
    destruct Hin as (m & Heq & Hin).
    assert (Htrue : existsb (fun m => project_members.id m =? new_id)
                      (tbl_project_members db) = true).
    { apply existsb_exists. exists m. split; [assumption|]. now apply Nat.eqb_eq. }
    congruence.
Qed.

(** X12. Whatever the policies, an accepted insert into the membership
    table keeps the table's two keys: no second row for a (project, user)
    pair and no second row with the same id; and the row it adds refers to
    an existing project and an existing profile. *)
Theorem accepted_membership_insert_keeps_keys cat db uid new_id now p u role inv db'
  (Hok : insert_project_member cat db uid new_id now p u role inv = Ok db')
  (Hunique : members_unique db)
  (Hpkey : members_pkey db) :
  members_unique db' /\ members_pkey db'
  /\ has_project db p = true /\ has_profile db u = true
  /\ tbl_project_members db'
     = tbl_project_members db ++ [project_members.mk new_id p u role inv now].
Proof.
  pose proof Hok as Hkeys.
  apply insert_project_member_keeps_keys in Hkeys; [|assumption..].
  destruct Hkeys as [H1 H2].
  apply insert_project_member_shape in Hok. destruct Hok as (-> & _ & _ & H3 & H4).
  now repeat split.
Qed.

Lemma accepted_membership_insert_keeps_keys_witness :
  exists db',
    insert_project_member current_catalog sample_db carol 21 90%Z 11 carol viewer None
    = Ok db'
    /\ members_unique sample_db /\ members_pkey sample_db
    /\ members_unique db' /\ members_pkey db'.
Proof.
  eexists.
  assert (Hok : insert_project_member current_catalog sample_db carol 21 90%Z 11 carol
                  viewer None
                = Ok (with_project_members sample_db
                        (tbl_project_members sample_db
                         ++ [project_members.mk 21 11 carol viewer None 90%Z])))
    by reflexivity.
  assert (Hu : members_unique sample_db).
  { unfold members_unique. simpl. repeat constructor. simpl. tauto. }
  assert (Hk : members_pkey sample_db).
  { unfold members_pkey. simpl. repeat constructor. simpl. tauto. }
  split; [exact Hok|]. split; [exact Hu|]. split; [exact Hk|].
  destruct (@accepted_membership_insert_keeps_keys current_catalog sample_db carol 21 90%Z
              11 carol viewer None _ Hok Hu Hk) as (H1 & H2 & _).
  split; assumption.
Defined.

(** The two ways [inviteMember] can end: the store as it was, or the store
    after an accepted insert by the owner for a user with that username. *)
Lemma inviteMember_cases cat db user project inviteEmail inviteRole new_id now
  (R : database -> Prop) :
  R db ->
  (forall userData db',
      In userData (tbl_profiles db) ->
      profiles.username userData = Some inviteEmail ->
      user = Some (projects.owner_id project) ->
      insert_project_member cat db (projects.owner_id project) new_id now
        (projects.id project) (profiles.id userData) inviteRole user = Ok db' ->
      R db') ->
  R (fst (inviteMember cat db user project inviteEmail inviteRole new_id now)).
Proof.
  intros Hsame Hins. unfold inviteMember.
  destruct user as [uid|]; [|exact Hsame].
  destruct (uid =? projects.owner_id project) eqn:Howner; [|exact Hsame].
  apply Nat.eqb_eq in Howner. cbn [negb orb].
  destruct (String.eqb inviteEmail ""); [exact Hsame|].
  unfold select_rows at 1.
  destruct (using_qual max_nesting cat FOR_SELECT Tprofiles) as [qp|]; [|exact Hsame].
  destruct (single _) as [userData|] eqn:Hsingle; [|exact Hsame].
  assert (Hud : In userData (tbl_profiles db)
                /\ profiles.username userData = Some inviteEmail).
  { unfold single in Hsingle.
    destruct (filter _ (filter _ _)) as [|x [|y l]] eqn:Hf; try discriminate.
    injection Hsingle as ->.
    assert (Hin : In userData (filter (fun p => opt_string_is (profiles.username p) inviteEmail)
                                 (filter (fun r => eval db uid qp (profile_tuple r))
                                    (tbl_profiles db))))
      by (rewrite Hf; now left).
    apply filter_In in Hin. destruct Hin as [Hin Hname].
    apply filter_In in Hin. destruct Hin as [Hin _]. split; [assumption|].
    unfold opt_string_is in Hname. destruct (profiles.username userData) as [n|];
      [|discriminate]. apply String.eqb_eq in Hname. now subst. }
  destruct Hud as [Hin Hname].
  match goal with
  | |- context [match ?e with Some _ => _ | None => _ end] =>
      destruct e as [existing|]; [exact Hsame|]
  end.
  destruct (insert_project_member cat db uid new_id now (projects.id project)
              (profiles.id userData) inviteRole (Some uid)) as [db'|err] eqn:Hi;
    [|exact Hsame].
  cbn [fst]. subst uid. now apply (Hins userData db').
Qed.

(** X13. An invitation changes the membership table only when the caller is
    the owner named in the project the settings page was opened for, and
    then by at most one row: a row for that project, with the chosen role,
    with the caller as inviter, for a user whose username is the text
    entered and who had no row for the project.  The table's two keys are
    kept, and nothing else in the store changes. *)
Theorem invitation_adds_at_most_one_row cat db user project inviteEmail inviteRole
  new_id now
  (Hunique : members_unique db)
  (Hpkey : members_pkey db) :
  let db' := fst (inviteMember cat db user project inviteEmail inviteRole new_id now) in
  members_unique db' /\ members_pkey db'
  /\ tbl_profiles db' = tbl_profiles db /\ tbl_projects db' = tbl_projects db
  /\ tbl_tickets db' = tbl_tickets db /\ tbl_comments db' = tbl_comments db
  /\ (tbl_project_members db' = tbl_project_members db
      \/ exists userData,
           In userData (tbl_profiles db)
           /\ profiles.username userData = Some inviteEmail
           /\ user = Some (projects.owner_id project)
           /\ ~ member db (profiles.id userData) (projects.id project)
           /\ tbl_project_members db'
              = tbl_project_members db
                ++ [project_members.mk new_id (projects.id project) (profiles.id userData)
                      inviteRole user now]).
Proof.
  intros db'. subst db'.
  apply (@inviteMember_cases cat db user project inviteEmail inviteRole new_id now
           (fun d =>
              members_unique d /\ members_pkey d
              /\ tbl_profiles d = tbl_profiles db /\ tbl_projects d = tbl_projects db
              /\ tbl_tickets d = tbl_tickets db /\ tbl_comments d = tbl_comments db
              /\ (tbl_project_members d = tbl_project_members db
                  \/ exists userData,
                       In userData (tbl_profiles db)
                       /\ profiles.username userData = Some inviteEmail
                       /\ user = Some (projects.owner_id project)
                       /\ ~ member db (profiles.id userData) (projects.id project)
                       /\ tbl_project_members d
                          = tbl_project_members db
                            ++ [project_members.mk new_id (projects.id project)
                                  (profiles.id userData) inviteRole user now]))).
  - repeat split; auto.
  - intros userData d Hin Hname Huser Hins.
    pose proof Hins as Hkeys.
    apply insert_project_member_keeps_keys in Hkeys; [|assumption..].
    destruct Hkeys as [H1 H2].
    apply insert_project_member_shape in Hins. destruct Hins as (-> & _ & Hpair & _ & _).
    split; [exact H1|]. split; [exact H2|]. repeat split.
    right. exists userData. split; [assumption|]. split; [assumption|].
    split; [assumption|]. split; [|reflexivity].
    intros Hm. apply member_existsb in Hm. congruence.
Qed.

Lemma invitation_adds_at_most_one_row_witness :
  members_unique sample_db /\ members_pkey sample_db
  /\ members_unique
       (fst (inviteMember current_catalog sample_db (Some alice)
               (projects.mk 10 "Checkout Bugs" None alice 5%Z) "carol" viewer 21 90%Z))
  /\ tbl_project_members
       (fst (inviteMember current_catalog sample_db (Some alice)
               (projects.mk 10 "Checkout Bugs" None alice 5%Z) "carol" viewer 21 90%Z))
     = tbl_project_members sample_db
       ++ [project_members.mk 21 10 carol viewer (Some alice) 90%Z].
Proof.
  assert (Hu : members_unique sample_db).
  { unfold members_unique. simpl. repeat constructor. simpl. tauto. }
  assert (Hk : members_pkey sample_db).
  { unfold members_pkey. simpl. repeat constructor. simpl. tauto. }
  split; [exact Hu|]. split; [exact Hk|].
  split; [|reflexivity].
  exact (proj1 (@invitation_adds_at_most_one_row current_catalog sample_db (Some alice)
                  (projects.mk 10 "Checkout Bugs" None alice 5%Z) "carol" viewer 21 90%Z
                  Hu Hk)).
Defined.

Lemma permits_true_eval cat cmd t db uid r q :
  using_qual max_nesting cat cmd t = Some q ->
  permits cat cmd t db uid r = Some true -> eval db uid q r = true.
Proof. unfold permits. intros ->. simpl. congruence. Qed.

Lemma pkey_same_member db m m' :
  members_pkey db -> In m (tbl_project_members db) -> In m' (tbl_project_members db) ->
  project_members.id m = project_members.id m' -> m = m'.
Proof.
  unfold members_pkey. induction (tbl_project_members db) as [|x l IH]; simpl; [tauto|].
  intros Hnd [-> | Hin] [-> | Hin'] Hid; inversion Hnd; subst.
  - reflexivity.
  - exfalso. apply H1. rewrite Hid. now apply in_map.
  - exfalso. apply H1. rewrite <- Hid. now apply in_map.
  - now apply IH.
Qed.

Lemma unique_same_member db m m' :
  members_unique db -> In m (tbl_project_members db) -> In m' (tbl_project_members db) ->
  project_members.project_id m = project_members.project_id m' ->
  project_members.user_id m = project_members.user_id m' -> m = m'.
Proof.
  unfold members_unique. induction (tbl_project_members db) as [|x l IH]; simpl; [tauto|].
  intros Hnd [-> | Hin] [-> | Hin'] Hp Hu; inversion Hnd; subst.
  - reflexivity.
  - exfalso. apply H1. rewrite Hp, Hu.
    now apply (in_map (fun m => (project_members.project_id m, project_members.user_id m))).
  - exfalso. apply H1. rewrite <- Hp, <- Hu.
    now apply (in_map (fun m => (project_members.project_id m, project_members.user_id m))).
  - now apply IH.
Qed.

Lemma membership_rules_delete db uid m :
  owns db uid (project_members.project_id m) ->
  permits current_catalog FOR_DELETE Tproject_members db uid (member_tuple m) = Some true.
Proof.
  intros H. expose_quals. f_equal.
  apply eval_or. left. apply eval_owned_subquery.
  exists (project_members.project_id m). split; [reflexivity | exact H].
Qed.

(** X14. Removing a member, by the owner of the row's project: the row goes
    and no other row does; the removed user no longer holds a row for the
    project, and the project stays in that user's accessible set only if
    the user owns it. *)
Theorem removed_member_loses_access db uid project m
  (Hpkey : members_pkey db)
  (Hunique : members_unique db)
  (Hin : In m (tbl_project_members db))
  (Hprops : projects.owner_id project = uid)
  (Howns : owns db uid (project_members.project_id m)) :
  exists db',
    ProjectSettings.removeMember current_catalog db (Some uid) project (project_members.id m)
    = (db', Some (toast_success "Member removed successfully!"))
    /\ (forall m', In m' (tbl_project_members db') <->
                   In m' (tbl_project_members db) /\ m' <> m)
    /\ ~ member db' (project_members.user_id m) (project_members.project_id m)
    /\ (accessible db' (project_members.user_id m) (project_members.project_id m)
        <-> owns db (project_members.user_id m) (project_members.project_id m)).
Proof.
  unfold ProjectSettings.removeMember, ProjectSettings.isOwner.
  rewrite Hprops, Nat.eqb_refl. cbn [negb]. unfold delete_project_member.
  destruct (using_qual max_nesting current_catalog FOR_SELECT Tproject_members)
    as [qs|] eqn:Hqs; [|vm_compute in Hqs; discriminate].
  destruct (using_qual max_nesting current_catalog FOR_DELETE Tproject_members)
    as [qd|] eqn:Hqd; [|vm_compute in Hqd; discriminate].
  assert (Hs : eval db uid qs (member_tuple m) = true).
  { eapply permits_true_eval; [exact Hqs|]. apply member_read_rule.
    apply in_get_user_project_ids. now left. }
  assert (Hd : eval db uid qd (member_tuple m) = true).
  { eapply permits_true_eval; [exact Hqd|]. now apply membership_rules_delete. }
  assert (Hfilter :
            filter (fun m' => negb ((project_members.id m' =? project_members.id m)
                                    && eval db uid qs (member_tuple m')
                                    && eval db uid qd (member_tuple m')))
                   (tbl_project_members db)
            = filter (fun m' => negb (project_members.id m' =? project_members.id m))
                     (tbl_project_members db)).
  { apply filter_ext_in. intros m' Hin'.
    destruct (project_members.id m' =? project_members.id m) eqn:Hid; [|reflexivity].
    apply Nat.eqb_eq in Hid. rewrite (@pkey_same_member db m' m Hpkey Hin' Hin Hid).
    now rewrite Hs, Hd. }
  rewrite Hfilter. eexists. split; [reflexivity|].
  assert (Hrows : forall m', In m' (filter (fun m' => negb (project_members.id m'
                                                            =? project_members.id m))
                                      (tbl_project_members db))
                             <-> In m' (tbl_project_members db) /\ m' <> m).
  { intros m'. rewrite filter_In, negb_true_iff, Nat.eqb_neq. split.
    - intros [Hin' Hne]. split; [assumption|]. congruence.
    - intros [Hin' Hne]. split; [assumption|]. intros Hid. apply Hne.
      exact (@pkey_same_member db m' m Hpkey Hin' Hin Hid). }
  assert (Hgone : ~ member
                    (with_project_members db
                       (filter (fun m' => negb (project_members.id m'
                                                =? project_members.id m))
                               (tbl_project_members db)))
                    (project_members.user_id m) (project_members.project_id m)).
  { intros (m' & Hin' & Hp & Hu). simpl in Hin'. apply Hrows in Hin'.
    destruct Hin' as [Hin' Hne]. apply Hne.
    exact (@unique_same_member db m' m Hunique Hin' Hin Hp Hu). }
  split; [exact Hrows|]. split; [exact Hgone|].
  unfold accessible. rewrite in_get_user_project_ids. split.
  - intros [H | H]; [exact H | contradiction].
  - intros H. left. exact H.
Qed.

Lemma removed_member_loses_access_witness :
  let m := project_members.mk 20 10 bob developer (Some alice) 7%Z in
  let project := projects.mk 10 "Checkout Bugs" None alice 5%Z in
  members_pkey sample_db /\ members_unique sample_db
  /\ In m (tbl_project_members sample_db)
  /\ projects.owner_id project = alice
  /\ owns sample_db alice (project_members.project_id m)
  /\ exists db',
       ProjectSettings.removeMember current_catalog sample_db (Some alice) project 20
       = (db', Some (toast_success "Member removed successfully!"))
       /\ ~ member db' bob 10.
Proof.
  intros m project.
  assert (Hk : members_pkey sample_db).
  { unfold members_pkey. simpl. repeat constructor. simpl. tauto. }
  assert (Hu : members_unique sample_db).
  { unfold members_unique. simpl. repeat constructor. simpl. tauto. }
  assert (Hin : In m (tbl_project_members sample_db)) by (simpl; left; reflexivity).
  assert (Hp : projects.owner_id project = alice) by reflexivity.
  assert (Ho : owns sample_db alice (project_members.project_id m)).
  { eexists. split; [simpl; left; reflexivity|]. split; reflexivity. }
  split; [exact Hk|]. split; [exact Hu|]. split; [exact Hin|]. split; [exact Hp|].
  split; [exact Ho|].
  destruct (@removed_member_loses_access sample_db alice project m Hk Hu Hin Hp Ho)
    as (db' & Hrm & _ & Hgone & _).
  exists db'. split; [exact Hrm | exact Hgone].
Defined.

(** * Further properties of the pages *)

Lemma filter_comm {A : Type} (f g : A -> bool) (l : list A) :
  filter f (filter g l) = filter g (filter f l).
Proof.
  induction l as [|x l IH]; simpl; [reflexivity|].
  destruct (f x) eqn:Hf, (g x) eqn:Hg; simpl; rewrite ?Hf, ?Hg, IH; reflexivity.
Qed.

Lemma pkey_filter_project db p :
  projects_pkey db -> In p (tbl_projects db) ->
  filter (fun r => projects.id r =? projects.id p) (tbl_projects db) = [p].
Proof.
  unfold projects_pkey. induction (tbl_projects db) as [|x l IH]; simpl; [tauto|].
  intros Hnd Hin. inversion Hnd as [|? ? Hx Hl]; subst.
  assert (Hnone : forall q, ~ In (projects.id q) (map projects.id l) ->
                            filter (fun r => projects.id r =? projects.id q) l = []).
  { intros q Hq. clear -Hq. induction l as [|y l IH]; simpl; [reflexivity|].
    destruct (projects.id y =? projects.id q) eqn:Hy.
    - exfalso. apply Hq. simpl. left. now apply Nat.eqb_eq.
    - apply IH. intros H. apply Hq. now right. }
  destruct Hin as [-> | Hin].
  - rewrite Nat.eqb_refl. now rewrite (Hnone p Hx).
  - destruct (projects.id x =? projects.id p) eqn:Hxp.
    + exfalso. apply Hx. apply Nat.eqb_eq in Hxp. rewrite Hxp. now apply in_map.
    + now apply IH.
Qed.

Lemma project_visible_eval db uid p q :
  using_qual max_nesting current_catalog FOR_SELECT Tprojects = Some q ->
  In p (tbl_projects db) ->
  accessible db uid (projects.id p) -> eval db uid q (project_tuple p) = true.
Proof.
  intros Hq Hin Hacc. eapply permits_true_eval; [exact Hq|].
  apply project_read_rule. now left.
Qed.

(** X15. The project page, on a store that keeps the primary key of
    projects and the reference of membership rows to projects: it shows "no
    access" exactly when the project is not in the caller's accessible set,
    and otherwise loads the one project row with that id; it never ends in
    the failure state, and it never loads a project outside the accessible
    set. *)
Theorem project_page_loads_iff_accessible db uid projectId
  (Hpkey : projects_pkey db)
  (Hfk : members_reference_projects db) :
  (~ accessible db uid projectId
   /\ Project.fetchProject current_catalog db uid projectId = Project.no_access)
  \/ (accessible db uid projectId
      /\ exists p, In p (tbl_projects db) /\ projects.id p = projectId
                   /\ Project.fetchProject current_catalog db uid projectId
                      = Project.loaded p).
Proof.
  unfold Project.fetchProject.
  destruct (existsb (fun p => p =? projectId) (get_user_project_ids db uid)) eqn:Hacc.
  - right.
    assert (Ha : accessible db uid projectId).
    { apply existsb_exists in Hacc. destruct Hacc as (x & Hin & Hx).
      apply Nat.eqb_eq in Hx. now subst. }
    split; [exact Ha|].
    assert (Hrow : exists p, In p (tbl_projects db) /\ projects.id p = projectId).
    { apply in_get_user_project_ids in Ha. destruct Ha as [(r & Hin & Hid & _) | (m & Hin & Hp & _)].
      - now exists r.
      - apply has_project_true. rewrite <- Hp. now apply Hfk. }
    destruct Hrow as (p & Hin & Hid). exists p. split; [assumption|]. split; [assumption|].
    cbn [negb]. unfold select_rows.
    destruct (using_qual max_nesting current_catalog FOR_SELECT Tprojects) as [q|] eqn:Hq;
      [|vm_compute in Hq; discriminate].
    rewrite filter_comm, <- Hid, (@pkey_filter_project db p Hpkey Hin). simpl.
    rewrite (@project_visible_eval db uid p q Hq Hin); [reflexivity|]. now rewrite Hid.
  - left. split; [|reflexivity]. intros Ha.
    assert (Htrue : existsb (fun p => p =? projectId) (get_user_project_ids db uid) = true).
    { apply existsb_exists. exists projectId. split; [exact Ha | apply Nat.eqb_refl]. }
    congruence.
Qed.

Lemma project_page_loads_iff_accessible_witness :
  projects_pkey sample_db /\ members_reference_projects sample_db
  /\ ((~ accessible sample_db bob 10
       /\ Project.fetchProject current_catalog sample_db bob 10 = Project.no_access)
      \/ (accessible sample_db bob 10
          /\ exists p, In p (tbl_projects sample_db) /\ projects.id p = 10
                       /\ Project.fetchProject current_catalog sample_db bob 10
                          = Project.loaded p)).
Proof.
  assert (Hk : projects_pkey sample_db).
  { unfold projects_pkey. simpl. repeat constructor; simpl; intuition discriminate. }
  assert (Hfk : members_reference_projects sample_db).
  { intros m Hin. simpl in Hin. destruct Hin as [<- | []]. reflexivity. }
  split; [exact Hk|]. split; [exact Hfk|].
  exact (@project_page_loads_iff_accessible sample_db bob 10 Hk Hfk).
Defined.

(** X16. The dashboard lists the stored projects of the caller's accessible
    set, each as often as it is stored and in no promised order, and shows
    no error: a project is listed if and only if the caller owns it or
    holds a membership row for it. *)
Theorem dashboard_lists_accessible_projects db uid old :
  exists listed,
    Dashboard.fetchProjects current_catalog db (Some uid) old = (listed, None)
    /\ Permutation listed
         (filter (fun p => existsb (Nat.eqb (projects.id p))
                             (get_user_project_ids db uid))
                 (tbl_projects db))
    /\ forall p, In p listed
                 <-> In p (tbl_projects db)
                     /\ (owns db uid (projects.id p) \/ member db uid (projects.id p)).
Proof.
  assert (Heq : Dashboard.fetchProjects current_catalog db (Some uid) old
                = (filter (fun p => existsb (Nat.eqb (projects.id p))
                                      (get_user_project_ids db uid))
                          (tbl_projects db), None)).
  { unfold Dashboard.fetchProjects.
    destruct (get_user_project_ids db uid) as [|i ids] eqn:Hids.
    - f_equal. symmetry. clear. induction (tbl_projects db); simpl; auto.
    - rewrite <- Hids. unfold select_rows.
      destruct (using_qual max_nesting current_catalog FOR_SELECT Tprojects) as [q|] eqn:Hq;
        [|vm_compute in Hq; discriminate].
      f_equal. rewrite filter_comm.
      clear Hids. induction (tbl_projects db) as [|p l IH]; simpl; [reflexivity|].
      destruct (existsb (Nat.eqb (projects.id p)) (get_user_project_ids db uid)) eqn:Hacc.
      + simpl. assert (Hv : eval db uid q (project_tuple p) = true).
        { eapply permits_true_eval; [exact Hq|]. apply project_read_rule. left.
          now apply existsb_eqb_In. }
        rewrite Hv. now rewrite IH.
      + exact IH. }
  eexists. split; [exact Heq|]. split; [reflexivity|]. intros p.
  rewrite filter_In, existsb_eqb_In, in_get_user_project_ids. tauto.
Qed.

Lemma admits_true_eval cat cmd t db uid r q :
  check_qual max_nesting cat cmd t = Some q ->
  admits cat cmd t db uid r = Some true -> eval db uid q r = true.
Proof. unfold admits. intros ->. simpl. congruence. Qed.

Lemma admits_eval cat cmd t db uid r q :
  check_qual max_nesting cat cmd t = Some q ->
  admits cat cmd t db uid r = Some (eval db uid q r).
Proof. unfold admits. now intros ->. Qed.

Lemma no_member_of_missing_project db u p :
  members_reference_projects db -> has_project db p = false -> ~ member db u p.
Proof.
  intros Hfk Hp (m & Hin & Hpm & _). specialize (Hfk m Hin). congruence.
Qed.

(** X17. Creating a project, for a signed-in user and whatever the engine's
    [trim] removes.  When trimming leaves nothing of the name, nothing is
    sent and the form asks for a name.  Otherwise, for a free project id on
    a store whose membership rows all refer to existing projects: the
    project is stored with the trimmed name, the trimmed description (NULL
    when nothing is left of it) and the caller as owner, and is in the
    caller's accessible set.  The creator's membership row is added exactly
    when the caller has a profile and the membership id is free; when it is
    not added the project stays, and its owner, though able to read it, may
    not create tickets in it. *)
Theorem project_creation_outcome {js : engine} db uid newProject project_id
  member_id now :
  let added := has_profile db uid
               && negb (existsb (fun m => project_members.id m =? member_id)
                                (tbl_project_members db)) in
  let d := trim (Dashboard.description newProject) in
  (trim (Dashboard.name newProject) = ""%string ->
     Dashboard.createProject current_catalog db (Some uid) newProject project_id
       member_id now
     = (db, Dashboard.name_required))
  /\ (trim (Dashboard.name newProject) <> ""%string ->
      has_project db project_id = false ->
      members_reference_projects db ->
      exists db' p,
        Dashboard.createProject current_catalog db (Some uid) newProject project_id
          member_id now
        = (db', Dashboard.created p added)
        /\ projects.id p = project_id /\ projects.owner_id p = uid
        /\ projects.name p = trim (Dashboard.name newProject)
        /\ projects.description p = (if String.eqb d "" then None else Some d)
        /\ In p (tbl_projects db')
        /\ accessible db' uid project_id
        /\ (member db' uid project_id <-> added = true)
        /\ (forall t, tickets.project_id t = project_id -> tickets.reporter_id t = uid ->
                      can_create_ticket db' uid t = Some added)).
Proof.
  intros added d0. unfold Dashboard.createProject.
  split; [intros Hname; apply String.eqb_eq in Hname; now rewrite Hname|].
  intros Hname Hfresh Hfk. apply String.eqb_neq in Hname. rewrite Hname. subst d0.
  set (d := trim (Dashboard.description newProject)).
  set (desc := if String.eqb d "" then None else Some d).
  set (p := projects.mk project_id (trim (Dashboard.name newProject)) desc uid now).
  set (db1 := with_projects db (tbl_projects db ++ [p])).
  assert (Hins : insert_project current_catalog db uid project_id now
                   (trim (Dashboard.name newProject)) desc uid = Ok (db1, p)).
  { unfold insert_project. fold p.
    destruct (check_qual max_nesting current_catalog FOR_INSERT Tprojects) as [qc|] eqn:Hqc;
      [|vm_compute in Hqc; discriminate].
    destruct (using_qual max_nesting current_catalog FOR_SELECT Tprojects) as [qs|] eqn:Hqs;
      [|vm_compute in Hqs; discriminate].
    assert (Hc : eval db uid qc (project_tuple p) = true).
    { eapply admits_true_eval; [exact Hqc|]. now apply project_write_rules. }
    assert (Hs : eval db uid qs (project_tuple p) = true).
    { eapply permits_true_eval; [exact Hqs|]. apply project_read_rule. now right. }
    rewrite Hc, Hs, Hfresh. reflexivity. }
  rewrite Hins. cbn [projects.id p].
  assert (Hown1 : owns db1 uid project_id).
  { exists p. split; [|split; reflexivity]. simpl. apply in_or_app. right. now left. }
  assert (Hnomem : ~ member db uid project_id)
    by (now apply no_member_of_missing_project).
  assert (Hticket : forall db2 t,
             tickets.project_id t = project_id -> tickets.reporter_id t = uid ->
             forall b, (member db2 uid project_id <-> b = true) ->
                       can_create_ticket db2 uid t = Some b).
  { intros db2 t Hp Hr b Hb.
    destruct (ticket_create_rule db2 uid t) as [Ht Hf]. rewrite Hp in Ht, Hf.
    destruct b.
    - apply Ht. split; [now apply Hb | assumption].
    - apply Hf. intros [Hm _]. apply Hb in Hm. discriminate. }
  unfold insert_project_member.
  destruct (check_qual max_nesting current_catalog FOR_INSERT Tproject_members)
    as [qm|] eqn:Hqm; [|vm_compute in Hqm; discriminate].
  assert (Hcm : eval db1 uid qm
                  (member_tuple (project_members.mk member_id project_id uid admin None now))
                = true).
  { eapply admits_true_eval; [exact Hqm|]. apply member_create_rule. now left. }
  rewrite Hcm. cbn [negb]. change (tbl_project_members db1) with (tbl_project_members db).
  rewrite (member_existsb_false Hnomem).
  assert (Hhas : has_project db1 project_id = true).
  { apply has_project_true. exists p. split; [|reflexivity].
    simpl. apply in_or_app. right. now left. }
  rewrite Hhas. cbn [negb]. change (has_profile db1 uid) with (has_profile db uid).
  unfold added.
  destruct (existsb (fun m => project_members.id m =? member_id) (tbl_project_members db))
    eqn:Hmid; [|destruct (has_profile db uid) eqn:Hprof]; cbn [negb andb].
  - rewrite andb_false_r. exists db1, p. split; [reflexivity|]. repeat split; try reflexivity.
    + simpl. apply in_or_app. right. now left.
    + apply in_get_user_project_ids. now left.
    + intros Hm. exfalso. now apply Hnomem.
    + discriminate.
    + intros t Hp Hr. apply (Hticket db1 t Hp Hr false). split; [|discriminate].
      intros Hm. exfalso. now apply Hnomem.
  - eexists. exists p. split; [reflexivity|].
    assert (Hmem : member
                     (with_project_members db1
                        (tbl_project_members db
                         ++ [project_members.mk member_id project_id uid admin None now]))
                     uid project_id).
    { eexists. split; [simpl; apply in_or_app; right; now left|]. split; reflexivity. }
    split; [reflexivity|]. split; [reflexivity|]. split; [reflexivity|].
    split; [reflexivity|].
    split; [simpl; apply in_or_app; right; now left|].
    split; [apply in_get_user_project_ids; now right|].
    split; [split; [reflexivity | intros _; exact Hmem]|].
    intros t Hp Hr. apply (Hticket _ t Hp Hr true).
    split; [reflexivity | intros _; exact Hmem].
  - exists db1, p. split; [reflexivity|]. repeat split; try reflexivity.
    + simpl. apply in_or_app. right. now left.
    + apply in_get_user_project_ids. now left.
    + intros Hm. exfalso. now apply Hnomem.
    + discriminate.
    + intros t Hp Hr. apply (Hticket db1 t Hp Hr false). split; [|discriminate].
      intros Hm. exfalso. now apply Hnomem.
Qed.

Lemma project_creation_outcome_witness :
  let newProject := Dashboard.mknew "  Mobile app " "" in
  @trim sample_engine (Dashboard.name newProject) <> ""%string
  /\ has_project sample_db 12 = false
  /\ members_reference_projects sample_db
  /\ exists db' p,
       @Dashboard.createProject sample_engine current_catalog sample_db (Some carol)
         newProject 12 22 95%Z
       = (db', Dashboard.created p true)
       /\ projects.name p = "Mobile app"%string
       /\ projects.description p = None
       /\ accessible db' carol 12.
Proof.
  intros newProject.
  assert (H1 : @trim sample_engine (Dashboard.name newProject) <> ""%string)
    by discriminate.
  assert (H2 : has_project sample_db 12 = false) by reflexivity.
  assert (H3 : members_reference_projects sample_db).
  { intros m Hin. simpl in Hin. destruct Hin as [<- | []]. reflexivity. }
  split; [exact H1|]. split; [exact H2|]. split; [exact H3|].
  destruct (proj2 (@project_creation_outcome sample_engine sample_db carol newProject
                     12 22 95%Z) H1 H2 H3)
    as (db' & p & Hc & _ & _ & Hn & Hd & _ & Ha & _).
  exists db', p. split; [exact Hc|]. split; [exact Hn|]. split; [exact Hd | exact Ha].
Defined.

(** X18. The new-ticket form, for a signed-in user and whatever the
    engine's [trim] removes.  When trimming leaves nothing of the title,
    nothing is sent and the form asks for a title.  Otherwise: with the
    assignee box untouched the ticket is never created, the empty text is
    sent where the store wants a UUID; with "Unassigned" or a member chosen,
    the ticket is created (the title as typed, status todo, the caller as
    reporter) exactly when the caller holds a membership row for the
    project, the project and the caller's profile exist, the assignee if
    any has a profile, and the ticket id is free; otherwise the store is
    unchanged and the failure toast shown. *)
Theorem ticket_form_outcome {js : engine} db uid projectId ticketData new_id now :
  let submit :=
    CreateTicketDialog.handleSubmit current_catalog db (Some uid) projectId ticketData
      new_id now in
  let failure := (db, toast_error "Failed to create ticket. Please try again.") in
  let row a :=
    tickets.mk new_id (CreateTicketDialog.title ticketData)
      (Some (CreateTicketDialog.description ticketData))
      (CreateTicketDialog.type ticketData) (CreateTicketDialog.priority ticketData)
      todo projectId uid a None now in
  let ok a :=
    member db uid projectId
    /\ has_ticket db new_id = false /\ has_project db projectId = true
    /\ has_profile db uid = true
    /\ match a with Some u => has_profile db u = true | None => True end in
  let outcome a :=
    (ok a -> submit = (with_tickets db (tbl_tickets db ++ [row a]),
                       toast_success "Ticket created successfully!"))
    /\ (~ ok a -> submit = failure) in
  (trim (CreateTicketDialog.title ticketData) = ""%string ->
     submit = (db, toast_error "Please enter a ticket title"))
  /\ (trim (CreateTicketDialog.title ticketData) <> ""%string ->
      match CreateTicketDialog.assignee_id ticketData with
      | field_empty => submit = failure
      | field_unassigned => outcome None
      | field_user u => outcome (Some u)
      end).
Proof.
  intros submit failure row ok outcome.
  split.
  { intros Htitle. apply blank_true in Htitle.
    unfold submit, CreateTicketDialog.handleSubmit. now rewrite Htitle. }
  intros Htitle. apply blank_false in Htitle.
  assert (Hgen : forall a,
             (CreateTicketDialog.assignee_id ticketData = field_unassigned /\ a = None)
             \/ (exists u, CreateTicketDialog.assignee_id ticketData = field_user u
                           /\ a = Some u) ->
             outcome a).
  { intros a Ha. unfold outcome, submit, failure, CreateTicketDialog.handleSubmit.
    rewrite Htitle.
    assert (Hsel : match CreateTicketDialog.assignee_id ticketData with
                   | field_empty => None
                   | field_unassigned =>
                       Some (insert_ticket current_catalog db uid new_id now
                               (CreateTicketDialog.title ticketData)
                               (Some (CreateTicketDialog.description ticketData))
                               (CreateTicketDialog.type ticketData)
                               (CreateTicketDialog.priority ticketData) todo projectId uid None)
                   | field_user u =>
                       Some (insert_ticket current_catalog db uid new_id now
                               (CreateTicketDialog.title ticketData)
                               (Some (CreateTicketDialog.description ticketData))
                               (CreateTicketDialog.type ticketData)
                               (CreateTicketDialog.priority ticketData) todo projectId uid
                               (Some u))
                   end
                   = Some (insert_ticket current_catalog db uid new_id now
                             (CreateTicketDialog.title ticketData)
                             (Some (CreateTicketDialog.description ticketData))
                             (CreateTicketDialog.type ticketData)
                             (CreateTicketDialog.priority ticketData) todo projectId uid a)).
    { destruct Ha as [[-> ->] | (u & -> & ->)]; reflexivity. }
    rewrite Hsel. clear Hsel Ha. unfold insert_ticket. fold (row a).
    destruct (check_qual max_nesting current_catalog FOR_INSERT Ttickets) as [qc|] eqn:Hqc;
      [|vm_compute in Hqc; discriminate].
    pose proof (@admits_eval current_catalog FOR_INSERT Ttickets db uid
                  (ticket_tuple (row a)) qc Hqc) as Hadm.
    destruct (ticket_create_rule db uid (row a)) as [Ht Hf].
    unfold can_create_ticket in Ht, Hf. rewrite Hadm in Ht, Hf. cbn [row tickets.project_id
      tickets.reporter_id] in Ht, Hf.
    destruct (eval db uid qc (ticket_tuple (row a))) eqn:Hev; cbn [negb].
    - assert (Hmem : member db uid projectId) by (now apply Ht).
      destruct (has_ticket db new_id) eqn:H1;
        [split; [intros (_ & H & _); discriminate | reflexivity]|].
      destruct (has_project db projectId) eqn:H2; cbn [negb];
        [|split; [intros (_ & _ & H & _); discriminate | reflexivity]].
      destruct (has_profile db uid) eqn:H3; cbn [negb];
        [|split; [intros (_ & _ & _ & H & _); discriminate | reflexivity]].
      destruct a as [u|].
      + destruct (has_profile db u) eqn:H4; cbn [negb].
        * split; [reflexivity|]. intros Hn. exfalso. apply Hn. unfold ok. now repeat split.
        * split; [intros (_ & _ & _ & _ & H); simpl in H; congruence | reflexivity].
      + split; [reflexivity|]. intros Hn. exfalso. apply Hn. unfold ok. now repeat split.
    - split; [|reflexivity]. intros (Hmem & _).
      assert (Hno : ~ (member db uid projectId /\ uid = uid)) by (now apply Hf).
      exfalso. apply Hno. now split. }
  destruct (CreateTicketDialog.assignee_id ticketData) as [| |u] eqn:Hfield.
  - unfold submit, failure, CreateTicketDialog.handleSubmit. now rewrite Htitle, Hfield.
  - apply Hgen. now left.
  - apply Hgen. right. now exists u.
Qed.

Lemma ticket_form_outcome_witness :
  @trim sample_engine
     (CreateTicketDialog.title
        (CreateTicketDialog.mkdata "Crash on save" "" task medium field_empty))
  <> ""%string
  /\ @CreateTicketDialog.handleSubmit sample_engine current_catalog sample_db (Some bob) 10
       (CreateTicketDialog.mkdata "Crash on save" "" task medium field_empty) 101 90%Z
     = (sample_db, toast_error "Failed to create ticket. Please try again.").
Proof.
  assert (H : @trim sample_engine
                (CreateTicketDialog.title
                   (CreateTicketDialog.mkdata "Crash on save" "" task medium field_empty))
              <> ""%string) by discriminate.
  split; [exact H|].
  exact (proj2 (@ticket_form_outcome sample_engine sample_db bob 10
                  (CreateTicketDialog.mkdata "Crash on save" "" task medium field_empty)
                  101 90%Z) H).
Defined.

Lemma selections_never_empty f choices :
  TicketDialog.assignee_id f <> field_empty ->
  TicketDialog.assignee_id (fold_left TicketDialog.select_assignee choices f)
  <> field_empty.
Proof.
  revert f. induction choices as [|c choices IH]; intros f Hf; simpl; [exact Hf|].
  apply IH. destruct c; discriminate.
Qed.

(** X19. The ticket dialog cannot clear an assignee.  The dialog opens on
    an assigned ticket with the assignee in the select box; whatever is then
    chosen there, in any number of steps, a save leaves every ticket of the
    store either as it was or with an assignee: choosing "Unassigned" sends
    that word where the store wants a UUID, and the save fails. *)
Theorem dialog_cannot_clear_assignee cat db user ticket a choices
  (Hassigned : tickets.assignee_id ticket = Some a) :
  let f := fold_left TicketDialog.select_assignee choices (TicketDialog.form_of ticket) in
  let db' := fst (TicketDialog.handleUpdateTicket_form cat db user (tickets.id ticket) f) in
  Forall2 (fun t t' => t' = t \/ tickets.assignee_id t' <> None)
          (tbl_tickets db) (tbl_tickets db')
  /\ (TicketDialog.assignee_id f = field_unassigned -> db' = db).
Proof.
  intros f db'.
  assert (Hsame : Forall2 (fun t t' => t' = t \/ tickets.assignee_id t' <> None)
                    (tbl_tickets db) (tbl_tickets db)).
  { rewrite <- (map_id (tbl_tickets db)) at 2. apply Forall2_map_self. now left. }
  assert (Hf : TicketDialog.assignee_id f <> field_empty).
  { apply selections_never_empty. unfold TicketDialog.form_of. simpl.
    rewrite Hassigned. discriminate. }
  unfold db', TicketDialog.handleUpdateTicket_form.
  destruct (TicketDialog.assignee_id f) as [| |u]; [contradiction| |].
  - split; [|intros _]; destruct user; simpl; auto.
  - split; [|discriminate]. unfold handleUpdateTicket.
    destruct user as [uid|]; [|exact Hsame].
    destruct (update_tickets cat db uid (tickets.id ticket) _) as [db1|err] eqn:Hup;
      [|exact Hsame].
    apply update_tickets_shape in Hup. destruct Hup as (hit & _ & ->).
    simpl. apply Forall2_map_self. intros t.
    destruct (hit t); [right; simpl; discriminate | now left].
Qed.

Lemma dialog_cannot_clear_assignee_witness :
  tickets.assignee_id ticket100 = Some bob
  /\ fst (TicketDialog.handleUpdateTicket_form current_catalog sample_db (Some alice) 100
            (fold_left TicketDialog.select_assignee [Some carol; None]
               (TicketDialog.form_of ticket100)))
     = sample_db.
Proof.
  assert (H : tickets.assignee_id ticket100 = Some bob) by reflexivity.
  split; [exact H|].
  apply (proj2 (@dialog_cannot_clear_assignee current_catalog sample_db (Some alice)
                  ticket100 bob [Some carol; None] H)).
  reflexivity.
Defined.

(** * Further properties of the ticket views *)

Lemma filter_filter {A : Type} (f g : A -> bool) (l : list A) :
  filter f (filter g l) = filter (fun x => g x && f x) l.
Proof.
  induction l as [|x l IH]; simpl; [reflexivity|].
  destruct (g x); simpl; [destruct (f x)|]; now rewrite IH.
Qed.

Lemma filter_true {A : Type} (l : list A) : filter (fun _ => true) l = l.
Proof. induction l; simpl; congruence. Qed.

(** The four steps of [filterTickets] as one test per ticket. *)
Lemma filterTickets_as_filter {js : engine} f l :
  TicketList.filterTickets f l
  = filter (fun t =>
              (String.eqb (TicketList.searchTerm f) ""
               || TicketList.matches_search (TicketList.searchTerm f) t)
              && match TicketList.statusFilter f with
                 | None => true
                 | Some s => status_eqb (tickets.status t) s
                 end
              && match TicketList.priorityFilter f with
                 | None => true
                 | Some p => TicketList.priority_eqb (tickets.priority t) p
                 end
              && match TicketList.typeFilter f with
                 | None => true
                 | Some ty => TicketList.type_eqb (tickets.type t) ty
                 end) l.
Proof.
  unfold TicketList.filterTickets.
  assert (H1 : (if String.eqb (TicketList.searchTerm f) "" then l
                else filter (TicketList.matches_search (TicketList.searchTerm f)) l)
               = filter (fun t => String.eqb (TicketList.searchTerm f) ""
                                  || TicketList.matches_search (TicketList.searchTerm f) t) l).
  { destruct (String.eqb (TicketList.searchTerm f) ""); simpl;
      [now rewrite filter_true | reflexivity]. }
  rewrite H1.
  destruct (TicketList.statusFilter f), (TicketList.priorityFilter f),
    (TicketList.typeFilter f); rewrite ?filter_filter; apply filter_ext; intros x;
    rewrite ?andb_true_r, ?andb_assoc; reflexivity.
Qed.

Lemma status_eqb_eq a b : status_eqb a b = true <-> a = b.
Proof. destruct a, b; simpl; split; congruence. Qed.

Lemma priority_eqb_eq a b : TicketList.priority_eqb a b = true <-> a = b.
Proof. destruct a, b; simpl; split; congruence. Qed.

Lemma type_eqb_eq a b : TicketList.type_eqb a b = true <-> a = b.
Proof. destruct a, b; simpl; split; congruence. Qed.

Lemma matches_search_true {js : engine} term t :
  TicketList.matches_search term t = true
  <-> TicketList.includes (toLowerCase (tickets.title t)) (toLowerCase term) = true
      \/ exists d, tickets.description t = Some d
                   /\ TicketList.includes (toLowerCase d) (toLowerCase term) = true.
Proof.
  unfold TicketList.matches_search. rewrite orb_true_iff.
  destruct (tickets.description t) as [d|].
  - split; (intros [H | H]; [now left | right]).
    + now exists d.
    + destruct H as (d' & Hd & H). now injection Hd as <-.
  - split; (intros [H | H]; [now left | exfalso]).
    + discriminate.
    + destruct H as (d' & Hd & _). discriminate.
Qed.

(** X20. The ticket list's filters, whatever the engine's [toLowerCase]
    makes of a text: a ticket is shown exactly when it is among the fetched
    tickets; no search text is entered, or the search text, in lower case,
    occurs in the ticket's title in lower case or in its description in
    lower case (a ticket without description has none to search); and it
    has the status, priority and type chosen (where one is chosen).  With
    nothing entered and nothing chosen all tickets are shown; and applying
    the filters to what is shown changes nothing. *)
Theorem ticket_list_filters {js : engine} f l :
  (forall t, In t (TicketList.filterTickets f l) <->
             In t l
             /\ (TicketList.searchTerm f = ""%string
                 \/ TicketList.includes (toLowerCase (tickets.title t))
                      (toLowerCase (TicketList.searchTerm f)) = true
                 \/ exists d, tickets.description t = Some d
                              /\ TicketList.includes (toLowerCase d)
                                   (toLowerCase (TicketList.searchTerm f)) = true)
             /\ (forall s, TicketList.statusFilter f = Some s -> tickets.status t = s)
             /\ (forall p, TicketList.priorityFilter f = Some p -> tickets.priority t = p)
             /\ (forall ty, TicketList.typeFilter f = Some ty -> tickets.type t = ty))
  /\ TicketList.filterTickets (TicketList.mkfilters "" None None None) l = l
  /\ TicketList.filterTickets f (TicketList.filterTickets f l)
     = TicketList.filterTickets f l.
Proof.
  split; [|split].
  - intros t. rewrite filterTickets_as_filter, filter_In, !andb_true_iff, orb_true_iff.
    rewrite String.eqb_eq, matches_search_true.
    destruct (TicketList.statusFilter f) as [s|], (TicketList.priorityFilter f) as [p|],
      (TicketList.typeFilter f) as [ty|];
      rewrite ?status_eqb_eq, ?priority_eqb_eq, ?type_eqb_eq;
      (split; [intros (Hin & ((Hs & H1) & H2) & H3); repeat split; try assumption;
                 intros x Hx; congruence
              | intros (Hin & Hs & H1 & H2 & H3); repeat split; auto]).
  - unfold TicketList.filterTickets. reflexivity.
  - rewrite !filterTickets_as_filter, filter_filter. apply filter_ext.
    intros t. now rewrite andb_diag.
Qed.

(** X21. The three columns of the board split its tickets: every ticket of
    the board is in the column of its status and in no other, and the
    columns together hold the board's tickets, each as often as the board
    does. *)
Theorem board_columns_partition (board : list tickets.row) :
  Permutation board
    (KanbanBoard.getTicketsByStatus board todo
     ++ KanbanBoard.getTicketsByStatus board in_progress
     ++ KanbanBoard.getTicketsByStatus board done)
  /\ forall t s, In t (KanbanBoard.getTicketsByStatus board s)
                 <-> In t board /\ tickets.status t = s.
Proof.
  split.
  - unfold KanbanBoard.getTicketsByStatus.
    induction board as [|t board IH]; simpl; [reflexivity|].
    destruct (tickets.status t); simpl.
    + now constructor.
    + apply Permutation_cons_app. exact IH.
    + rewrite app_assoc. apply Permutation_cons_app. rewrite <- app_assoc. exact IH.
  - intros t s. unfold KanbanBoard.getTicketsByStatus.
    now rewrite filter_In, status_eqb_eq.
Qed.

Lemma tickets_visible_by_project db uid q projectId :
  using_qual max_nesting current_catalog FOR_SELECT Ttickets = Some q ->
  filter (fun t => tickets.project_id t =? projectId)
         (filter (fun r => eval db uid q (ticket_tuple r)) (tbl_tickets db))
  = if existsb (Nat.eqb projectId) (get_user_project_ids db uid)
    then filter (fun t => tickets.project_id t =? projectId) (tbl_tickets db)
    else [].
Proof.
  intros Hq. rewrite filter_comm.
  assert (Hvis : forall t, tickets.project_id t = projectId ->
                           eval db uid q (ticket_tuple t)
                           = existsb (Nat.eqb projectId) (get_user_project_ids db uid)).
  { intros t Hp. pose proof (ticket_read_rule db uid t) as [Ht Hf].
    unfold can_read_ticket, permits in Ht, Hf. rewrite Hq in Ht, Hf. simpl in Ht, Hf.
    rewrite Hp in Ht, Hf.
    destruct (existsb (Nat.eqb projectId) (get_user_project_ids db uid)) eqn:Hacc.
    - apply existsb_eqb_In in Hacc.
      assert (H : Some (eval db uid q (ticket_tuple t)) = Some true) by (now apply Ht).
      congruence.
    - assert (H : Some (eval db uid q (ticket_tuple t)) = Some false).
      { apply Hf. intros Ha. apply existsb_eqb_In in Ha. congruence. }
      congruence. }
  induction (tbl_tickets db) as [|t l IH]; simpl.
  - now destruct (existsb _ _).
  - destruct (tickets.project_id t =? projectId) eqn:Hp; [|exact IH].
    apply Nat.eqb_eq in Hp. simpl. rewrite (Hvis t Hp), IH.
    now destruct (existsb _ _).
Qed.

(** X22. The board shows all the tickets of a project in the caller's
    accessible set, each once per stored row and in no promised order, and
    for a project outside that set it shows an empty board without an
    error: a project one may not see looks like a project without
    tickets. *)
Theorem board_of_inaccessible_project_is_empty db uid projectId old :
  exists shown,
    KanbanBoard.fetchTickets current_catalog db uid projectId old = (shown, None)
    /\ Permutation shown
         (if existsb (Nat.eqb projectId) (get_user_project_ids db uid)
          then filter (fun t => tickets.project_id t =? projectId) (tbl_tickets db)
          else [])
    /\ (accessible db uid projectId \/ shown = []).
Proof.
  assert (Heq : KanbanBoard.fetchTickets current_catalog db uid projectId old
                = (if existsb (Nat.eqb projectId) (get_user_project_ids db uid)
                   then filter (fun t => tickets.project_id t =? projectId) (tbl_tickets db)
                   else [], None)).
  { unfold KanbanBoard.fetchTickets, select_rows.
    destruct (using_qual max_nesting current_catalog FOR_SELECT Ttickets) as [q|] eqn:Hq;
      [|vm_compute in Hq; discriminate].
    now rewrite (tickets_visible_by_project db uid projectId Hq). }
  eexists. split; [exact Heq|]. split; [reflexivity|].
  destruct (existsb (Nat.eqb projectId) (get_user_project_ids db uid)) eqn:Hacc.
  - left. now apply existsb_eqb_In.
  - now right.
Qed.

Lemma insert_desc_perm t l : Permutation (TicketList.insert_desc t l) (t :: l).
Proof.
  induction l as [|x l IH]; simpl; [reflexivity|].
  destruct (tickets.created_at x <=? tickets.created_at t)%Z; [reflexivity|].
  rewrite IH. apply perm_swap.
Qed.

Lemma order_desc_perm l : Permutation (TicketList.order_desc l) l.
Proof.
  induction l as [|t l IH]; simpl; [reflexivity|].
  rewrite insert_desc_perm. now constructor.
Qed.

Lemma insert_desc_sorted t l :
  StronglySorted newest_first l -> StronglySorted newest_first (TicketList.insert_desc t l).
Proof.
  induction l as [|x l IH]; simpl; intros Hs.
  - repeat constructor.
  - destruct (tickets.created_at x <=? tickets.created_at t)%Z eqn:Hle.
    + apply Z.leb_le in Hle. constructor; [assumption|].
      constructor; [exact Hle|].
      inversion Hs as [|? ? _ Hall]; subst.
      eapply Forall_impl; [|exact Hall]. unfold newest_first. intros y Hy. lia.
    + apply Z.leb_gt in Hle. inversion Hs as [|? ? Hs' Hall]; subst.
      constructor; [now apply IH|].
      eapply Permutation_Forall; [symmetry; apply insert_desc_perm|].
      constructor; [unfold newest_first; lia | assumption].
Qed.

(** X23. The ticket list shows the tickets of the project that the caller
    may read, each once, newest first; for a project outside the caller's
    accessible set it shows nothing, and no error. *)
Theorem ticket_list_is_newest_first db uid projectId old :
  exists l,
    TicketList.fetchTickets current_catalog db uid projectId old = (l, None)
    /\ StronglySorted newest_first l
    /\ Permutation l
         (if existsb (Nat.eqb projectId) (get_user_project_ids db uid)
          then filter (fun t => tickets.project_id t =? projectId) (tbl_tickets db)
          else []).
Proof.
  unfold TicketList.fetchTickets, select_rows.
  destruct (using_qual max_nesting current_catalog FOR_SELECT Ttickets) as [q|] eqn:Hq;
    [|vm_compute in Hq; discriminate].
  eexists. split; [reflexivity|]. split.
  - unfold TicketList.order_desc.
    induction (filter _ _) as [|t l IH]; simpl; [constructor|].
    now apply insert_desc_sorted.
  - rewrite order_desc_perm. now rewrite (tickets_visible_by_project db uid projectId Hq).
Qed.

(** * Further properties of sign-up and of profile deletion *)

Lemma split_part_no_at s :
  forallb (fun a => negb (Ascii.nat_of_ascii a =? 64))
          (list_ascii_of_string (split_part_at_1 s)) = true.
Proof.
  induction s as [|a s IH]; simpl; [reflexivity|].
  destruct (Ascii.nat_of_ascii a =? 64) eqn:Ha; simpl; [reflexivity|].
  now rewrite Ha.
Qed.

Lemma username_taken_after db p n :
  profiles.username p = Some n ->
  existsb (fun q => opt_string_is (profiles.username q) n) (tbl_profiles db ++ [p]) = true.
Proof.
  intros Hn. apply existsb_exists. exists p. split.
  - apply in_or_app. right. now left.
  - unfold opt_string_is. rewrite Hn. apply String.eqb_refl.
Qed.

(** X24. Sign-up, when the metadata carries no username: the profile is
    named after the part of the e-mail address before the first [@], which
    holds no [@]; and once a user with no metadata username has signed up,
    the sign-up of another new user whose address has the same part before
    the [@] fails on the uniqueness of usernames. *)
Theorem same_local_part_blocks_second_signup db u1 u2 e1 e2 db1
  (Hmeta1 : meta_username u1 = None)
  (Hmeta2 : meta_username u2 = None)
  (Hmail1 : email u1 = Some e1)
  (Hmail2 : email u2 = Some e2)
  (Hlocal : split_part_at_1 e1 = split_part_at_1 e2)
  (Hfirst : handle_new_user db u1 = Ok db1)
  (Hother : au_id u2 <> au_id u1)
  (Hnew : has_profile db (au_id u2) = false) :
  (exists p, tbl_profiles db1 = tbl_profiles db ++ [p]
             /\ profiles.id p = au_id u1
             /\ profiles.username p = Some (split_part_at_1 e1)
             /\ forallb (fun a => negb (Ascii.nat_of_ascii a =? 64))
                        (list_ascii_of_string (split_part_at_1 e1)) = true)
  /\ handle_new_user db1 u2 = Err (unique_violation "profiles_username_key").
Proof.
  unfold handle_new_user in Hfirst. rewrite Hmeta1, Hmail1 in Hfirst. simpl in Hfirst.
  destruct (has_profile db (au_id u1)); [discriminate|].
  destruct (existsb _ (tbl_profiles db)); [discriminate|].
  injection Hfirst as <-. split.
  - eexists. split; [reflexivity|]. split; [reflexivity|]. split; [reflexivity|].
    apply split_part_no_at.
  - unfold handle_new_user. rewrite Hmeta2, Hmail2. simpl.
    assert (Hid : has_profile
                    (mkdb (tbl_profiles db
                           ++ [profiles.mk (au_id u1) (Some (split_part_at_1 e1))
                                 (coalesce (meta_full_name u1) (Some (split_part_at_1 e1)))])
                          (tbl_projects db) (tbl_project_members db) (tbl_tickets db)
                          (tbl_comments db)) (au_id u2) = false).
    { unfold has_profile in *. simpl. rewrite existsb_app, Hnew. simpl.
      rewrite orb_false_r. apply Nat.eqb_neq. congruence. }
    rewrite Hid. rewrite <- Hlocal. cbn [tbl_profiles].
    rewrite (@username_taken_after db
               (profiles.mk (au_id u1) (Some (split_part_at_1 e1))
                  (coalesce (meta_full_name u1) (Some (split_part_at_1 e1))))
               (split_part_at_1 e1) eq_refl).
    reflexivity.
Qed.

Lemma same_local_part_blocks_second_signup_witness :
  let u1 := mkauth 4 (Some "dave@example.org"%string) None None in
  let u2 := mkauth 5 (Some "dave@example.com"%string) None None in
  exists db1,
    handle_new_user sample_db u1 = Ok db1
    /\ split_part_at_1 "dave@example.org" = split_part_at_1 "dave@example.com"
    /\ has_profile sample_db (au_id u2) = false
    /\ handle_new_user db1 u2 = Err (unique_violation "profiles_username_key").
Proof.
  intros u1 u2. eexists.
  assert (Hfirst : handle_new_user sample_db u1
                   = Ok (mkdb (tbl_profiles sample_db
                               ++ [profiles.mk 4 (Some "dave"%string) (Some "dave"%string)])
                              (tbl_projects sample_db) (tbl_project_members sample_db)
                              (tbl_tickets sample_db) (tbl_comments sample_db)))
    by reflexivity.
  assert (Hlocal : split_part_at_1 "dave@example.org" = split_part_at_1 "dave@example.com")
    by reflexivity.
  assert (Hnew : has_profile sample_db (au_id u2) = false) by reflexivity.
  split; [exact Hfirst|]. split; [exact Hlocal|]. split; [exact Hnew|].
  refine (proj2 (@same_local_part_blocks_second_signup sample_db u1 u2
                   "dave@example.org" "dave@example.com" _
                   eq_refl eq_refl eq_refl eq_refl Hlocal Hfirst _ Hnew)).
  simpl. discriminate.
Defined.

Lemma username_free_iff db n :
  existsb (fun p => opt_string_is (profiles.username p) n) (tbl_profiles db) = false
  <-> ~ In n (flat_map (fun p => match profiles.username p with
                                 | Some m => [m]
                                 | None => []
                                 end) (tbl_profiles db)).
Proof.
  induction (tbl_profiles db) as [|p l IH]; simpl; [tauto|].
  rewrite orb_false_iff, IH, in_app_iff. unfold opt_string_is.
  destruct (profiles.username p) as [m|]; simpl.
  - rewrite String.eqb_neq. split.
    + intros [Hne Hl] [[Heq | []] | Hin]; [congruence | contradiction].
    + intros H. split; [intros Heq; apply H; left; left; congruence | tauto].
  - split; [intros [_ H] [[] | Hin]; contradiction | tauto].
Qed.

(** X25. Sign-up adds exactly one profile, with the new user's id and the
    derived username, when that id has no profile and the derived username
    (if there is one) is not taken, and then usernames stay unique; in
    every other case it fails with a unique-constraint violation and, the
    trigger failing, no profile is added. *)
Theorem signup_outcome db new :
  let name := coalesce (meta_username new) (option_map split_part_at_1 (email new)) in
  let full := coalesce (meta_full_name new) (option_map split_part_at_1 (email new)) in
  let free := has_profile db (au_id new) = false
              /\ match name with
                 | Some n => existsb (fun p => opt_string_is (profiles.username p) n)
                                     (tbl_profiles db) = false
                 | None => True
                 end in
  (free -> exists db',
      handle_new_user db new = Ok db'
      /\ tbl_profiles db' = tbl_profiles db ++ [profiles.mk (au_id new) name full]
      /\ tbl_projects db' = tbl_projects db
      /\ tbl_project_members db' = tbl_project_members db
      /\ tbl_tickets db' = tbl_tickets db /\ tbl_comments db' = tbl_comments db
      /\ (usernames_unique db -> usernames_unique db'))
  /\ (~ free -> exists c, handle_new_user db new = Err (unique_violation c)).
Proof.
  intros name full free. unfold handle_new_user. fold name. fold full.
  cbn [profiles.username]. subst free. clearbody name full. split.
  - intros [Hid Hname]. rewrite Hid.
    assert (Hnot : match name with
                   | Some n => existsb (fun p => opt_string_is (profiles.username p) n)
                                       (tbl_profiles db)
                   | None => false
                   end = false) by (destruct name; [assumption | reflexivity]).
    rewrite Hnot. eexists. split; [reflexivity|]. cbn [tbl_profiles tbl_projects
      tbl_project_members tbl_tickets tbl_comments]. repeat split.
    unfold usernames_unique. cbn [tbl_profiles]. rewrite flat_map_app. simpl.
    intros Hu. destruct name as [n|]; simpl.
    + apply NoDup_snoc; [exact Hu|]. now apply username_free_iff.
    + now rewrite app_nil_r.
  - intros Hn. destruct (has_profile db (au_id new)) eqn:Hid; [eexists; reflexivity|].
    destruct name as [n|].
    + destruct (existsb _ (tbl_profiles db)) eqn:Hex; [eexists; reflexivity|].
      exfalso. apply Hn. now split.
    + exfalso. apply Hn. now split.
Qed.

Lemma filter_all_true {A : Type} (f : A -> bool) (l : list A) :
  (forall x, In x l -> f x = true) -> filter f l = l.
Proof.
  induction l as [|x l IH]; simpl; intros H; [reflexivity|].
  rewrite (H x (or_introl eq_refl)). f_equal. apply IH. intros y Hy. apply H. now right.
Qed.

Lemma unassign_idempotent u t : unassign u (unassign u t) = unassign u t.
Proof.
  unfold unassign. destruct (opt_is (tickets.assignee_id t) u) eqn:H; simpl.
  - reflexivity.
  - now rewrite H.
Qed.

Lemma ticket_goes_unassign u t : ticket_goes u (unassign u t) = ticket_goes u t.
Proof. unfold unassign. now destruct (opt_is _ _). Qed.

(** X26. Deleting a profile twice is deleting it once: on the store a
    successful deletion leaves, the same deletion goes through again and
    changes nothing. *)
Theorem profile_deletion_is_idempotent db u db'
  (Hok : delete_profile db u = Ok db') :
  delete_profile db' u = Ok db'.
Proof.
  unfold delete_profile in Hok.
  destruct (existsb (orphaned_reply db u) (tbl_comments db)); [discriminate|].
  injection Hok as <-.
  set (tickets' := map (unassign u) (filter (fun t => negb (ticket_goes u t)) (tbl_tickets db))).
  set (comments' := filter (fun c => negb (comment_goes db u c)) (tbl_comments db)).
  set (db' := mkdb _ _ _ tickets' comments').
  assert (Hnogo : forall t, In t tickets' -> ticket_goes u t = false).
  { intros t Hin. unfold tickets' in Hin. apply in_map_iff in Hin.
    destruct Hin as (t0 & <- & Hin). apply filter_In in Hin. destruct Hin as [_ H].
    rewrite ticket_goes_unassign. now apply negb_true_iff. }
  assert (Hstay : forall c, In c comments' -> comment_goes db' u c = false).
  { intros c Hin. unfold comments' in Hin. apply filter_In in Hin. destruct Hin as [_ H].
    apply negb_true_iff in H. unfold comment_goes in *. apply orb_false_iff in H.
    destruct H as [Ha _]. rewrite Ha. simpl.
    apply not_true_is_false. intros Hex. apply existsb_exists in Hex.
    destruct Hex as (t & Hin & Ht). apply andb_true_iff in Ht. destruct Ht as [_ Ht].
    simpl in Hin. rewrite (Hnogo t Hin) in Ht. discriminate. }
  unfold delete_profile.
  assert (Hnone : existsb (orphaned_reply db' u) (tbl_comments db') = false).
  { apply not_true_is_false. intros H. apply existsb_exists in H.
    destruct H as (c & Hin & Hc). unfold orphaned_reply in Hc.
    apply andb_true_iff in Hc. destruct Hc as [_ Hc].
    destruct (comments.parent_id c) as [p|]; [|discriminate].
    apply existsb_exists in Hc. destruct Hc as (c' & Hin' & Hc').
    apply andb_true_iff in Hc'. destruct Hc' as [_ Hc'].
    simpl in Hin'. rewrite (Hstay c' Hin') in Hc'. discriminate. }
  rewrite Hnone. f_equal.
  assert (E1 : filter (fun p => negb (profiles.id p =? u)) (tbl_profiles db')
               = tbl_profiles db').
  { apply filter_all_true. intros p Hin. simpl in Hin. apply filter_In in Hin. tauto. }
  assert (E2 : filter (fun m => negb (project_members.user_id m =? u))
                      (tbl_project_members db')
               = tbl_project_members db').
  { apply filter_all_true. intros m Hin. simpl in Hin. apply filter_In in Hin. tauto. }
  assert (E3 : map (unassign u) (filter (fun t => negb (ticket_goes u t)) (tbl_tickets db'))
               = tbl_tickets db').
  { rewrite filter_all_true.
    - simpl. unfold tickets'. rewrite map_map. apply map_ext. intros t.
      apply unassign_idempotent.
    - intros t Hin. simpl in Hin. now rewrite (Hnogo t Hin). }
  assert (E4 : filter (fun c => negb (comment_goes db' u c)) (tbl_comments db')
               = tbl_comments db').
  { apply filter_all_true. intros c Hin. simpl in Hin. now rewrite (Hstay c Hin). }
  rewrite E1, E2, E3, E4. reflexivity.
Qed.

Lemma profile_deletion_is_idempotent_witness :
  exists db',
    delete_profile sample_db bob = Ok db'
    /\ delete_profile db' bob = Ok db'.
Proof.
  eexists.
  assert (Hok : delete_profile sample_db bob
                = Ok (mkdb (filter (fun p => negb (profiles.id p =? bob))
                                   (tbl_profiles sample_db))
                           (tbl_projects sample_db) [] [] [])) by reflexivity.
  split; [exact Hok|].
  exact (@profile_deletion_is_idempotent sample_db bob _ Hok).
Defined.

(** * Further properties of the project settings *)

Lemma pkey_same_project db p p' :
  projects_pkey db -> In p (tbl_projects db) -> In p' (tbl_projects db) ->
  projects.id p = projects.id p' -> p = p'.
Proof.
  unfold projects_pkey. induction (tbl_projects db) as [|x l IH]; simpl; [tauto|].
  intros Hnd [-> | Hin] [-> | Hin'] Hid; inversion Hnd; subst.
  - reflexivity.
  - exfalso. apply H1. rewrite Hid. now apply in_map.
  - exfalso. apply H1. rewrite <- Hid. now apply in_map.
  - now apply IH.
Qed.

(** X27. Saving the project settings, by the owner of a stored project:
    the store accepts the update, the project gets the name and the
    description of the form (NULL where the form still holds the NULL of a
    project without description) and keeps its id, owner and creation time,
    and no other project and no other table changes. *)
Theorem project_update_by_owner db uid project name description
  (Hpkey : projects_pkey db)
  (Hin : In project (tbl_projects db))
  (Howner : projects.owner_id project = uid) :
  exists db',
    ProjectSettings.updateProject current_catalog db (Some uid) project name description
    = (db', Some (toast_success "Project updated successfully!"))
    /\ tbl_projects db'
       = map (fun p => if projects.id p =? projects.id project
                       then projects.mk (projects.id p) name description
                                        (projects.owner_id p) (projects.created_at p)
                       else p) (tbl_projects db)
    /\ (forall p, In p (tbl_projects db) -> p <> project -> In p (tbl_projects db'))
    /\ tbl_profiles db' = tbl_profiles db
    /\ tbl_project_members db' = tbl_project_members db
    /\ tbl_tickets db' = tbl_tickets db /\ tbl_comments db' = tbl_comments db.
Proof.
  unfold ProjectSettings.updateProject, ProjectSettings.isOwner.
  rewrite Howner, Nat.eqb_refl. cbn [negb]. unfold update_project.
  destruct (using_qual max_nesting current_catalog FOR_SELECT Tprojects) as [qs|] eqn:Hqs;
    [|vm_compute in Hqs; discriminate].
  destruct (using_qual max_nesting current_catalog FOR_UPDATE Tprojects) as [qu|] eqn:Hqu;
    [|vm_compute in Hqu; discriminate].
  destruct (check_qual max_nesting current_catalog FOR_UPDATE Tprojects) as [qc|] eqn:Hqc;
    [|vm_compute in Hqc; discriminate].
  assert (Hmine : forall p, projects.owner_id p = uid ->
                            eval db uid qs (project_tuple p) = true
                            /\ eval db uid qu (project_tuple p) = true
                            /\ eval db uid qc (project_tuple p) = true).
  { intros p Hp. split; [|split].
    - eapply permits_true_eval; [exact Hqs|]. apply project_read_rule. now right.
    - eapply permits_true_eval; [exact Hqu|]. now apply project_write_rules.
    - assert (Hsame : qc = qu) by (vm_compute in Hqc, Hqu; congruence).
      rewrite Hsame. eapply permits_true_eval; [exact Hqu|]. now apply project_write_rules. }
  assert (Hhit : forall p, In p (tbl_projects db) ->
                           (projects.id p =? projects.id project)
                           && eval db uid qs (project_tuple p)
                           && eval db uid qu (project_tuple p)
                           = (projects.id p =? projects.id project)).
  { intros p Hp. destruct (projects.id p =? projects.id project) eqn:Hid; [|reflexivity].
    apply Nat.eqb_eq in Hid. rewrite (@pkey_same_project db p project Hpkey Hp Hin Hid).
    destruct (Hmine project Howner) as (-> & -> & _). reflexivity. }
  match goal with
  | |- context [if forallb ?f ?l then _ else _] => assert (Hall : forallb f l = true)
  end.
  { apply forallb_forall. intros p Hp. rewrite (Hhit p Hp).
    destruct (projects.id p =? projects.id project) eqn:Hid; [|reflexivity].
    cbn [negb orb].
    destruct (Hmine (rename_project name description p)) as (-> & _ & ->);
      [|reflexivity].
    apply Nat.eqb_eq in Hid. simpl.
    now rewrite (@pkey_same_project db p project Hpkey Hp Hin Hid). }
  rewrite Hall. eexists. split; [reflexivity|].
  assert (Hmap : map (fun p => if (projects.id p =? projects.id project)
                                  && eval db uid qs (project_tuple p)
                                  && eval db uid qu (project_tuple p)
                               then rename_project name description p else p)
                     (tbl_projects db)
                 = map (fun p => if projects.id p =? projects.id project
                                 then projects.mk (projects.id p) name description
                                                  (projects.owner_id p) (projects.created_at p)
                                 else p) (tbl_projects db)).
  { apply map_ext_in. intros p Hp. now rewrite (Hhit p Hp). }
  cbn [tbl_projects with_projects tbl_profiles tbl_project_members tbl_tickets tbl_comments].
  rewrite Hmap. split; [reflexivity|]. split; [|now repeat split].
  intros p Hp Hne. apply in_map_iff. exists p. split; [|assumption].
  destruct (projects.id p =? projects.id project) eqn:Hid; [|reflexivity].
  exfalso. apply Hne. apply Nat.eqb_eq in Hid.
  exact (@pkey_same_project db p project Hpkey Hp Hin Hid).
Qed.

Lemma project_update_by_owner_witness :
  let project := projects.mk 11 "Backlog" None alice 6%Z in
  projects_pkey sample_db /\ In project (tbl_projects sample_db)
  /\ projects.owner_id project = alice
  /\ exists db',
       ProjectSettings.updateProject current_catalog sample_db (Some alice) project
         "Icebox" (projects.description project)
       = (db', Some (toast_success "Project updated successfully!"))
       /\ tbl_projects db'
          = [ projects.mk 10 "Checkout Bugs" None alice 5%Z;
              projects.mk 11 "Icebox" None alice 6%Z ]
       /\ tbl_tickets db' = tbl_tickets sample_db.
Proof.
  intros project.
  assert (Hk : projects_pkey sample_db).
  { unfold projects_pkey. simpl. repeat constructor; simpl; intuition discriminate. }
  assert (Hin : In project (tbl_projects sample_db)) by (simpl; right; left; reflexivity).
  assert (Ho : projects.owner_id project = alice) by reflexivity.
  split; [exact Hk|]. split; [exact Hin|]. split; [exact Ho|].
  destruct (@project_update_by_owner sample_db alice project "Icebox"
              (projects.description project) Hk Hin Ho)
    as (db' & Hup & Hp & _ & _ & _ & Ht & _).
  exists db'. split; [exact Hup|]. split; [exact Hp | exact Ht].
Defined.

Lemma members_visible_by_project db uid q projectId :
  using_qual max_nesting current_catalog FOR_SELECT Tproject_members = Some q ->
  filter (fun m => project_members.project_id m =? projectId)
         (filter (fun r => eval db uid q (member_tuple r)) (tbl_project_members db))
  = if existsb (Nat.eqb projectId) (get_user_project_ids db uid)
    then filter (fun m => project_members.project_id m =? projectId)
                (tbl_project_members db)
    else [].
Proof.
  intros Hq. rewrite filter_comm.
  assert (Hvis : forall m, project_members.project_id m = projectId ->
                           eval db uid q (member_tuple m)
                           = existsb (Nat.eqb projectId) (get_user_project_ids db uid)).
  { intros m Hp. pose proof (member_read_rule db uid m) as [Ht Hf].
    unfold can_read_member, permits in Ht, Hf. rewrite Hq in Ht, Hf. simpl in Ht, Hf.
    rewrite Hp in Ht, Hf.
    destruct (existsb (Nat.eqb projectId) (get_user_project_ids db uid)) eqn:Hacc.
    - apply existsb_eqb_In in Hacc.
      assert (H : Some (eval db uid q (member_tuple m)) = Some true) by (now apply Ht).
      congruence.
    - assert (H : Some (eval db uid q (member_tuple m)) = Some false).
      { apply Hf. intros Ha. apply existsb_eqb_In in Ha. congruence. }
      congruence. }
  induction (tbl_project_members db) as [|m l IH]; simpl.
  - now destruct (existsb _ _).
  - destruct (project_members.project_id m =? projectId) eqn:Hp; [|exact IH].
    apply Nat.eqb_eq in Hp. simpl. rewrite (Hvis m Hp), IH.
    now destruct (existsb _ _).
Qed.

(** X28. The member list of the settings page and the assignee box of the
    ticket dialog hold the same rows: all membership rows of the project
    when the project is in the caller's accessible set, none otherwise, and
    no error either way.  A user is offered as assignee exactly when a
    membership row exists, so an owner without one is not offered. *)
Theorem member_lists_show_membership_rows db uid project old old' :
  let rows := if existsb (Nat.eqb (projects.id project)) (get_user_project_ids db uid)
              then filter (fun m => project_members.project_id m =? projects.id project)
                          (tbl_project_members db)
              else [] in
  ProjectSettings.fetchMembers current_catalog db uid project old = (rows, None)
  /\ TicketDialog.fetchProjectMembers current_catalog db uid (projects.id project) old'
     = rows
  /\ forall u, In u (map project_members.user_id rows)
               <-> accessible db uid (projects.id project)
                   /\ member db u (projects.id project).
Proof.
  intros rows. unfold ProjectSettings.fetchMembers, TicketDialog.fetchProjectMembers,
    select_rows.
  destruct (using_qual max_nesting current_catalog FOR_SELECT Tproject_members)
    as [q|] eqn:Hq; [|vm_compute in Hq; discriminate].
  rewrite (members_visible_by_project db uid (projects.id project) Hq). fold rows.
  split; [reflexivity|]. split; [reflexivity|].
  intros u. unfold rows, accessible, member.
  destruct (existsb (Nat.eqb (projects.id project)) (get_user_project_ids db uid)) eqn:Hacc.
  - apply existsb_eqb_In in Hacc. rewrite in_map_iff. split.
    + intros (m & Hu & Hin). apply filter_In in Hin. destruct Hin as [Hin Hp].
      apply Nat.eqb_eq in Hp. split; [assumption|]. now exists m.
    + intros (_ & m & Hin & Hp & Hu). exists m. split; [assumption|].
      apply filter_In. split; [assumption|]. now apply Nat.eqb_eq.
  - simpl. split; [tauto|]. intros (Ha & _). apply existsb_eqb_In in Ha. congruence.
Qed.

(** * A further property of the ticket dialog *)

(** X29. An assignee who does not own the project cannot hand the ticket
    over: the update policy has no separate check for the new row, so its
    condition is applied to the row as saved, and a save that names anyone
    else, or no one, as assignee is refused; the store is unchanged and the
    failure toast shown. *)
Theorem assignee_cannot_hand_over db uid t e
  (Hin : In t (tbl_tickets db))
  (Hread : can_read_ticket db uid t = Some true)
  (Hassignee : tickets.assignee_id t = Some uid)
  (Hnot_owner : ~ owns db uid (tickets.project_id t))
  (Hother : ed_assignee_id e <> Some uid) :
  handleUpdateTicket current_catalog db (Some uid) (tickets.id t) e
  = (db, Some (toast_error "Failed to update ticket")).
Proof.
  unfold handleUpdateTicket.
  assert (Hup : update_tickets current_catalog db uid (tickets.id t) (edit_payload e)
                = Err insufficient_privilege).
  { assert (Hu : can_update_ticket db uid t = Some true)
      by (apply ticket_update_rule; now left).
    assert (Hnew : can_update_ticket db uid (patch_ticket (edit_payload e) t) = Some false).
    { apply ticket_update_rule. simpl. tauto. }
    apply can_read_ticket_eval in Hread. apply can_update_ticket_eval in Hu.
    apply can_update_ticket_eval_false in Hnew.
    unfold update_tickets. expose_quals.
    match goal with
    | |- (if forallb ?f ?l then _ else _) = _ => destruct (forallb f l) eqn:Hall
    end; [|reflexivity].
    exfalso. rewrite forallb_forall in Hall. specialize (Hall t Hin).
    rewrite Nat.eqb_refl, Hread, Hu in Hall. cbn [andb negb orb] in Hall.
    rewrite Hnew in Hall. discriminate. }
  now rewrite Hup.
Qed.

Lemma assignee_cannot_hand_over_witness :
  In ticket100 (tbl_tickets sample_db)
  /\ can_read_ticket sample_db bob ticket100 = Some true
  /\ tickets.assignee_id ticket100 = Some bob
  /\ ~ owns sample_db bob (tickets.project_id ticket100)
  /\ handleUpdateTicket current_catalog sample_db (Some bob) 100
       (mkedited "Checkout fails" None bug high in_progress (Some carol))
     = (sample_db, Some (toast_error "Failed to update ticket")).
Proof.
  assert (H1 : In ticket100 (tbl_tickets sample_db)) by (simpl; left; reflexivity).
  assert (H2 : can_read_ticket sample_db bob ticket100 = Some true) by reflexivity.
  assert (H3 : tickets.assignee_id ticket100 = Some bob) by reflexivity.
  assert (H4 : ~ owns sample_db bob (tickets.project_id ticket100)).
  { intros (r & Hin & _ & Ho). simpl in Hin.
    destruct Hin as [<- | [<- | []]]; discriminate. }
  split; [exact H1|]. split; [exact H2|]. split; [exact H3|]. split; [exact H4|].
  apply (@assignee_cannot_hand_over sample_db bob ticket100
           (mkedited "Checkout fails" None bug high in_progress (Some carol)) H1 H2 H3 H4).
  simpl. discriminate.
Defined.
